(** * LELU: extraction of DocumentCloud URLs from .tsv files

    A shallow embedding of the Go program of the repository (src/main.go and
    its sibling variant src/unnamed/part_000) together with the parts of the
    Go standard library the program calls (strings, regexp, net/url, bufio,
    log, os), followed by the properties of the program that the
    specification states.

    Go strings are byte sequences: they are modelled by [string], whose
    characters ([ascii]) are exactly the 256 byte values. *)

From Stdlib Require Import Ascii String List Arith Bool Lia NArith.
From stdpp Require Import base option gmap strings.

Local Open Scope string_scope.

(* ===================================================================== *)
(** * Part I: definitions *)
(* ===================================================================== *)

(** ** Fallible results: Go's [(value, error)] pairs *)

Inductive result (E A : Type) : Type :=
| Ok (a : A)
| Err (e : E).
Arguments Ok {E A} a.
Arguments Err {E A} e.

Definition rbind {E A B} (r : result E A) (k : A -> result E B) : result E B :=
  match r with
  | Ok a => k a
  | Err e => Err e
  end.

Definition isOk {E A} (r : result E A) : bool :=
  match r with Ok _ => true | Err _ => false end.

Declare Scope result_scope.
Delimit Scope result_scope with result.
Notation "'let?' x ':=' r 'in' k" := (rbind r (fun x => k))
  (at level 10, x pattern, r at level 100, k at level 200,
   format "'[v' 'let?'  x  ':='  r  'in' '/' k ']'") : result_scope.

(** ** Bytes *)

Definition between (lo hi c : ascii) : bool := ((lo <=? c) && (c <=? hi))%char.

(** [c] is one of the bytes of [set]: a Go [switch c { case 'x', 'y', ...}]. *)
Fixpoint oneOf (c : ascii) (set : string) : bool :=
  match set with
  | "" => false
  | String d set' => (c =? d)%char || oneOf c set'
  end.

Definition isLetter (c : ascii) : bool := between "a" "z" c || between "A" "Z" c.
Definition isDigit (c : ascii) : bool := between "0" "9" c.

(** ** Package strings *)

Module GoStrings.

(** [s[:n]] and [s[n:]] (Go panics when [n > len(s)]; every call below is
    within range). *)
Fixpoint take (n : nat) (s : string) : string :=
  match n, s with
  | S n', String c s' => String c (take n' s')
  | _, _ => ""
  end.

Fixpoint drop (n : nat) (s : string) : string :=
  match n, s with
  | S n', String _ s' => drop n' s'
  | _, _ => s
  end.

Definition HasPrefix (s pre : string) : bool := String.prefix pre s.

Definition HasSuffix (s suf : string) : bool :=
  (String.length suf <=? String.length s)%nat &&
  String.eqb (drop (String.length s - String.length suf) s) suf.

(** Index of the first instance of [sep] in [s]; [None] is Go's -1. *)
Fixpoint Index (s sep : string) : option nat :=
  if String.prefix sep s then Some 0
  else match s with
       | "" => None
       | String _ s' => option_map S (Index s' sep)
       end.

(** Index of the last instance of [sep] in [s]; [None] is Go's -1. *)
Fixpoint LastIndex (s sep : string) : option nat :=
  match s with
  | "" => if String.prefix sep "" then Some 0 else None
  | String _ s' =>
      match LastIndex s' sep with
      | Some i => Some (S i)
      | None => if String.prefix sep s then Some 0 else None
      end
  end.

Definition Contains (s sep : string) : bool :=
  match Index s sep with Some _ => true | None => false end.

(** Number of instances of the one-byte separator [c] in [s]
    ([strings.Count(s, "?")]). *)
Fixpoint CountByte (s : string) (c : ascii) : nat :=
  match s with
  | "" => 0
  | String d s' => (if (d =? c)%char then 1 else 0) + CountByte s' c
  end.

Definition Cut (s sep : string) : string * string * bool :=
  match Index s sep with
  | Some i => (take i s, drop (i + String.length sep) s, true)
  | None => (s, "", false)
  end.

Definition TrimSuffix (s suf : string) : string :=
  if HasSuffix s suf then take (String.length s - String.length suf) s else s.

Definition lowerByte (c : ascii) : ascii :=
  if between "A" "Z" c then ascii_of_N (N_of_ascii c + 32) else c.

(** [strings.ToLower] on ASCII input (the only use is on a URL scheme,
    which consists of ASCII letters, digits, '+', '-' and '.'). *)
Fixpoint ToLower (s : string) : string :=
  match s with
  | "" => ""
  | String c s' => String (lowerByte c) (ToLower s')
  end.

End GoStrings.

(** ** Package regexp, for the pattern of extractURLsFromFile

    The pattern of the program (http, an optional s, ://, then one or more
    bytes that are neither white space nor a double quote) only needs
    literals, an optional character class and a repeated character class.  Go's engine returns
    the leftmost match and, among those, the one a backtracking search
    prefers: an optional item is tried present first, a repetition is tried
    longest first.  Character classes are predicates on bytes; bytes above
    0x7f belong to runes that are neither ASCII white space nor a quote, so
    matching bytewise gives the same extents as matching runes. *)

Module Regexp.

Inductive item : Type :=
| Lit (s : string)
| Opt (cls : ascii -> bool)
| Plus (cls : ascii -> bool).

Definition Regexp := list item.

(** Length of the longest prefix of [s] inside the class. *)
Fixpoint span (cls : ascii -> bool) (s : string) : nat :=
  match s with
  | String c s' => if cls c then S (span cls s') else 0
  | "" => 0
  end.

(** Tries [k (drop n s)] for n = hi, hi-1, ..., 1. *)
Fixpoint longestFirst (k : string -> option nat) (s : string) (hi : nat) : option nat :=
  match hi with
  | 0 => None
  | S hi' =>
      match k (GoStrings.drop hi s) with
      | Some m => Some (hi + m)
      | None => longestFirst k s hi'
      end
  end.

(** Length of the preferred match of [re] anchored at the start of [s]. *)
Fixpoint matchHere (re : Regexp) (s : string) : option nat :=
  match re with
  | [] => Some 0
  | Lit l :: re' =>
      if GoStrings.HasPrefix s l
      then option_map (Nat.add (String.length l))
                      (matchHere re' (GoStrings.drop (String.length l) s))
      else None
  | Opt cls :: re' =>
      let skip := matchHere re' s in
      match s with
      | String c s' =>
          if cls c then
            match matchHere re' s' with
            | Some m => Some (S m)
            | None => skip
            end
          else skip
      | "" => skip
      end
  | Plus cls :: re' => longestFirst (matchHere re') s (span cls s)
  end.

(** [findAll re skip s]: the successive non-overlapping matches in [s]; the
    first [skip] bytes belong to the previous match.  (A pattern that can
    match the empty string needs more care; the pattern used here
    cannot.) *)
Fixpoint findAll (re : Regexp) (skip : nat) (s : string) : list string :=
  match skip with
  | S skip' =>
      match s with
      | String _ s' => findAll re skip' s'
      | "" => []
      end
  | 0 =>
      match s with
      | "" => []
      | String _ s' =>
          match matchHere re s with
          | Some (S m) => GoStrings.take (S m) s :: findAll re m s'
          | _ => findAll re 0 s'
          end
      end
  end.

(** [re.FindAllString(s, -1)] *)
Definition FindAllString (re : Regexp) (s : string) : list string := findAll re 0 s.

(** [\s] of Go's regexp syntax: [\t\n\f\r ]. *)
Definition isSpace (c : ascii) : bool :=
  oneOf c (String "009" (String "010" (String "012" (String "013" " ")))).

End Regexp.

(** ** Package net/url

    The functions of Go's net/url that the program reaches through
    [url.Parse], [url.ParseRequestURI], [URL.Hostname] and
    [URL.String], transcribed function by function from the standard
    library (src/net/url/url.go, as of Go 1.22).  An error is a value of
    [parseError]; a nil [*Userinfo] is [None]. *)

Module NetURL.
Import GoStrings.

Inductive encoding : Set :=
| encodePath
| encodePathSegment
| encodeHost
| encodeZone
| encodeUserPassword
| encodeQueryComponent
| encodeFragment.

Definition eqMode (a b : encoding) : bool :=
  match a, b with
  | encodePath, encodePath
  | encodePathSegment, encodePathSegment
  | encodeHost, encodeHost
  | encodeZone, encodeZone
  | encodeUserPassword, encodeUserPassword
  | encodeQueryComponent, encodeQueryComponent
  | encodeFragment, encodeFragment => true
  | _, _ => false
  end.

(** The errors [parse] and its helpers return. *)
Inductive parseError : Type :=
| EscapeError (s : string)
| InvalidHostError (s : string)
| errInvalidControlCharacter
| errEmptyURL
| errMissingProtocolScheme
| errInvalidURIForRequest
| errFirstSegmentColon
| errMissingBracket
| errInvalidPort (colonPort : string)
| errInvalidUserinfo.

(** [url.Error]: the operation, the URL and the cause. *)
Record Error : Type := mkError {
  Error_Op : string;
  Error_URL : string;
  Error_Err : parseError
}.

Record Userinfo : Type := mkUserinfo {
  username : string;
  password : string;
  passwordSet : bool
}.

Record URL : Type := mkURL {
  Scheme : string;
  Opaque : string;
  User : option Userinfo;
  Host : string;
  Path : string;
  RawPath : string;
  OmitHost : bool;
  ForceQuery : bool;
  RawQuery : string;
  Fragment : string;
  RawFragment : string
}.

Definition ishex (c : ascii) : bool :=
  between "0" "9" c || between "a" "f" c || between "A" "F" c.

(** Go panics on a byte that is not a hexadecimal digit; every call is
    guarded by [ishex], and 0 stands for the panic. *)
Definition unhex (c : ascii) : N :=
  if between "0" "9" c then N_of_ascii c - N_of_ascii "0"
  else if between "a" "f" c then N_of_ascii c - N_of_ascii "a" + 10
  else if between "A" "F" c then N_of_ascii c - N_of_ascii "A" + 10
  else 0.

(** [unhex(a)<<4 | unhex(b)] *)
Definition hexByte (a b : ascii) : ascii := ascii_of_N (16 * unhex a + unhex b).

Definition quoteByte : ascii := "034".

(** The bytes a host may hold unescaped besides letters and digits. *)
Definition hostSubDelims : string := "!$&'()*+,;=:[]<>" +:+ String quoteByte "".

Definition shouldEscape (c : ascii) (mode : encoding) : bool :=
  if isLetter c || isDigit c then false
  else if (eqMode mode encodeHost || eqMode mode encodeZone) && oneOf c hostSubDelims
  then false
  else
    let otherwise :=
      if eqMode mode encodeFragment && oneOf c "!()*" then false else true in
    if oneOf c "-_.~" then false
    else if oneOf c "$&+,/:;=?@" then
      match mode with
      | encodePath => (c =? "?")%char
      | encodePathSegment => oneOf c "/;,?"
      | encodeUserPassword => oneOf c "@/?:"
      | encodeQueryComponent => true
      | encodeFragment => false
      | encodeHost | encodeZone => otherwise
      end
    else otherwise.

(** First loop of [unescape]: counts the escapes and checks that they are
    well formed; [n] and [hasPlus] are the loop's two variables. *)
Fixpoint unescapeScan (s : string) (mode : encoding) (n : nat) (hasPlus : bool)
  : result parseError (nat * bool) :=
  match s with
  | "" => Ok (n, hasPlus)
  | String c s1 =>
      if (c =? "%")%char then
        match s1 with
        | String h1 (String h2 s3) =>
            if negb (ishex h1) || negb (ishex h2) then Err (EscapeError (take 3 s))
            else if eqMode mode encodeHost && (unhex h1 <? 8)%N
                    && negb (String.eqb (take 3 s) "%25")
            then Err (EscapeError (take 3 s))
            else if eqMode mode encodeZone
                    && negb (String.eqb (take 3 s) "%25")
                    && negb (hexByte h1 h2 =? " ")%char
                    && shouldEscape (hexByte h1 h2) encodeHost
            then Err (EscapeError (take 3 s))
            else unescapeScan s3 mode (S n) hasPlus
        | _ => Err (EscapeError (take 3 s))
        end
      else if (c =? "+")%char then
        unescapeScan s1 mode n (eqMode mode encodeQueryComponent)
      else if (eqMode mode encodeHost || eqMode mode encodeZone)
              && (c <? "128")%char && shouldEscape c encodeHost
      then Err (InvalidHostError (String c ""))
      else unescapeScan s1 mode n hasPlus
  end.

(** Second loop of [unescape]: the decoded string (run only on a string
    the first loop accepted). *)
Fixpoint unescapeBuild (s : string) (mode : encoding) : string :=
  match s with
  | "" => ""
  | String c s1 =>
      if (c =? "%")%char then
        match s1 with
        | String h1 (String h2 s3) => String (hexByte h1 h2) (unescapeBuild s3 mode)
        | _ => ""
        end
      else if (c =? "+")%char then
        String (if eqMode mode encodeQueryComponent then " "%char else "+"%char)
               (unescapeBuild s1 mode)
      else String c (unescapeBuild s1 mode)
  end.

Definition unescape (s : string) (mode : encoding) : result parseError string :=
  (let? (n, hasPlus) := unescapeScan s mode 0 false in
   if (n =? 0)%nat && negb hasPlus then Ok s else Ok (unescapeBuild s mode))%result.

Definition upperhex : string := "0123456789ABCDEF".

Definition hexDigit (i : N) : ascii :=
  match String.get (N.to_nat i) upperhex with
  | Some d => d
  | None => "0"%char
  end.

(** Second loop of [escape]. *)
Fixpoint escapeBuild (s : string) (mode : encoding) : string :=
  match s with
  | "" => ""
  | String c s' =>
      if (c =? " ")%char && eqMode mode encodeQueryComponent
      then String "+" (escapeBuild s' mode)
      else if shouldEscape c mode
      then String "%" (String (hexDigit (N_of_ascii c / 16))
                      (String (hexDigit (N_of_ascii c mod 16)) (escapeBuild s' mode)))
      else String c (escapeBuild s' mode)
  end.

(** First loop of [escape]: [spaceCount + hexCount], which is zero exactly
    when no byte has to be escaped. *)
Fixpoint escapeCount (s : string) (mode : encoding) : nat :=
  match s with
  | "" => 0
  | String c s' => (if shouldEscape c mode then 1 else 0) + escapeCount s' mode
  end.

Definition escape (s : string) (mode : encoding) : string :=
  if (escapeCount s mode =? 0)%nat then s else escapeBuild s mode.

Fixpoint stringContainsCTLByte (s : string) : bool :=
  match s with
  | "" => false
  | String b s' => ((b <? " ") || (b =? "127"))%char || stringContainsCTLByte s'
  end.

(** The loop of [getScheme] at index [i], [s] being [rawURL[i:]]:
    [Ok (Some i)] when the scheme ends at the colon of index [i],
    [Ok None] when there is no scheme. *)
Fixpoint schemeEnd (i : nat) (s : string) : result parseError (option nat) :=
  match s with
  | "" => Ok None
  | String c s' =>
      if isLetter c then schemeEnd (S i) s'
      else if isDigit c || oneOf c "+-." then
        if (i =? 0)%nat then Ok None else schemeEnd (S i) s'
      else if (c =? ":")%char then
        if (i =? 0)%nat then Err errMissingProtocolScheme else Ok (Some i)
      else Ok None
  end.

Definition getScheme (rawURL : string) : result parseError (string * string) :=
  (let? e := schemeEnd 0 rawURL in
   match e with
   | Some i => Ok (take i rawURL, drop (i + 1) rawURL)
   | None => Ok ("", rawURL)
   end)%result.

(** The loop of [validOptionalPort] over [port[1:]]. *)
Fixpoint allDigits (s : string) : bool :=
  match s with
  | "" => true
  | String b s' => if (b <? "0")%char || ("9" <? b)%char then false else allDigits s'
  end.

Definition validOptionalPort (port : string) : bool :=
  match port with
  | "" => true
  | String c port' => if negb (c =? ":")%char then false else allDigits port'
  end.

(** The loop of [validUserinfo].  Go ranges over runes; a rune above 0x7f
    is rejected, and so is every byte of its encoding here. *)
Fixpoint validUserinfo (s : string) : bool :=
  match s with
  | "" => true
  | String r s' =>
      if isLetter r || isDigit r || oneOf r "-._:~!$&'()*+,;=%@"
      then validUserinfo s'
      else false
  end.

Definition parseHost (host : string) : result parseError string :=
  (let tail (_ : unit) := unescape host encodeHost in
   if HasPrefix host "[" then
     match LastIndex host "]" with
     | None => Err errMissingBracket
     | Some i =>
         let colonPort := drop (i + 1) host in
         if negb (validOptionalPort colonPort) then Err (errInvalidPort colonPort)
         else
           match Index (take i host) "%25" with
           | Some zone =>
               let? host1 := unescape (take zone host) encodeHost in
               let? host2 := unescape (drop zone (take i host)) encodeZone in
               let? host3 := unescape (drop i host) encodeHost in
               Ok (host1 +:+ host2 +:+ host3)
           | None => tail tt
           end
     end
   else
     match LastIndex host ":" with
     | Some i =>
         let colonPort := drop i host in
         if negb (validOptionalPort colonPort) then Err (errInvalidPort colonPort)
         else tail tt
     | None => tail tt
     end)%result.

Definition parseAuthority (authority : string)
  : result parseError (option Userinfo * string) :=
  (match LastIndex authority "@" with
   | None =>
       let? host := parseHost authority in
       Ok (None, host)
   | Some i =>
       let? host := parseHost (drop (i + 1) authority) in
       let userinfo := take i authority in
       if negb (validUserinfo userinfo) then Err errInvalidUserinfo
       else if negb (Contains userinfo ":") then
         let? userinfo := unescape userinfo encodeUserPassword in
         Ok (Some (mkUserinfo userinfo "" false), host)
       else
         let '(username, password, _) := Cut userinfo ":" in
         let? username := unescape username encodeUserPassword in
         let? password := unescape password encodeUserPassword in
         Ok (Some (mkUserinfo username password true), host)
   end)%result.

(** [new(URL)] *)
Definition zeroURL : URL := mkURL "" "" None "" "" "" false false "" "" "".

Definition setPath (u : URL) (p : string) : result parseError URL :=
  (let? path := unescape p encodePath in
   let rawPath := if String.eqb p (escape path encodePath) then "" else p in
   Ok (mkURL (Scheme u) (Opaque u) (User u) (Host u) path rawPath
             (OmitHost u) (ForceQuery u) (RawQuery u) (Fragment u) (RawFragment u)))%result.

Definition setFragment (u : URL) (f : string) : result parseError URL :=
  (let? frag := unescape f encodeFragment in
   let rawFragment := if String.eqb f (escape frag encodeFragment) then "" else f in
   Ok (mkURL (Scheme u) (Opaque u) (User u) (Host u) (Path u) (RawPath u)
             (OmitHost u) (ForceQuery u) (RawQuery u) frag rawFragment))%result.

Definition parse (rawURL : string) (viaRequest : bool) : result parseError URL :=
  (if stringContainsCTLByte rawURL then Err errInvalidControlCharacter
   else if String.eqb rawURL "" && viaRequest then Err errEmptyURL
   else if String.eqb rawURL "*"
   then Ok (mkURL "" "" None "" "*" "" false false "" "" "")
   else
     let? (scheme0, rest0) := getScheme rawURL in
     let scheme := ToLower scheme0 in
     let '(rest, rawQuery, forceQuery) :=
       if HasSuffix rest0 "?" && (CountByte rest0 "?" =? 1)%nat
       then (take (String.length rest0 - 1) rest0, "", true)
       else let '(before, after, _) := Cut rest0 "?" in (before, after, false) in
     let withAuthority (_ : unit) :=
       let? (user, host, rest1, omitHost) :=
         if (negb (String.eqb scheme "")
             || (negb viaRequest && negb (HasPrefix rest "///")))
            && HasPrefix rest "//"
         then
           let authority0 := drop 2 rest in
           let '(authority, rest1) :=
             match Index authority0 "/" with
             | Some i => (take i authority0, drop i authority0)
             | None => (authority0, "")
             end in
           let? (user, host) := parseAuthority authority in
           Ok (user, host, rest1, false)
         else if negb (String.eqb scheme "") && HasPrefix rest "/"
         then Ok (None, "", rest, true)
         else Ok (None, "", rest, false) in
       setPath (mkURL scheme "" user host "" "" omitHost forceQuery rawQuery "" "")
               rest1 in
     if negb (HasPrefix rest "/") then
       if negb (String.eqb scheme "")
       then Ok (mkURL scheme rest None "" "" "" false forceQuery rawQuery "" "")
       else if viaRequest then Err errInvalidURIForRequest
       else
         let '(segment, _, _) := Cut rest "/" in
         if Contains segment ":" then Err errFirstSegmentColon
         else withAuthority tt
     else withAuthority tt)%result.

Definition Parse (rawURL : string) : result Error URL :=
  let '(u, frag, _) := Cut rawURL "#" in
  match parse u false with
  | Err e => Err (mkError "parse" u e)
  | Ok url =>
      if String.eqb frag "" then Ok url
      else match setFragment url frag with
           | Err e => Err (mkError "parse" rawURL e)
           | Ok url' => Ok url'
           end
  end.

Definition ParseRequestURI (rawURL : string) : result Error URL :=
  match parse rawURL true with
  | Err e => Err (mkError "parse" rawURL e)
  | Ok url => Ok url
  end.

Definition splitHostPort (hostPort : string) : string * string :=
  let '(host, port) :=
    match LastIndex hostPort ":" with
    | Some colon =>
        if validOptionalPort (drop colon hostPort)
        then (take colon hostPort, drop (colon + 1) hostPort)
        else (hostPort, "")
    | None => (hostPort, "")
    end in
  if HasPrefix host "[" && HasSuffix host "]"
  then (drop 1 (take (String.length host - 1) host), port)
  else (host, port).

Definition Hostname (u : URL) : string := fst (splitHostPort (Host u)).

(** The loop of [validEncoded]. *)
Fixpoint validEncoded (s : string) (mode : encoding) : bool :=
  match s with
  | "" => true
  | String c s' =>
      if oneOf c "!$&'()*+,;=:@" || oneOf c "[]" || (c =? "%")%char
      then validEncoded s' mode
      else if shouldEscape c mode then false else validEncoded s' mode
  end.

Definition EscapedPath (u : URL) : string :=
  let fallback := if String.eqb (Path u) "*" then "*" else escape (Path u) encodePath in
  if negb (String.eqb (RawPath u) "") && validEncoded (RawPath u) encodePath then
    match unescape (RawPath u) encodePath with
    | Ok p => if String.eqb p (Path u) then RawPath u else fallback
    | Err _ => fallback
    end
  else fallback.

Definition EscapedFragment (u : URL) : string :=
  let fallback := escape (Fragment u) encodeFragment in
  if negb (String.eqb (RawFragment u) "") && validEncoded (RawFragment u) encodeFragment then
    match unescape (RawFragment u) encodeFragment with
    | Ok f => if String.eqb f (Fragment u) then RawFragment u else fallback
    | Err _ => fallback
    end
  else fallback.

(** [Userinfo.String] *)
Definition Userinfo_String (ui : Userinfo) : string :=
  let s := escape (username ui) encodeUserPassword in
  if passwordSet ui then s +:+ ":" +:+ escape (password ui) encodeUserPassword else s.

Definition isSome {A} (o : option A) : bool :=
  match o with Some _ => true | None => false end.

(** [URL.String]; [buf] is the string builder. *)
Definition String_ (u : URL) : string :=
  let buf := "" in
  let buf := if negb (String.eqb (Scheme u) "") then buf +:+ Scheme u +:+ ":" else buf in
  let buf :=
    if negb (String.eqb (Opaque u) "") then buf +:+ Opaque u
    else
      let buf :=
        if negb (String.eqb (Scheme u) "") || negb (String.eqb (Host u) "") || isSome (User u)
        then
          if OmitHost u && String.eqb (Host u) "" && negb (isSome (User u)) then buf
          else
            let buf :=
              if negb (String.eqb (Host u) "") || negb (String.eqb (Path u) "")
                 || isSome (User u)
              then buf +:+ "//" else buf in
            let buf :=
              match User u with
              | Some ui => buf +:+ Userinfo_String ui +:+ "@"
              | None => buf
              end in
            if negb (String.eqb (Host u) "") then buf +:+ escape (Host u) encodeHost
            else buf
        else buf in
      let path := EscapedPath u in
      let buf :=
        if negb (String.eqb path "") && negb (HasPrefix path "/")
           && negb (String.eqb (Host u) "")
        then buf +:+ "/" else buf in
      let buf :=
        if (String.length buf =? 0)%nat then
          let '(segment, _, _) := Cut path "/" in
          if Contains segment ":" then buf +:+ "./" else buf
        else buf in
      buf +:+ path in
  let buf :=
    if ForceQuery u || negb (String.eqb (RawQuery u) "")
    then buf +:+ "?" +:+ RawQuery u else buf in
  if negb (String.eqb (Fragment u) "")
  then buf +:+ "#" +:+ EscapedFragment u else buf.

End NetURL.

(** ** The run-time environment: log, files, process exit *)

Local Open Scope list_scope.

Definition newline : string := String "010" "".

(** One visit of [filepath.Walk]: the arguments its callback receives. *)
Record WalkEntry : Type := mkWalkEntry {
  walk_path : string;
  walk_isDir : bool;
  walk_err : option string
}.

(** What a [bufio.Scanner] over an opened file delivers: the lines that
    [Scan]/[Text] yield, then the result of [Err]. *)
Record Scanned : Type := mkScanned {
  scan_lines : list string;
  scan_err : option string
}.

(** The world the process runs in.  [os_getwd], [os_walk], [os_open],
    [os_createErr] and [os_quota] are the operating system's answers;
    [os_disk] holds the files the process has written and [os_log] what it
    has logged (each entry is the text handed to package log, before log
    adds its header and final newline). *)
Record World : Type := mkWorld {
  os_getwd : result string string;
  os_walk : string -> list WalkEntry;
  os_open : string -> result string Scanned;
  os_createErr : string -> option string;
  os_quota : option nat;
  os_disk : gmap string string;
  os_log : list string
}.

(** A call either returns or ends the process ([os.Exit]). *)
Inductive outcome (A : Type) : Type :=
| Return (a : A)
| Exit (code : nat).
Arguments Return {A} a.
Arguments Exit {A} code.

Definition Proc (A : Type) : Type := World -> outcome A * World.

Definition ret {A} (a : A) : Proc A := fun w => (Return a, w).

Definition bind {A B} (m : Proc A) (k : A -> Proc B) : Proc B :=
  fun w =>
    match m w with
    | (Return a, w') => k a w'
    | (Exit c, w') => (Exit c, w')
    end.

Declare Scope proc_scope.
Delimit Scope proc_scope with proc.
Notation "'let!' x ':=' m 'in' k" := (bind m (fun x => k))
  (at level 10, x pattern, m at level 100, k at level 200,
   format "'[v' 'let!'  x  ':='  m  'in' '/' k ']'") : proc_scope.
Notation "m ';;;' k" := (bind m (fun _ => k))
  (at level 100, k at level 200, right associativity) : proc_scope.

Definition setLog (w : World) (l : list string) : World :=
  mkWorld (os_getwd w) (os_walk w) (os_open w) (os_createErr w) (os_quota w)
          (os_disk w) l.

Definition setDisk (w : World) (d : gmap string string) : World :=
  mkWorld (os_getwd w) (os_walk w) (os_open w) (os_createErr w) (os_quota w)
          d (os_log w).

(** [log.Printf], [log.Println]: [msg] is the formatted text. *)
Definition logPrint (msg : string) : Proc unit :=
  fun w => (Return tt, setLog w (os_log w ++ [msg])).

(** [log.Fatalf], [log.Fatalln]: print, then [os.Exit(1)]. *)
Definition logFatal {A} (msg : string) : Proc A :=
  fun w => (Exit 1, setLog w (os_log w ++ [msg])).

(** A [for _, x := range xs] loop whose body updates the loop state [s]. *)
Fixpoint forRange {A S} (xs : list A) (body : A -> S -> Proc S) (s : S) : Proc S :=
  match xs with
  | [] => ret s
  | x :: xs' => bind (body x s) (forRange xs' body)
  end.

(** *** bufio.Writer over an os.File *)

Definition defaultBufSize : nat := 4096.

Definition fileContent (w : World) (name : string) : string :=
  default "" (os_disk w !! name).

(** [File.Write]: the bytes are appended; a file that would exceed
    the quota takes the bytes that fit and the write fails.  Returns the
    number of bytes written and the error. *)
Definition fileWrite (name data : string) (w : World) : nat * option string * World :=
  let old := fileContent w name in
  match os_quota w with
  | Some q =>
      if (String.length old + String.length data <=? q)%nat
      then (String.length data, None, setDisk w (<[name := old +:+ data]> (os_disk w)))
      else
        let n := q - String.length old in
        (n, Some "no space left on device",
         setDisk w (<[name := old +:+ GoStrings.take n data]> (os_disk w)))
  | None => (String.length data, None, setDisk w (<[name := old +:+ data]> (os_disk w)))
  end.

(** [os.Create]: the file is created or truncated. *)
Definition osCreate (name : string) (w : World) : option string * World :=
  match os_createErr w name with
  | Some e => (Some e, w)
  | None => (None, setDisk w (<[name := ""]> (os_disk w)))
  end.

(** A [bufio.Writer]: the file it writes to, the buffered bytes and the
    sticky error. *)
Record Writer : Type := mkWriter {
  wr_file : string;
  wr_buf : string;
  wr_err : option string
}.

Definition NewWriter (name : string) : Writer := mkWriter name "" None.

Definition Available (b : Writer) : nat := defaultBufSize - String.length (wr_buf b).

Definition Flush (b : Writer) (w : World) : option string * Writer * World :=
  match wr_err b with
  | Some e => (Some e, b, w)
  | None =>
      if (String.length (wr_buf b) =? 0)%nat then (None, b, w)
      else
        match fileWrite (wr_file b) (wr_buf b) w with
        | (n, Some e, w') =>
            (Some e, mkWriter (wr_file b) (GoStrings.drop n (wr_buf b)) (Some e), w')
        | (n, None, w') =>
            if (n <? String.length (wr_buf b))%nat
            then (Some "short write",
                  mkWriter (wr_file b) (GoStrings.drop n (wr_buf b)) (Some "short write"),
                  w')
            else (None, mkWriter (wr_file b) "" None, w')
        end
  end.

(** One round of the loop of [WriteString], entered when [s] does not fit
    the buffer and no error is pending: an empty buffer forwards the whole
    string to the file, otherwise the buffer is filled and flushed. *)
Definition writeRound (b : Writer) (s : string) (w : World) : string * Writer * World :=
  if (String.length (wr_buf b) =? 0)%nat then
    match fileWrite (wr_file b) s w with
    | (n, e, w') => (GoStrings.drop n s, mkWriter (wr_file b) (wr_buf b) e, w')
    end
  else
    let n := Available b in
    let b1 := mkWriter (wr_file b) (wr_buf b +:+ GoStrings.take n s) (wr_err b) in
    match Flush b1 w with
    | (_, b2, w') => (GoStrings.drop n s, b2, w')
    end.

Definition needsRound (b : Writer) (s : string) : bool :=
  (Available b <? String.length s)%nat && negb (NetURL.isSome (wr_err b)).

(** [Writer.WriteString].  The loop runs at most twice: after a round
    that filled and flushed the buffer, the buffer is empty or an error is
    pending, and a round on an empty buffer consumes the whole string. *)
Definition WriteString (b : Writer) (s : string) (w : World) : option string * Writer * World :=
  let '(s, b, w) :=
    if needsRound b s then
      let '(s1, b1, w1) := writeRound b s w in
      if needsRound b1 s1 then writeRound b1 s1 w1 else (s1, b1, w1)
    else (s, b, w) in
  match wr_err b with
  | Some e => (Some e, b, w)
  | None => (None, mkWriter (wr_file b) (wr_buf b +:+ s) None, w)
  end.

(** *** path/filepath.Ext *)

Fixpoint reverse (s : string) : string :=
  match s with
  | "" => ""
  | String c s' => reverse s' +:+ String c ""
  end.

(** The loop of [Ext], from the last byte backwards: [r] is the reversed
    path and [k] the number of bytes already passed. *)
Fixpoint extLoop (r : string) (k : nat) : option nat :=
  match r with
  | "" => None
  | String c r' =>
      if (c =? "/")%char then None
      else if (c =? ".")%char then Some k
      else extLoop r' (S k)
  end.

Definition Ext (path : string) : string :=
  match extLoop (reverse path) 0 with
  | Some k => GoStrings.drop (String.length path - 1 - k) path
  | None => ""
  end.

(** ** The program: functions shared by src/main.go and src/unnamed/part_000 *)

(** The compiled pattern of extractURLsFromFile: http, an optional s,
    ://, then one or more bytes outside white space and the double quote. *)
Definition re : Regexp.Regexp :=
  [ Regexp.Lit "http";
    Regexp.Opt (fun c => (c =? "s")%char);
    Regexp.Lit "://";
    Regexp.Plus (fun c => negb (Regexp.isSpace c || (c =? NetURL.quoteByte)%char)) ].

(** Body of the loop over the matches of one line. *)
Definition extractMatch (match_ : string) (urls : list string) : Proc (list string) :=
  match NetURL.ParseRequestURI match_ with
  | Err _ =>
      (logPrint ("Invalid URL skipped: " +:+ match_ +:+ newline) ;;;
       ret urls)%proc
  | Ok parsedURL => ret (urls ++ [NetURL.String_ parsedURL])
  end.

(** Body of the loop over the lines of the file. *)
Definition extractLine (line : string) (urls : list string) : Proc (list string) :=
  let matches := Regexp.FindAllString re line in
  forRange matches extractMatch urls.

Definition extractURLsFromFile (fileName : string) : Proc (result string (list string)) :=
  fun w =>
    match os_open w fileName with
    | Err err =>
        ret (Err ("could not open file " +:+ fileName +:+ ": " +:+ err)) w
    | Ok scanner =>
        (let! urls := forRange (scan_lines scanner) extractLine [] in
         match scan_err scanner with
         | Some err => ret (Err ("error reading file " +:+ fileName +:+ ": " +:+ err))
         | None => ret (Ok urls)
         end)%proc w
    end.

(** The callback of [filepath.Walk] applied to the successive visits; the
    walk stops at the first error the callback returns. *)
Fixpoint walkLoop (visits : list WalkEntry) (tsvFiles : list string)
  : list string * option string :=
  match visits with
  | [] => (tsvFiles, None)
  | v :: visits' =>
      match walk_err v with
      | Some err => (tsvFiles, Some err)
      | None =>
          if negb (walk_isDir v) && String.eqb (Ext (walk_path v)) ".tsv"
          then walkLoop visits' (tsvFiles ++ [walk_path v])
          else walkLoop visits' tsvFiles
      end
  end.

Definition listTSVFiles : Proc (list string * option string) :=
  fun w =>
    match os_getwd w with
    | Err err => ret ([], Some ("could not get current working directory: " +:+ err)) w
    | Ok currentDir => ret (walkLoop (os_walk w currentDir) []) w
    end.

(** The loop of saveURLsToFile; it returns at the first failed write. *)
Fixpoint saveLoop (urls : list string) (writer : Writer) (w : World)
  : option string * Writer * World :=
  match urls with
  | [] => (None, writer, w)
  | url :: urls' =>
      match WriteString writer (url +:+ newline) w with
      | (Some err, writer', w') =>
          (Some ("error writing to output file: " +:+ err), writer', w')
      | (None, writer', w') => saveLoop urls' writer' w'
      end
  end.

Definition saveURLsToFile (urls : list string) (outputFile : string) : Proc (option string) :=
  fun w =>
    match osCreate outputFile w with
    | (Some err, w0) =>
        (Return (Some ("could not create output file " +:+ outputFile +:+ ": " +:+ err)), w0)
    | (None, w0) =>
        let writer := NewWriter outputFile in
        match saveLoop urls writer w0 with
        | (Some err, _, w1) => (Return (Some err), w1)
        | (None, writer', w1) =>
            match Flush writer' w1 with
            | (err, _, w2) => (Return err, w2)
            end
        end
    end.

(** The loop of removeDuplicatesFromSlice.  A Go map yields the zero
    value [false] for a key it does not hold. *)
Fixpoint removeDuplicatesLoop (slice : list string) (check : gmap string bool)
    (newReturnSlice : list string) : list string :=
  match slice with
  | [] => newReturnSlice
  | content :: slice' =>
      if negb (default false (check !! content))
      then removeDuplicatesLoop slice' (<[content := true]> check)
                                (newReturnSlice ++ [content])
      else removeDuplicatesLoop slice' check newReturnSlice
  end.

Definition removeDuplicatesFromSlice (slice : list string) : list string :=
  removeDuplicatesLoop slice ∅ [].

Definition isUrlValid (uri : string) : bool := isOk (NetURL.ParseRequestURI uri).

(** The text [log.Fatalln(err)] prints for a [url.Error]: operation, quoted
    URL and cause.  Only that it is printed matters below; the quoting of
    [%q] and the texts of the causes are left out. *)
Definition errorText (e : NetURL.Error) : string :=
  NetURL.Error_Op e +:+ " " +:+ NetURL.Error_URL e.

Definition getHostNameFromURL (uri : string) : Proc string :=
  match NetURL.Parse uri with
  | Err err => logFatal (errorText err +:+ newline)
  | Ok content => ret (NetURL.Hostname content)
  end.

Definition validDomains : list string :=
  [ "s3.documentcloud.org"; "documentcloud.org"; "www.documentcloud.org";
    "beta.documentcloud.org" ].

(** The loop of cleanURLs over the allowed domains, with its [break]. *)
Fixpoint domainLoop (hostName : string) (domains : list string) (isValid : bool) : bool :=
  match domains with
  | [] => isValid
  | domain :: domains' =>
      if String.eqb hostName domain then true
      else domainLoop hostName domains' isValid
  end.

(** ** src/main.go *)

Module MainGo.

Definition unwantedSuffix : string := "target=&quot;_blank&quot;".

(** Body of the loop of cleanURLs. *)
Definition cleanURL (content : string) (newReturnSlice : list string) : Proc (list string) :=
  (if isUrlValid content then
     let! hostName := getHostNameFromURL content in
     let content := GoStrings.TrimSuffix content unwantedSuffix in
     let isValid := domainLoop hostName validDomains false in
     if isValid then ret (newReturnSlice ++ [content])
     else
       logPrint ("Invalid domain skipped:  " +:+ hostName +:+ newline) ;;;
       ret newReturnSlice
   else ret newReturnSlice)%proc.

Definition cleanURLs (urls : list string) : Proc (list string) :=
  forRange urls cleanURL [].

(** Body of the loop of main over the .tsv files. *)
Definition extractFile (fileName : string) (allURLs : list string) : Proc (list string) :=
  (logPrint ("Extracting URLs from file: " +:+ fileName) ;;;
   let! r := extractURLsFromFile fileName in
   match r with
   | Err err =>
       logPrint ("Error extracting URLs from file " +:+ fileName +:+ ": " +:+ err) ;;;
       ret allURLs
   | Ok urls => ret (allURLs ++ urls)
   end)%proc.

Definition main : Proc unit :=
  (let! (tsvFiles, err) := listTSVFiles in
   match err with
   | Some err => logFatal ("Error listing TSV files: " +:+ err)
   | None =>
       if (length tsvFiles =? 0)%nat then
         logPrint ("No .tsv files found in the current directory or its subdirectories."
                   +:+ newline)
       else
         let! allURLs := forRange tsvFiles extractFile [] in
         let allURLs := removeDuplicatesFromSlice allURLs in
         let! allURLs := cleanURLs allURLs in
         let outputFile := "extracted_urls.txt" in
         let! err := saveURLsToFile allURLs outputFile in
         match err with
         | Some err => logPrint ("Error saving URLs to file: " +:+ err)
         | None => logPrint ("Successfully saved URLs to " +:+ outputFile)
         end
   end)%proc.

End MainGo.

(** ** src/unnamed/part_000 *)

Module Part000.

(** Body of the loop of cleanURLs. *)
Definition cleanURL (content : string) (newReturnSlice : list string) : Proc (list string) :=
  (if isUrlValid content then
     let! hostName := getHostNameFromURL content in
     let isValid := domainLoop hostName validDomains false in
     if isValid then ret (newReturnSlice ++ [content])
     else
       logPrint ("Invalid domain skipped:  " +:+ hostName +:+ newline) ;;;
       ret newReturnSlice
   else ret newReturnSlice)%proc.

Definition cleanURLs (urls : list string) : Proc (list string) :=
  forRange urls cleanURL [].

Fixpoint appendQuotesToString (content : list string) : list string :=
  match content with
  | [] => []
  | str :: content' =>
      (String NetURL.quoteByte str +:+ String NetURL.quoteByte ",")
        :: appendQuotesToString content'
  end.

(** Body of the loop of main over the .tsv files. *)
Definition extractFile (fileName : string) (allURLs : list string) : Proc (list string) :=
  (logPrint ("Extracting URLs from file: " +:+ fileName) ;;;
   let! r := extractURLsFromFile fileName in
   match r with
   | Err err =>
       logPrint ("Error extracting URLs from file " +:+ fileName +:+ ": " +:+ err) ;;;
       ret allURLs
   | Ok urls => ret (allURLs ++ urls)
   end)%proc.

Definition main : Proc unit :=
  (let! (tsvFiles, err) := listTSVFiles in
   match err with
   | Some err => logFatal ("Error listing TSV files: " +:+ err)
   | None =>
       if (length tsvFiles =? 0)%nat then
         logPrint ("No .tsv files found in the current directory or its subdirectories."
                   +:+ newline)
       else
         let! allURLs := forRange tsvFiles extractFile [] in
         let allURLs := removeDuplicatesFromSlice allURLs in
         let! allURLs := cleanURLs allURLs in
         let allURLs := appendQuotesToString allURLs in
         let outputFile := "extracted_urls.txt" in
         let! err := saveURLsToFile allURLs outputFile in
         match err with
         | Some err => logPrint ("Error saving URLs to file: " +:+ err)
         | None => logPrint ("Successfully saved URLs to " +:+ outputFile)
         end
   end)%proc.

End Part000.

(** The exit status of the process when [main] is run in world [w]: 0 when
    [main] returns, the argument of [os.Exit] otherwise. *)
Definition exitStatus (main : Proc unit) (w : World) : nat :=
  match fst (main w) with
  | Return _ => 0
  | Exit code => code
  end.

(** ** Notions used to state and to prove the properties *)

Section Notions.

Import GoStrings NetURL.

(** *** Deduplication *)

(** The positions of a sequence that hold a first occurrence, and the
    subsequence they select: the specification's reading of
    deduplication. *)
Definition isFirstAt (xs : list string) (i : nat) : option string :=
  match xs !! i with
  | Some x => if bool_decide (x ∈ List.firstn i xs) then None else Some x
  | None => None
  end.

Definition firstOccurrences (xs : list string) : list string :=
  omap (isFirstAt xs) (seq 0 (length xs)).

(** The elements of [xs] not met before, [seen] being those met so far. *)
Fixpoint freshOf (seen : list string) (xs : list string) : list string :=
  match xs with
  | [] => []
  | x :: xs' =>
      if bool_decide (x ∈ seen) then freshOf seen xs' else x :: freshOf (x :: seen) xs'
  end.

(** The map [check] of removeDuplicatesFromSlice marks exactly the strings
    of [seen]. *)
Definition tracks (check : gmap string bool) (seen : list string) : Prop :=
  ∀ x, default false (check !! x) = true ↔ x ∈ seen.

(** *** Extraction *)

(** The candidates of the lines of a file. *)
Definition candidatesOf (lines : list string) : list string :=
  concat (map (Regexp.FindAllString re) lines).

(** The candidates that parse, re-serialized, and the log lines of those
    that do not. *)
Definition keptOf (candidates : list string) : list string :=
  omap (λ m, match ParseRequestURI m with
             | Ok u => Some (String_ u)
             | Err _ => None
             end) candidates.

Definition skippedOf (candidates : list string) : list string :=
  omap (λ m, match ParseRequestURI m with
             | Ok _ => None
             | Err _ => Some ("Invalid URL skipped: " +:+ m +:+ newline)
             end) candidates.

(** *** Output *)

(** The bytes saveURLsToFile is to write: each string, then a newline. *)
Fixpoint linesOf (urls : list string) : string :=
  match urls with
  | [] => ""
  | url :: urls' => (url +:+ newline) +:+ linesOf urls'
  end.

(** Modelled from the spec: the reading back of the output file, which the
    repository does not contain.  The content is split at the newline
    bytes, each of which ends a line; bytes after the last newline form a
    last line. *)
Fixpoint splitLines (content : string) : list string :=
  match content with
  | "" => []
  | String c content' =>
      if (c =? "010")%char then "" :: splitLines content'
      else match splitLines content' with
           | [] => [String c ""]
           | line :: lines => String c line :: lines
           end
  end.

Definition hasNewline (s : string) : bool := Contains s newline.

(** What a writer has accepted: the bytes in the file, then the buffer. *)
Definition accepted (b : Writer) (w : World) : string :=
  fileContent w (wr_file b) +:+ wr_buf b.

Definition noFilesMessage : string :=
  "No .tsv files found in the current directory or its subdirectories." +:+ newline.

(** *** One-byte separators *)

(** Index of the first byte [c]: what [Index] computes for a one-byte
    separator. *)
Fixpoint indexByte (c : ascii) (s : string) : option nat :=
  match s with
  | "" => None
  | String d s' => if (d =? c)%char then Some 0 else option_map S (indexByte c s')
  end.

(** Index of the last byte [c]: what [LastIndex] computes for a one-byte
    separator. *)
Fixpoint lastIndexByte (c : ascii) (s : string) : option nat :=
  match s with
  | "" => None
  | String d s' =>
      match lastIndexByte c s' with
      | Some i => Some (S i)
      | None => if (d =? c)%char then Some 0 else None
      end
  end.

Fixpoint lastByte (s : string) : option ascii :=
  match s with
  | "" => None
  | String d s' => match lastByte s' with Some e => Some e | None => Some d end
  end.

(** *** The steps of parse *)

(** The steps of [parse], named so that they can be reasoned about one at
    a time (lemma [parse_unfold]): the split of the query, the authority,
    and everything after the split of the query. *)
Definition splitQuery (rest0 : string) : string * string * bool :=
  if HasSuffix rest0 "?" && (CountByte rest0 "?" =? 1)%nat
  then (take (String.length rest0 - 1) rest0, "", true)
  else let '(before, after, _) := Cut rest0 "?" in (before, after, false).

Definition splitAuthority (authority0 : string) : string * string :=
  match Index authority0 "/" with
  | Some i => (take i authority0, drop i authority0)
  | None => (authority0, "")
  end.

Definition hasAuthority (scheme rest : string) (viaRequest : bool) : bool :=
  (negb (String.eqb scheme "") || (negb viaRequest && negb (HasPrefix rest "///")))
  && HasPrefix rest "//".

Definition parseAuthorityStep (scheme rest : string) (viaRequest : bool)
  : result parseError (option Userinfo * string * string * bool) :=
  (if hasAuthority scheme rest viaRequest then
     let '(authority, rest1) := splitAuthority (drop 2 rest) in
     let? (user, host) := parseAuthority authority in
     Ok (user, host, rest1, false)
   else if negb (String.eqb scheme "") && HasPrefix rest "/"
   then Ok (None, "", rest, true)
   else Ok (None, "", rest, false))%result.

Definition parseWithAuthority (scheme rest rawQuery : string) (forceQuery viaRequest : bool)
  : result parseError URL :=
  (let? (user, host, rest1, omitHost) := parseAuthorityStep scheme rest viaRequest in
   setPath (mkURL scheme "" user host "" "" omitHost forceQuery rawQuery "" "") rest1)%result.

Definition parseTail (scheme rest rawQuery : string) (forceQuery viaRequest : bool)
  : result parseError URL :=
  if negb (HasPrefix rest "/") then
    if negb (String.eqb scheme "")
    then Ok (mkURL scheme rest None "" "" "" false forceQuery rawQuery "" "")
    else if viaRequest then Err errInvalidURIForRequest
    else
      let '(segment, _, _) := Cut rest "/" in
      if Contains segment ":" then Err errFirstSegmentColon
      else parseWithAuthority scheme rest rawQuery forceQuery viaRequest
  else parseWithAuthority scheme rest rawQuery forceQuery viaRequest.

(** *** The domain filter *)

(** The loop body of cleanURLs, with the treatment of the kept string as
    a parameter: [TrimSuffix] in src/main.go, nothing in
    src/unnamed/part_000 (lemmas [MainGo_cleanURL], [Part000_cleanURL]). *)
Definition cleanURLWith (strip : string → string)
    (content : string) (newReturnSlice : list string) : Proc (list string) :=
  (if isUrlValid content then
     let! hostName := getHostNameFromURL content in
     let content := strip content in
     let isValid := domainLoop hostName validDomains false in
     if isValid then ret (newReturnSlice ++ [content])
     else
       logPrint ("Invalid domain skipped:  " +:+ hostName +:+ newline) ;;;
       ret newReturnSlice
   else ret newReturnSlice)%proc.

Definition stripSuffix (s : string) : string := TrimSuffix s MainGo.unwantedSuffix.

(** What the loop body keeps of one string, when it returns. *)
Definition keepWith (strip : string → string) (s : string) : option string :=
  if isUrlValid s then
    match Parse s with
    | Ok u => if domainLoop (Hostname u) validDomains false then Some (strip s) else None
    | Err _ => None
    end
  else None.

(** The strings on which the loop body does not end the process. *)
Definition survives (s : string) : bool :=
  negb (isUrlValid s) || isOk (Parse s).

(** *** Inputs of the examples *)

(** The line of the specification's extraction scenario; its third URL
    follows a double quote. *)
Definition scenarioLine : string :=
  "see https://www.documentcloud.org/docs/123.pdf and https://evil.example.com/x "
  +:+ String quoteByte "https://s3.documentcloud.org/y".

(** A world whose walk meets one directory and one file that is not a
    .tsv file; nothing has been written or logged. *)
Definition emptyWorld : World :=
  mkWorld (Ok "/data")
          (λ _, [mkWalkEntry "/data" true None; mkWalkEntry "/data/notes.txt" false None])
          (λ _, Err "no such file or directory")
          (λ _, None) None ∅ [].

Definition twoURLs : list string :=
  [ "https://www.documentcloud.org/docs/123.pdf"; "https://s3.documentcloud.org/y" ].

(** A string with a newline inside. *)
Definition twoLineString : string := "a" +:+ newline +:+ "b".

Definition mixedURLs : list string :=
  [ "https://www.documentcloud.org/docs/123.pdf";
    "https://evil.example.com/x";
    "https://documentcloud.org/ytarget=&quot;_blank&quot;" ].

Definition suffixedURL : string := "https://documentcloud.org/ytarget=&quot;_blank&quot;".

(** A string whose host ends with the suffix: the check sees the long host
    and drops the string, although the stripped string has an allowed
    host. *)
Definition suffixedHostURL : string := "https://documentcloud.orgtarget=&quot;_blank&quot;".

(** A URL whose query holds a fragment separator followed by a malformed
    escape: ParseRequestURI keeps the query as it is, url.Parse splits the
    fragment off and rejects its escape. *)
Definition fragmentURL : string := "http://documentcloud.org/?#%zz".

(** A world with one .tsv file, whose only line holds [fragmentURL]. *)
Definition fragmentWorld : World :=
  mkWorld (Ok "/data")
          (λ _, [mkWalkEntry "/data" true None; mkWalkEntry "/data/docs.tsv" false None])
          (λ _, Ok (mkScanned ["1" +:+ String "009" fragmentURL] None))
          (λ _, None) None ∅ [].

Definition portURL : string := "https://documentcloud.org:8443/x".

End Notions.

Section MoreNotions1.
Import GoStrings NetURL.

(** *** File discovery *)

(** The visits a walk delivers before its first error, and that error. *)
Fixpoint beforeError (visits : list WalkEntry) : list WalkEntry :=
  match visits with
  | [] => []
  | v :: visits' =>
      match walk_err v with
      | Some _ => []
      | None => v :: beforeError visits'
      end
  end.

Fixpoint firstError (visits : list WalkEntry) : option string :=
  match visits with
  | [] => None
  | v :: visits' =>
      match walk_err v with
      | Some err => Some err
      | None => firstError visits'
      end
  end.

(** A visit of something that is not a directory and whose path ends
    with the five bytes of the extension. *)
Definition isTSVFile (v : WalkEntry) : bool :=
  negb (walk_isDir v) && HasSuffix (walk_path v) ".tsv".

(** A world whose walk finds one .tsv file and then fails. *)
Definition brokenWorld : World :=
  mkWorld (Ok "/data")
          (λ _, [mkWalkEntry "/data" true None;
                 mkWalkEntry "/data/a.tsv" false None;
                 mkWalkEntry "/data/private" true (Some "permission denied");
                 mkWalkEntry "/data/z.tsv" false None])
          (λ _, Ok (mkScanned [] None))
          (λ _, None) None ∅ [].

End MoreNotions1.

Section MoreNotions2.
Import GoStrings NetURL.

(** *** Writing under a quota *)

(** What the system calls of saveURLsToFile leave alone: the answers of
    the operating system, the log, the files other than [f]; and the file
    [f] stays within the quota once it is. *)
Definition sameOracles (w w' : World) : Prop :=
  os_getwd w' = os_getwd w ∧ os_walk w' = os_walk w ∧ os_open w' = os_open w
  ∧ os_createErr w' = os_createErr w ∧ os_quota w' = os_quota w.

Definition writesOnly (f : string) (w w' : World) : Prop :=
  sameOracles w w'
  ∧ os_log w' = os_log w
  ∧ (∀ g, g ≠ f → os_disk w' !! g = os_disk w !! g)
  ∧ (∀ q, os_quota w = Some q →
          (String.length (fileContent w f) ≤ q)%nat →
          (String.length (fileContent w' f) ≤ q)%nat).

(** [n] bytes fit the quota of the world. *)
Definition withinQuota (w : World) (n : nat) : Prop :=
  match os_quota w with
  | Some q => (n ≤ q)%nat
  | None => True
  end.

(** A world whose device takes forty bytes. *)
Definition smallWorld : World :=
  mkWorld (Ok "/data") (λ _, []) (λ _, Err "no such file or directory")
          (λ _, None) (Some 40) ∅ [].

End MoreNotions2.

Section MoreNotions3.
Import GoStrings NetURL.

(** *** The domain filter as a selection *)

(** The test of the loop body of cleanURLs: the string passes isUrlValid,
    url.Parse accepts it and its host name is an allowed one. *)
Definition wanted (s : string) : bool :=
  isUrlValid s &&
  match Parse s with
  | Ok u => domainLoop (Hostname u) validDomains false
  | Err _ => false
  end.

(** Two strings that differ only by the unwanted suffix. *)
Definition twinURLs : list string :=
  [ "https://documentcloud.org/y";
    "https://documentcloud.org/ytarget=&quot;_blank&quot;" ].

(** A world with one .tsv file whose two lines hold the two strings. *)
Definition twinWorld : World :=
  mkWorld (Ok "/data")
          (λ _, [mkWalkEntry "/data/docs.tsv" false None])
          (λ _, Ok (mkScanned twinURLs None))
          (λ _, None) None ∅ [].

End MoreNotions3.

Section MoreNotions4.
Import GoStrings.

(** *** The matches of the pattern *)

(** The class of the repeated item of the pattern: neither white space
    nor the double quote. *)
Definition urlByte (c : ascii) : bool :=
  negb (Regexp.isSpace c || (c =? NetURL.quoteByte)%char).

Fixpoint allBytes (P : ascii → bool) (s : string) : bool :=
  match s with
  | "" => true
  | String c s' => P c && allBytes P s'
  end.

(** [rest] does not continue a run of bytes of the class. *)
Definition stopsAt (rest : string) : Prop :=
  match rest with
  | "" => True
  | String c _ => urlByte c = false
  end.

(** [m] is what the pattern denotes: http:// or https:// and a non-empty
    run of bytes of the class. *)
Definition isCandidate (m : string) : Prop :=
  ∃ body, (m = "http://" +:+ body ∨ m = "https://" +:+ body)
          ∧ body ≠ "" ∧ allBytes urlByte body = true.

(** [m] is the longest candidate at the start of [s]. *)
Definition candidateAt (s m : string) : Prop :=
  isCandidate m ∧ ∃ rest, s = m +:+ rest ∧ stopsAt rest.

(** [leftmost s ms]: [ms] are the candidates met when reading [s] from
    left to right, each the longest one at the first position where a
    candidate starts after the end of the one before. *)
Inductive leftmost : string → list string → Prop :=
| leftmost_none s :
    (∀ i m, ¬ candidateAt (drop i s) m) → leftmost s []
| leftmost_match g m rest ms :
    (∀ i m', (i < String.length g)%nat → ¬ candidateAt (drop i (g +:+ m +:+ rest)) m') →
    candidateAt (m +:+ rest) m →
    leftmost rest ms →
    leftmost (g +:+ m +:+ rest) (m :: ms).

End MoreNotions4.

Section MoreNotions5.
Import GoStrings NetURL.

(** *** The run of main *)

(** A call that leaves the files alone and only adds to the log. *)
Definition logsOnly (w w' : World) : Prop :=
  sameOracles w w' ∧ os_disk w' = os_disk w ∧ os_log w `prefix_of` os_log w'.

(** What the loop of main collects from the files: the kept candidates of
    every file that opens and is read to its end, in the order of the
    files. *)
Definition collectedFrom (w : World) (files : list string) : list string :=
  concat (map (λ fileName,
                 match os_open w fileName with
                 | Ok scanner =>
                     match scan_err scanner with
                     | None => keptOf (candidatesOf (scan_lines scanner))
                     | Some _ => []
                     end
                 | Err _ => []
                 end) files).

(** The strings main hands to cleanURLs. *)
Definition deduplicated (w : World) (files : list string) : list string :=
  removeDuplicatesFromSlice (collectedFrom w files).

Definition outputFile : string := "extracted_urls.txt".

(** The two ways main ends the process: the listing fails, or one of the
    deduplicated strings passes isUrlValid and is rejected by url.Parse. *)
Definition fatal (w : World) : bool :=
  match fst (listTSVFiles w) with
  | Return (files, None) => negb (forallb survives (deduplicated w files))
  | _ => true
  end.

(** main, with the two points where src/main.go and src/unnamed/part_000
    differ as parameters: what cleanURLs does to a kept string and what
    is done to the cleaned list before it is saved. *)
Definition mainWith (strip : string → string) (post : list string → list string)
  : Proc unit :=
  (let! (tsvFiles, err) := listTSVFiles in
   match err with
   | Some err => logFatal ("Error listing TSV files: " +:+ err)
   | None =>
       if (length tsvFiles =? 0)%nat then logPrint noFilesMessage
       else
         let! allURLs := forRange tsvFiles MainGo.extractFile [] in
         let! allURLs := forRange (removeDuplicatesFromSlice allURLs) (cleanURLWith strip) [] in
         let! err := saveURLsToFile (post allURLs) outputFile in
         match err with
         | Some err => logPrint ("Error saving URLs to file: " +:+ err)
         | None => logPrint ("Successfully saved URLs to " +:+ outputFile)
         end
   end)%proc.

(** What main does to the world whatever the input. *)
Definition confined (main : Proc unit) (w : World) : Prop :=
  exitStatus main w = (if fatal w then 1 else 0)
  ∧ (fatal w = true → os_disk (snd (main w)) = os_disk w)
  ∧ (∀ g, g ≠ outputFile → os_disk (snd (main w)) !! g = os_disk w !! g)
  ∧ os_log w `prefix_of` os_log (snd (main w))
  ∧ sameOracles w (snd (main w)).

(** main returns having written exactly [out]. *)
Definition writes (main : Proc unit) (w : World) (out : list string) : Prop :=
  ∃ w', main w = (Return tt, w')
        ∧ fileContent w' outputFile = linesOf out
        ∧ last (os_log w') = Some ("Successfully saved URLs to " +:+ outputFile).

End MoreNotions5.

Section MoreNotions6.
Import GoStrings NetURL.

(** *** Quoting *)

(** The line appendQuotesToString makes of a string: a double quote, the
    string, a double quote and a comma. *)
Definition quoted (s : string) : string :=
  String quoteByte s +:+ String quoteByte ",".

(** The bytes between the first byte and the last two. *)
Definition unquoted (l : string) : string :=
  take (String.length l - 3) (drop 1 l).

End MoreNotions6.

Section MoreNotions7.
Import GoStrings NetURL.

(** *** The scheme of what is collected *)

(** [s] starts with [p]. *)
Definition extends (p s : string) : Prop := ∃ t, s = p +:+ t.

(** [s] starts with its scheme, http or https, and a colon. *)
Definition hasWebScheme (s : string) : Prop := extends "http:" s ∨ extends "https:" s.

End MoreNotions7.





Section MoreNotions8.
Import GoStrings NetURL.

(** *** Plain URLs *)

(** Letters, digits and the five bytes - _ . ~ and /: a path made of them
    needs no escaping and holds no separator of a query or fragment. *)
Definition plainByte (c : ascii) : bool := isLetter c || isDigit c || oneOf c "-_.~/".

(** scheme://host/path *)
Definition webURL (scheme host path : string) : string :=
  scheme +:+ "://" +:+ host +:+ "/" +:+ path.

(** The URL value the parsers are to build from [webURL]. *)
Definition webRecord (scheme host path : string) : URL :=
  mkURL scheme "" None host ("/" +:+ path) "" false false "" "" "".

(** What the proofs below need of a host name; the four allowed names
    have it. *)
Definition hostFacts (d : string) : Prop :=
  stringContainsCTLByte d = false
  ∧ CountByte d "?" = 0
  ∧ indexByte "/" d = None
  ∧ indexByte "#" d = None
  ∧ parseAuthority d = Ok (None, d)
  ∧ escape d encodeHost = d
  ∧ String.eqb d "" = false
  ∧ fst (splitHostPort d) = d
  ∧ allBytes urlByte d = true.

(** [s] is [webURL scheme d p] for a scheme http or https, an allowed
    host [d] and a path [p] of plain bytes. *)
Definition plainWebURL (s : string) : bool :=
  existsb (λ scheme,
    existsb (λ d,
      HasPrefix s (webURL scheme d "")
      && allBytes plainByte (drop (String.length (webURL scheme d "")) s))
      validDomains)
    ["http"; "https"].

(** The lines of the files, for the files that open. *)
Definition allLines (w : World) (files : list string) : list string :=
  concat (map (λ fileName,
                 match os_open w fileName with
                 | Ok scanner => scan_lines scanner
                 | Err _ => []
                 end) files).

(** The file opens, is read to its end, and each of its lines is a plain
    URL of an allowed host. *)
Definition plainFile (w : World) (fileName : string) : bool :=
  match os_open w fileName with
  | Ok scanner => negb (isSome (scan_err scanner)) && forallb plainWebURL (scan_lines scanner)
  | Err _ => false
  end.

(** A world with one .tsv file of three lines, the first and the last
    equal. *)
Definition plainWorld : World :=
  mkWorld (Ok "/data")
          (λ _, [mkWalkEntry "/data/docs.tsv" false None])
          (λ _, Ok (mkScanned [ "https://www.documentcloud.org/docs/123.pdf";
                                "http://s3.documentcloud.org/y";
                                "https://www.documentcloud.org/docs/123.pdf" ] None))
          (λ _, None) None ∅ [].

End MoreNotions8.

Section MoreNotions9.
Import GoStrings NetURL.

(** *** What url.Parse checks and ParseRequestURI does not *)

(** The two strings url.Parse obtains from [strings.Cut(rawURL, "#")]:
    the part before the first '#' and the part after it. *)
Definition beforeFragment (s : string) : string := fst (fst (Cut s "#")).
Definition fragmentOf (s : string) : string := snd (fst (Cut s "#")).

(** The escapes of the fragment are well formed: [setFragment] accepts
    it. *)
Definition fragmentOK (s : string) : bool :=
  isOk (unescape (fragmentOf s) encodeFragment).

(** url.Parse reads an authority in a string without scheme that starts
    with exactly two slashes, ParseRequestURI takes the slashes as part of
    the path.  [authorityOK s] holds when the part of [s] before the
    fragment has no such authority or [parseAuthority] accepts it. *)
Definition authorityOK (s : string) : bool :=
  match getScheme (beforeFragment s) with
  | Ok (scheme0, rest0) =>
      let rest := fst (fst (splitQuery rest0)) in
      if String.eqb (ToLower scheme0) "" && hasAuthority "" rest false
      then isOk (parseAuthority (fst (splitAuthority (drop 2 rest))))
      else true
  | Err _ => true
  end.

(** The strings on which getHostNameFromURL cannot fail inside cleanURLs:
    those isUrlValid rejects, and those whose fragment and scheme-less
    authority are well formed. *)
Definition wellFormed (s : string) : bool :=
  negb (isUrlValid s) || (fragmentOK s && authorityOK s).

(** Whether [parseWithAuthority] succeeds. *)
Definition withAuthorityOK (scheme rest : string) (viaRequest : bool) : bool :=
  if hasAuthority scheme rest viaRequest
  then isOk (parseAuthority (fst (splitAuthority (drop 2 rest))))
       && isOk (unescape (snd (splitAuthority (drop 2 rest))) encodePath)
  else isOk (unescape rest encodePath).

(** Whether [parseTail] succeeds. *)
Definition tailOK (scheme rest : string) (viaRequest : bool) : bool :=
  if negb (HasPrefix rest "/") then
    if negb (String.eqb scheme "") then true
    else if viaRequest then false
    else
      let '(segment, _, _) := Cut rest "/" in
      if Contains segment ":" then false else withAuthorityOK scheme rest viaRequest
  else withAuthorityOK scheme rest viaRequest.

(** The condition of [authorityOK] on a scheme and the part before the
    query. *)
Definition schemelessAuthorityOK (scheme rest : string) : bool :=
  if String.eqb scheme "" && hasAuthority "" rest false
  then isOk (parseAuthority (fst (splitAuthority (drop 2 rest))))
  else true.

(** A URL with a query that holds a well-formed fragment. *)
Definition queryFragmentURL : string := "http://documentcloud.org/?q=1#page=2".

(** Strings of the three kinds: a fragment after a query, an authority
    without a scheme, a host that is not allowed. *)
Definition wellFormedURLs : list string :=
  [ queryFragmentURL; "//documentcloud.org/x#a%20b"; "https://evil.example.com/x" ].

End MoreNotions9.



(* ===================================================================== *)
(** * Part II: properties *)
(* ===================================================================== *)

(** ** Deduplication *)

Section Dedup.

Implicit Types (xs slice seen acc : list string) (check : gmap string bool).

Lemma tracks_empty : tracks ∅ [].
Proof.
  intros x. rewrite lookup_empty. simpl. split; [discriminate | by intros ?%elem_of_nil].
Qed.

Lemma tracks_insert check seen x :
  tracks check seen → tracks (<[x := true]> check) (x :: seen).
Proof.
  intros H y. destruct (decide (x = y)) as [->|Hne].
  - rewrite lookup_insert_eq. simpl. split; [intros _; left | done].
  - rewrite lookup_insert_ne by done. rewrite (H y). rewrite elem_of_cons.
    split; [by right | intros [?|?]; [congruence | done]].
Qed.

Lemma removeDuplicatesLoop_freshOf slice : ∀ check seen acc,
  tracks check seen →
  removeDuplicatesLoop slice check acc = acc ++ freshOf seen slice.
Proof.
  induction slice as [|x slice IH]; intros check seen acc Htr; simpl.
  - by rewrite app_nil_r.
  - destruct (default false (check !! x)) eqn:Hx; simpl.
    + rewrite bool_decide_eq_true_2 by (by apply Htr). by apply IH.
    + rewrite bool_decide_eq_false_2.
      * rewrite (IH _ (x :: seen)) by (by apply tracks_insert).
        by rewrite <- app_assoc.
      * intros Hin. apply Htr in Hin. congruence.
Qed.

Lemma freshOf_positions xs : ∀ seen,
  freshOf seen xs =
  omap (λ i, match xs !! i with
             | Some x => if bool_decide (x ∈ seen ∨ x ∈ take i xs) then None else Some x
             | None => None
             end) (seq 0 (length xs)).
Proof.
  induction xs as [|x xs IH]; intros seen; [done|].
  cbn [freshOf length seq omap list_omap]. rewrite <- fmap_S_seq.
  cbn [lookup list_lookup take].
  assert (Hshift : ∀ (f g : nat → option string) (l : list nat),
             (∀ i, f (S i) = g i) → omap f (S <$> l) = omap g l).
  { intros f g l Hfg. induction l as [|i l IHl]; [done|]. cbn.
    rewrite Hfg, IHl. done. }
  destruct (decide (x ∈ seen)) as [Hin|Hnin].
  - rewrite bool_decide_eq_true_2 by done.
    rewrite bool_decide_eq_true_2 by (by left).
    rewrite IH. symmetry. apply Hshift. intros i. cbn.
    destruct (xs !! i) as [y|]; [|done].
    apply (f_equal (λ b : bool, if b then None else Some y)).
    apply bool_decide_ext. rewrite elem_of_cons.
    split; [intros [?|[->|?]]; auto | intros [?|?]; auto].
  - rewrite bool_decide_eq_false_2 by done.
    rewrite bool_decide_eq_false_2.
    2:{ intros [?|?%elem_of_nil]; done. }
    f_equal. rewrite IH. symmetry. apply Hshift. intros i. cbn.
    destruct (xs !! i) as [y|]; [|done].
    apply (f_equal (λ b : bool, if b then None else Some y)).
    apply bool_decide_ext. rewrite !elem_of_cons. tauto.
Qed.

Lemma freshOf_firstOccurrences xs : freshOf [] xs = firstOccurrences xs.
Proof.
  rewrite freshOf_positions. unfold firstOccurrences.
  apply list_eq. intros k. f_equal.
  induction (seq 0 (length xs)) as [|i l IHl]; [done|]. cbn.
  rewrite IHl. unfold isFirstAt. destruct (xs !! i) as [y|]; [|done].
  replace (bool_decide (y ∈ [] ∨ y ∈ take i xs)) with (bool_decide (y ∈ take i xs)); [done|].
  apply bool_decide_ext. split; [by right | intros [?%elem_of_nil|?]; done].
Qed.

Lemma freshOf_NoDup xs : ∀ seen,
  NoDup (freshOf seen xs) ∧ ∀ x, x ∈ freshOf seen xs ↔ x ∈ xs ∧ x ∉ seen.
Proof.
  induction xs as [|x xs IH]; intros seen; simpl.
  - split; [constructor|]. intros y. split; [by intros ?%elem_of_nil | by intros [?%elem_of_nil _]].
  - case_bool_decide as Hx.
    + destruct (IH seen) as [Hnd Hmem]. split; [done|].
      intros y. rewrite Hmem, elem_of_cons. split; [tauto|].
      intros [[->|?] ?]; [done | tauto].
    + destruct (IH (x :: seen)) as [Hnd Hmem]. split.
      * constructor; [|done]. rewrite Hmem. rewrite elem_of_cons. tauto.
      * intros y. rewrite !elem_of_cons, Hmem, elem_of_cons.
        destruct (decide (y = x)) as [->|]; tauto.
Qed.

Lemma freshOf_sublist xs : ∀ seen, sublist (freshOf seen xs) xs.
Proof.
  induction xs as [|x xs IH]; intros seen; simpl; [constructor|].
  case_bool_decide; [apply sublist_cons | apply sublist_skip]; apply IH.
Qed.

Lemma freshOf_id xs : ∀ seen,
  NoDup xs → (∀ x, x ∈ xs → x ∉ seen) → freshOf seen xs = xs.
Proof.
  induction xs as [|x xs IH]; intros seen Hnd Hdisj; [done|]. simpl.
  apply NoDup_cons in Hnd as [Hx Hnd].
  rewrite bool_decide_eq_false_2 by (apply Hdisj; left).
  f_equal. apply IH; [done|]. intros y Hy. rewrite elem_of_cons.
  intros [->|Hs]; [done|]. apply (Hdisj y); [by right | done].
Qed.

Lemma removeDuplicatesFromSlice_freshOf xs :
  removeDuplicatesFromSlice xs = freshOf [] xs.
Proof.
  unfold removeDuplicatesFromSlice.
  by rewrite (removeDuplicatesLoop_freshOf xs ∅ [] []) by apply tracks_empty.
Qed.

(** C3: deduplication returns the subsequence of the first occurrence of
    each distinct string, in input order.  The result is the subsequence
    selected by the positions [i] with [xs[i]] absent from [xs[:i]]; it has
    no repetition, is a subsequence of the input and has the same
    elements.  The function is a total function of its argument alone. *)
Theorem removeDuplicatesFromSlice_first_occurrences (xs : list string) :
  removeDuplicatesFromSlice xs = firstOccurrences xs
  ∧ NoDup (removeDuplicatesFromSlice xs)
  ∧ sublist (removeDuplicatesFromSlice xs) xs
  ∧ (∀ x, x ∈ removeDuplicatesFromSlice xs ↔ x ∈ xs).
Proof.
  rewrite removeDuplicatesFromSlice_freshOf.
  destruct (freshOf_NoDup xs []) as [Hnd Hmem].
  split; [apply freshOf_firstOccurrences|].
  split; [done|]. split; [apply freshOf_sublist|].
  intros x. rewrite Hmem. split; [tauto|]. intros ?. split; [done|]. by intros ?%elem_of_nil.
Qed.

(** C4: deduplication is idempotent. *)
Theorem removeDuplicatesFromSlice_idempotent (xs : list string) :
  removeDuplicatesFromSlice (removeDuplicatesFromSlice xs) = removeDuplicatesFromSlice xs.
Proof.
  rewrite (removeDuplicatesFromSlice_freshOf (removeDuplicatesFromSlice xs)).
  apply freshOf_id.
  - rewrite removeDuplicatesFromSlice_freshOf. apply freshOf_NoDup.
  - intros x _. by intros ?%elem_of_nil.
Qed.

End Dedup.

(** ** Extraction *)

Section Extraction.

(** C5: on the scenario line the pattern yields exactly three candidates,
    in order; the double quote precedes the third URL, which is matched
    from its scheme onward. *)
Theorem extraction_scenario_candidates :
  Regexp.FindAllString re scenarioLine =
  [ "https://www.documentcloud.org/docs/123.pdf";
    "https://evil.example.com/x";
    "https://s3.documentcloud.org/y" ].
Proof. vm_compute. reflexivity. Qed.

Lemma setLog_setLog w l l' : setLog (setLog w l) l' = setLog w l'.
Proof. done. Qed.

Lemma setLog_id w : setLog w (os_log w) = w.
Proof. by destruct w. Qed.

Lemma extractMatch_loop candidates : ∀ urls w,
  forRange candidates extractMatch urls w =
  (Return (urls ++ keptOf candidates), setLog w (os_log w ++ skippedOf candidates)).
Proof.
  induction candidates as [|m cs IH]; intros urls w.
  - cbn. by rewrite !app_nil_r, setLog_id.
  - cbn [forRange]. unfold bind at 1. unfold extractMatch at 1.
    unfold keptOf, skippedOf. cbn [omap list_omap].
    destruct (NetURL.ParseRequestURI m) as [u|e].
    + cbn. rewrite IH. by rewrite <- app_assoc.
    + cbn. rewrite IH. cbn. by rewrite setLog_setLog, <- app_assoc.
Qed.

Lemma keptOf_app a b : keptOf (a ++ b) = keptOf a ++ keptOf b.
Proof. unfold keptOf. apply omap_app. Qed.

Lemma skippedOf_app a b : skippedOf (a ++ b) = skippedOf a ++ skippedOf b.
Proof. unfold skippedOf. apply omap_app. Qed.

Lemma extractLine_loop lines : ∀ urls w,
  forRange lines extractLine urls w =
  (Return (urls ++ keptOf (candidatesOf lines)),
   setLog w (os_log w ++ skippedOf (candidatesOf lines))).
Proof.
  induction lines as [|l ls IH]; intros urls w.
  - cbn. by rewrite !app_nil_r, setLog_id.
  - cbn [forRange]. unfold bind at 1. unfold extractLine at 1.
    rewrite extractMatch_loop, IH. unfold candidatesOf. cbn [map concat].
    rewrite keptOf_app, skippedOf_app. cbn.
    by rewrite setLog_setLog, <- !app_assoc.
Qed.

(** C6: every candidate that fails to parse is logged and dropped, and the
    scan goes on (the call returns, the process does not exit); every
    candidate that parses contributes the parser's re-serialization, which
    can differ from the matched bytes. *)
Theorem extractURLsFromFile_candidates :
  (∀ m urls w,
     extractMatch m urls w =
     match NetURL.ParseRequestURI m with
     | Err _ => (Return urls,
                 setLog w (os_log w ++ ["Invalid URL skipped: " +:+ m +:+ newline]))
     | Ok parsedURL => (Return (urls ++ [NetURL.String_ parsedURL]), w)
     end)
  ∧ (∀ fileName w,
       extractURLsFromFile fileName w =
       match os_open w fileName with
       | Err err =>
           (Return (Err ("could not open file " +:+ fileName +:+ ": " +:+ err)), w)
       | Ok scanner =>
           let candidates := candidatesOf (scan_lines scanner) in
           (Return match scan_err scanner with
                   | Some err => Err ("error reading file " +:+ fileName +:+ ": " +:+ err)
                   | None => Ok (keptOf candidates)
                   end,
            setLog w (os_log w ++ skippedOf candidates))
       end)
  ∧ (∃ m parsedURL,
       Regexp.FindAllString re m = [m]
       ∧ NetURL.ParseRequestURI m = Ok parsedURL
       ∧ NetURL.String_ parsedURL ≠ m).
Proof.
  split; [|split].
  - intros m urls w. unfold extractMatch.
    by destruct (NetURL.ParseRequestURI m).
  - intros fileName w. unfold extractURLsFromFile.
    destruct (os_open w fileName) as [scanner|err]; [|done].
    unfold bind. rewrite extractLine_loop. cbn.
    by destruct (scan_err scanner).
  - exists "http://a/b^c". eexists. split; [by vm_compute|].
    split; [by vm_compute|]. by vm_compute.
Qed.

End Extraction.

(** ** The empty discovery *)

Section NoInput.

Lemma listTSVFiles_world w : snd (listTSVFiles w) = w.
Proof. unfold listTSVFiles. by destruct (os_getwd w). Qed.

(** C8: when the discovery of .tsv files returns the empty list (and no
    error), main logs one line and returns: saveURLsToFile is not reached,
    no file is created, truncated or written, and the exit status is 0. *)
Theorem main_no_tsv_files (w : World) :
  fst (listTSVFiles w) = Return ([], None) →
  (MainGo.main w = (Return tt, setLog w (os_log w ++ [noFilesMessage]))
   ∧ Part000.main w = (Return tt, setLog w (os_log w ++ [noFilesMessage])))
  ∧ (os_disk (snd (MainGo.main w)) = os_disk w
     ∧ os_disk (snd (Part000.main w)) = os_disk w)
  ∧ (exitStatus MainGo.main w = 0 ∧ exitStatus Part000.main w = 0).
Proof.
  intros Hlist.
  assert (Hrun : listTSVFiles w = (Return ([], None), w)).
  { pose proof (listTSVFiles_world w) as Hw.
    destruct (listTSVFiles w) as [o w1]. cbn in Hlist, Hw. by subst. }
  assert (Hm : MainGo.main w = (Return tt, setLog w (os_log w ++ [noFilesMessage]))).
  { unfold MainGo.main, bind. by rewrite Hrun. }
  assert (Hp : Part000.main w = (Return tt, setLog w (os_log w ++ [noFilesMessage]))).
  { unfold Part000.main, bind. by rewrite Hrun. }
  unfold exitStatus. rewrite Hm, Hp. done.
Qed.

Lemma main_no_tsv_files_witness :
  fst (listTSVFiles emptyWorld) = Return ([], None)
  ∧ exitStatus MainGo.main emptyWorld = 0.
Proof.
  split; [reflexivity|].
  apply (main_no_tsv_files emptyWorld). reflexivity.
Defined.

End NoInput.

(** ** Strings: append, slices *)

Section StringFacts.

Import GoStrings.

Implicit Types (a b s : string) (n k : nat).

Lemma str_app_cons c a b : String c a +:+ b = String c (a +:+ b).
Proof. reflexivity. Qed.

Lemma str_app_nil_l s : "" +:+ s = s.
Proof. reflexivity. Qed.

Lemma str_app_nil_r s : s +:+ "" = s.
Proof. induction s as [|c s IH]; [done | by rewrite str_app_cons, IH]. Qed.

Lemma str_app_assoc a b s : (a +:+ b) +:+ s = a +:+ (b +:+ s).
Proof. induction a as [|c a IH]; [done | by rewrite !str_app_cons, IH]. Qed.

Lemma str_app_length a b : String.length (a +:+ b) = String.length a + String.length b.
Proof. induction a as [|c a IH]; [done | rewrite str_app_cons; cbn; by rewrite IH]. Qed.

Lemma str_take_0 s : take 0 s = "".
Proof. by destruct s. Qed.

Lemma str_drop_0 s : drop 0 s = s.
Proof. by destruct s. Qed.

Lemma str_take_all s : take (String.length s) s = s.
Proof. induction s as [|c s IH]; cbn; [done | by rewrite IH]. Qed.

Lemma str_drop_all s : drop (String.length s) s = "".
Proof. induction s as [|c s IH]; cbn; done. Qed.

Lemma str_take_drop n : ∀ s, take n s +:+ drop n s = s.
Proof.
  induction n as [|n IH]; intros [|c s]; cbn; try done.
  by rewrite str_app_cons, IH.
Qed.

Lemma str_take_app_le n : ∀ a b, (n ≤ String.length a)%nat → take n (a +:+ b) = take n a.
Proof.
  induction n as [|n IH]; intros a b Hn.
  - by rewrite !str_take_0.
  - destruct a as [|c a]; cbn in Hn; [lia|]. rewrite str_app_cons. cbn.
    rewrite IH; [done | lia].
Qed.

Lemma str_drop_app_le n : ∀ a b, (n ≤ String.length a)%nat → drop n (a +:+ b) = drop n a +:+ b.
Proof.
  induction n as [|n IH]; intros a b Hn.
  - by rewrite !str_drop_0.
  - destruct a as [|c a]; cbn in Hn; [lia|]. rewrite str_app_cons. cbn.
    rewrite IH; [done | lia].
Qed.

Lemma str_drop_app_ge a : ∀ b k, drop (String.length a + k) (a +:+ b) = drop k b.
Proof.
  induction a as [|c a IH]; intros b k; [done|]. rewrite str_app_cons. cbn. apply IH.
Qed.

Lemma str_length_0 s : String.length s = 0 → s = "".
Proof. by destruct s. Qed.

End StringFacts.

(** ** Output writing *)

Section Output.

Import GoStrings.

Lemma fileContent_setDisk_insert w name s :
  fileContent (setDisk w (<[name := s]> (os_disk w))) name = s.
Proof. unfold fileContent. cbn. by rewrite lookup_insert_eq. Qed.

Lemma fileWrite_ok name data w n w' :
  fileWrite name data w = (n, None, w') →
  n = String.length data
  ∧ fileContent w' name = fileContent w name +:+ data
  ∧ os_quota w' = os_quota w.
Proof.
  unfold fileWrite. destruct (os_quota w) as [q|] eqn:Hq.
  - destruct (_ <=? q)%nat; [|discriminate].
    intros [= <- <-]. by rewrite fileContent_setDisk_insert.
  - intros [= <- <-]. by rewrite fileContent_setDisk_insert.
Qed.

Lemma fileWrite_unlimited name data w :
  os_quota w = None →
  ∃ w', fileWrite name data w = (String.length data, None, w') ∧ os_quota w' = None.
Proof. intros Hq. unfold fileWrite. rewrite Hq. by eexists. Qed.

Lemma Flush_ok b w b' w' :
  wr_err b = None →
  Flush b w = (None, b', w') →
  wr_err b' = None ∧ wr_file b' = wr_file b ∧ accepted b' w' = accepted b w.
Proof.
  intros He. unfold Flush. rewrite He.
  destruct (String.length (wr_buf b) =? 0)%nat eqn:Hn.
  - by intros [= <- <-].
  - destruct (fileWrite (wr_file b) (wr_buf b) w) as [[n [e|]] w1] eqn:Hw; [discriminate|].
    apply fileWrite_ok in Hw as (-> & Hc & _).
    rewrite Nat.ltb_irrefl. intros [= <- <-]. unfold accepted. cbn.
    by rewrite Hc, str_app_nil_r.
Qed.

Lemma Flush_failed b w e b' w' :
  Flush b w = (Some e, b', w') → NetURL.isSome (wr_err b') = true.
Proof.
  unfold Flush. destruct (wr_err b) as [e0|] eqn:He.
  - intros [= <- <- <-]. by rewrite He.
  - destruct (String.length (wr_buf b) =? 0)%nat; [discriminate|].
    destruct (fileWrite _ _ _) as [[n [e1|]] w1].
    + by intros [= <- <- <-].
    + destruct (n <? _)%nat; [by intros [= <- <- <-] | discriminate].
Qed.

(** One round of [WriteString] that leaves no error pending has moved the
    bytes it took from the string to the writer. *)
Lemma writeRound_ok b s w s1 b1 w1 :
  wr_err b = None →
  writeRound b s w = (s1, b1, w1) →
  wr_err b1 = None →
  wr_file b1 = wr_file b ∧ accepted b1 w1 +:+ s1 = accepted b w +:+ s.
Proof.
  intros He. unfold writeRound.
  destruct (String.length (wr_buf b) =? 0)%nat eqn:Hn.
  - apply Nat.eqb_eq, str_length_0 in Hn.
    destruct (fileWrite (wr_file b) s w) as [[n e] w'] eqn:Hw.
    intros [= <- <- <-]. cbn. intros ->.
    apply fileWrite_ok in Hw as (-> & Hc & _).
    unfold accepted. cbn. rewrite Hc, Hn, str_drop_all. by rewrite !str_app_nil_r.
  - destruct (Flush _ w) as [[e b2] w'] eqn:Hf.
    intros [= <- <- <-] He2. destruct e as [e|].
    + apply Flush_failed in Hf. by rewrite He2 in Hf.
    + apply Flush_ok in Hf as (_ & Hfile & Hacc); [|done]. cbn in Hfile.
      split; [done|]. rewrite Hacc. unfold accepted. cbn.
      by rewrite !str_app_assoc, str_take_drop.
Qed.

Lemma WriteString_ok b s w b' w' :
  wr_err b = None →
  WriteString b s w = (None, b', w') →
  wr_err b' = None ∧ wr_file b' = wr_file b ∧ accepted b' w' = accepted b w +:+ s.
Proof.
  intros He. unfold WriteString.
  destruct (needsRound b s) eqn:Hr1.
  - destruct (writeRound b s w) as [[s1 b1] w1] eqn:H1.
    destruct (needsRound b1 s1) eqn:Hr2.
    + destruct (writeRound b1 s1 w1) as [[s2 b2] w2] eqn:H2.
      destruct (wr_err b2) as [e|] eqn:He2; [discriminate|].
      intros [= <- <-]. cbn.
      assert (He1 : wr_err b1 = None).
      { unfold needsRound in Hr2. destruct (wr_err b1); [|done].
        cbn in Hr2. by rewrite andb_false_r in Hr2. }
      destruct (writeRound_ok _ _ _ _ _ _ He H1 He1) as [Hf1 Ha1].
      destruct (writeRound_ok _ _ _ _ _ _ He1 H2 He2) as [Hf2 Ha2].
      split; [done|]. split; [congruence|].
      unfold accepted in *. cbn. rewrite Hf2, <- Hf1 in *.
      by rewrite <- str_app_assoc, Ha2, Ha1.
    + destruct (wr_err b1) as [e|] eqn:He1; [discriminate|].
      intros [= <- <-]. cbn.
      destruct (writeRound_ok _ _ _ _ _ _ He H1 He1) as [Hf1 Ha1].
      split; [done|]. split; [done|].
      unfold accepted in *. cbn. rewrite <- Hf1 in *.
      by rewrite <- str_app_assoc, Ha1.
  - rewrite He. intros [= <- <-]. cbn. split; [done|]. split; [done|].
    unfold accepted. cbn. by rewrite str_app_assoc.
Qed.

Lemma saveLoop_ok urls : ∀ b w b' w',
  wr_err b = None →
  saveLoop urls b w = (None, b', w') →
  wr_err b' = None ∧ wr_file b' = wr_file b
  ∧ accepted b' w' = accepted b w +:+ linesOf urls.
Proof.
  induction urls as [|url urls IH]; intros b w b' w' He; cbn [saveLoop linesOf].
  - intros [= <- <-]. by rewrite str_app_nil_r.
  - destruct (WriteString b (url +:+ newline) w) as [[[e|] b1] w1] eqn:Hws; [discriminate|].
    apply WriteString_ok in Hws as (He1 & Hf1 & Ha1); [|done].
    intros Hl. apply IH in Hl as (He' & Hf' & Ha'); [|done].
    split; [done|]. split; [congruence|].
    by rewrite Ha', Ha1, str_app_assoc.
Qed.

(** A successful call leaves exactly the lines in the output file. *)
Lemma saveURLsToFile_content urls outputFile w w' :
  saveURLsToFile urls outputFile w = (Return None, w') →
  fileContent w' outputFile = linesOf urls.
Proof.
  unfold saveURLsToFile, osCreate.
  destruct (os_createErr w outputFile) as [e|]; [discriminate|].
  set (w0 := setDisk w _).
  destruct (saveLoop urls (NewWriter outputFile) w0) as [[[e|] b1] w1] eqn:Hl; [discriminate|].
  apply saveLoop_ok in Hl as (He1 & Hf1 & Ha1); [|done].
  destruct (Flush b1 w1) as [[e b2] w2] eqn:Hf. intros [= -> <-].
  pose proof Hf as Hf'. apply Flush_ok in Hf' as (He2 & Hf2 & Ha2); [|done].
  assert (Hbuf : wr_buf b2 = "").
  { revert Hf. unfold Flush. rewrite He1.
    destruct (String.length (wr_buf b1) =? 0)%nat eqn:Hn.
    - intros [= <- <-]. by apply Nat.eqb_eq, str_length_0 in Hn.
    - destruct (fileWrite _ _ _) as [[n [e1|]] w3]; [discriminate|].
      destruct (n <? _)%nat; [discriminate|]. by intros [= <- <-]. }
  unfold accepted in *. rewrite Hbuf, str_app_nil_r in Ha2.
  rewrite Hf2, Ha1, Hf1 in Ha2. cbn in Ha2. rewrite Ha2.
  subst w0. by rewrite fileContent_setDisk_insert.
Qed.

End Output.

Section RoundTrip.

Import GoStrings.

Lemma prefix_nil s : String.prefix "" s = true.
Proof. by destruct s. Qed.

Lemma prefix_byte c d s : String.prefix (String c "") (String d s) = (d =? c)%char.
Proof.
  cbn. destruct (ascii_dec c d) as [->|Hne].
  - by rewrite prefix_nil, Ascii.eqb_refl.
  - symmetry. apply Ascii.eqb_neq. congruence.
Qed.

Lemma Index_byte c s : Index s (String c "") = indexByte c s.
Proof.
  induction s as [|d s IH]; [done|].
  cbn [Index indexByte]. rewrite prefix_byte, IH. done.
Qed.

Lemma splitLines_line u : ∀ rest,
  indexByte "010" u = None →
  splitLines (u +:+ newline +:+ rest) = u :: splitLines rest.
Proof.
  induction u as [|c u IH]; intros rest Hnl.
  - done.
  - cbn in Hnl. destruct (c =? "010")%char eqn:Hc; [discriminate|].
    destruct (indexByte "010" u); [discriminate|].
    rewrite str_app_cons. cbn [splitLines]. rewrite Hc. by rewrite IH.
Qed.

Lemma hasNewline_indexByte u : hasNewline u = false → indexByte "010" u = None.
Proof.
  unfold hasNewline, Contains, newline. rewrite Index_byte.
  by destruct (indexByte "010" u).
Qed.

Lemma splitLines_linesOf urls :
  Forall (λ u, hasNewline u = false) urls → splitLines (linesOf urls) = urls.
Proof.
  induction 1 as [|u urls Hu _ IH]; [done|].
  cbn [linesOf]. rewrite str_app_assoc, splitLines_line, IH; [done|].
  by apply hasNewline_indexByte.
Qed.

Lemma Flush_unlimited b w :
  wr_err b = None → os_quota w = None →
  ∃ b' w', Flush b w = (None, b', w') ∧ wr_err b' = None ∧ os_quota w' = None.
Proof.
  intros He Hq. unfold Flush. rewrite He.
  destruct (String.length (wr_buf b) =? 0)%nat; [by eauto|].
  destruct (fileWrite_unlimited (wr_file b) (wr_buf b) w Hq) as (w' & -> & Hq').
  rewrite Nat.ltb_irrefl. by eauto.
Qed.

Lemma WriteString_unlimited b s w :
  wr_err b = None → os_quota w = None →
  ∃ b' w', WriteString b s w = (None, b', w') ∧ wr_err b' = None ∧ os_quota w' = None.
Proof.
  intros He Hq.
  assert (Hround : ∀ b s w, wr_err b = None → os_quota w = None →
            ∃ s1 b1 w1, writeRound b s w = (s1, b1, w1)
                        ∧ wr_err b1 = None ∧ os_quota w1 = None).
  { clear. intros b s w He Hq. unfold writeRound.
    destruct (String.length (wr_buf b) =? 0)%nat.
    - destruct (fileWrite_unlimited (wr_file b) s w Hq) as (w' & -> & Hq'). by eauto 7.
    - edestruct (Flush_unlimited
                   (mkWriter (wr_file b) (wr_buf b +:+ take (Available b) s) (wr_err b)) w)
        as (b2 & w' & -> & He2 & Hq'); [done..|]. by eauto 7. }
  unfold WriteString. destruct (needsRound b s).
  - destruct (Hround b s w He Hq) as (s1 & b1 & w1 & -> & He1 & Hq1).
    destruct (needsRound b1 s1).
    + destruct (Hround b1 s1 w1 He1 Hq1) as (s2 & b2 & w2 & -> & He2 & Hq2).
      rewrite He2. by eauto 7.
    + rewrite He1. by eauto 7.
  - rewrite He. by eauto 7.
Qed.

Lemma saveLoop_unlimited urls : ∀ b w,
  wr_err b = None → os_quota w = None →
  ∃ b' w', saveLoop urls b w = (None, b', w') ∧ wr_err b' = None ∧ os_quota w' = None.
Proof.
  induction urls as [|url urls IH]; intros b w He Hq; cbn [saveLoop]; [by eauto 7|].
  destruct (WriteString_unlimited b (url +:+ newline) w He Hq) as (b1 & w1 & -> & He1 & Hq1).
  by apply IH.
Qed.

(** X3: on a device without quota, saveURLsToFile succeeds whenever the
    file can be created. *)
Theorem saveURLsToFile_succeeds urls outputFile w :
  os_createErr w outputFile = None → os_quota w = None →
  ∃ w', saveURLsToFile urls outputFile w = (Return None, w').
Proof.
  intros Hc Hq. unfold saveURLsToFile, osCreate. rewrite Hc.
  edestruct (saveLoop_unlimited urls (NewWriter outputFile)) as (b1 & w1 & -> & He1 & Hq1);
    [done | | ]; [exact Hq|].
  destruct (Flush_unlimited b1 w1 He1 Hq1) as (b2 & w2 & -> & _ & _). by eauto.
Qed.

Lemma saveURLsToFile_succeeds_witness :
  ∃ w', saveURLsToFile twoURLs "extracted_urls.txt" emptyWorld = (Return None, w').
Proof.
  apply (saveURLsToFile_succeeds twoURLs "extracted_urls.txt" emptyWorld); reflexivity.
Defined.

(** C9, amended: a successful saveURLsToFile leaves in the file each
    string followed by one newline, in order; when no string contains a
    newline, splitting the content at the newlines gives back the N
    strings. *)
Theorem saveURLsToFile_round_trip urls outputFile w w' :
  saveURLsToFile urls outputFile w = (Return None, w') →
  fileContent w' outputFile = linesOf urls
  ∧ (Forall (λ u, hasNewline u = false) urls →
     splitLines (fileContent w' outputFile) = urls
     ∧ length (splitLines (fileContent w' outputFile)) = length urls).
Proof.
  intros Hsave. apply saveURLsToFile_content in Hsave. split; [done|].
  intros Hnl. rewrite Hsave, splitLines_linesOf by done. done.
Qed.

Lemma saveURLsToFile_round_trip_witness :
  splitLines (fileContent (snd (saveURLsToFile twoURLs "extracted_urls.txt" emptyWorld))
                          "extracted_urls.txt") = twoURLs.
Proof.
  refine (proj1 (proj2 (saveURLsToFile_round_trip twoURLs "extracted_urls.txt" emptyWorld
                          (snd (saveURLsToFile twoURLs "extracted_urls.txt" emptyWorld)) _) _)).
  - vm_compute. reflexivity.
  - repeat constructor.
Defined.

(** C9 as stated fails: a string that contains a newline is read back as
    two lines. *)
Lemma saveURLsToFile_round_trip_counterexample :
  ¬ (∀ urls outputFile w w',
       saveURLsToFile urls outputFile w = (Return None, w') →
       splitLines (fileContent w' outputFile) = urls).
Proof.
  intros H.
  specialize (H [twoLineString] "extracted_urls.txt" emptyWorld
                (snd (saveURLsToFile [twoLineString] "extracted_urls.txt" emptyWorld))).
  assert (Hrun : saveURLsToFile [twoLineString] "extracted_urls.txt" emptyWorld =
                 (Return None,
                  snd (saveURLsToFile [twoLineString] "extracted_urls.txt" emptyWorld)))
    by (vm_compute; reflexivity).
  specialize (H Hrun). vm_compute in H. discriminate H.
Qed.

End RoundTrip.

(** ** Facts about net/url *)

Section ParseFacts.

Import GoStrings NetURL.

Lemma parse_unfold rawURL viaRequest :
  parse rawURL viaRequest =
  (if stringContainsCTLByte rawURL then Err errInvalidControlCharacter
   else if String.eqb rawURL "" && viaRequest then Err errEmptyURL
   else if String.eqb rawURL "*"
   then Ok (mkURL "" "" None "" "*" "" false false "" "" "")
   else
     let? (scheme0, rest0) := getScheme rawURL in
     let '(rest, rawQuery, forceQuery) := splitQuery rest0 in
     parseTail (ToLower scheme0) rest rawQuery forceQuery viaRequest)%result.
Proof.
  unfold parse, parseTail, parseWithAuthority, parseAuthorityStep, hasAuthority,
    splitAuthority, splitQuery.
  destruct (stringContainsCTLByte rawURL); [done|].
  destruct (String.eqb rawURL "" && viaRequest); [done|].
  destruct (String.eqb rawURL "*"); [done|].
  destruct (getScheme rawURL) as [[scheme0 rest0]|e]; [|done]. cbn [rbind].
  destruct (HasSuffix rest0 "?" && (CountByte rest0 "?" =? 1)%nat).
  - destruct (Index (drop 2 (take (String.length rest0 - 1) rest0)) "/"); reflexivity.
  - destruct (Cut rest0 "?") as [[before after] found].
    destruct (Index (drop 2 before) "/"); reflexivity.
Qed.

End ParseFacts.

(** ** Strings: one-byte separators *)

Section ByteFacts.

Import GoStrings.

Implicit Types (a b s : string) (c d : ascii) (i n : nat).

Lemma LastIndex_byte c s : LastIndex s (String c "") = lastIndexByte c s.
Proof.
  induction s as [|d s IH]; [done|].
  cbn [LastIndex lastIndexByte]. rewrite prefix_byte, IH. done.
Qed.

Lemma indexByte_lt c s i : indexByte c s = Some i → i < String.length s.
Proof.
  revert i. induction s as [|d s IH]; intros i; cbn; [done|].
  destruct (d =? c)%char; [intros [= <-]; lia|].
  destruct (indexByte c s) as [j|]; [|done]. intros [= <-].
  specialize (IH j eq_refl). lia.
Qed.

Lemma lastIndexByte_lt c s i : lastIndexByte c s = Some i → i < String.length s.
Proof.
  revert i. induction s as [|d s IH]; intros i; cbn; [done|].
  destruct (lastIndexByte c s) as [j|].
  - intros [= <-]. specialize (IH j eq_refl). lia.
  - destruct (d =? c)%char; [intros [= <-]; lia | done].
Qed.

Lemma indexByte_app c a b :
  indexByte c (a +:+ b) =
  match indexByte c a with
  | Some i => Some i
  | None => option_map (Nat.add (String.length a)) (indexByte c b)
  end.
Proof.
  induction a as [|d a IH].
  - rewrite str_app_nil_l. cbn. by destruct (indexByte c b).
  - rewrite str_app_cons. cbn. destruct (d =? c)%char; [done|]. rewrite IH.
    destruct (indexByte c a); [done|]. by destruct (indexByte c b).
Qed.

Lemma indexByte_app_none c a b :
  indexByte c b = None → indexByte c (a +:+ b) = indexByte c a.
Proof. intros Hb. rewrite indexByte_app, Hb. by destruct (indexByte c a). Qed.

Lemma lastIndexByte_app_none c a b :
  lastIndexByte c b = None → lastIndexByte c (a +:+ b) = lastIndexByte c a.
Proof.
  intros Hb. induction a as [|d a IH]; [done|].
  rewrite str_app_cons. cbn. by rewrite IH.
Qed.

Lemma lastByte_app a b : b ≠ "" → lastByte (a +:+ b) = lastByte b.
Proof.
  intros Hb. induction a as [|d a IH]; [done|].
  rewrite str_app_cons. cbn. rewrite IH.
  destruct b as [|e b]; [done|]. cbn. by destruct (lastByte b).
Qed.

Lemma drop_last s :
  drop (String.length s - 1) s =
  match lastByte s with Some d => String d "" | None => "" end.
Proof.
  induction s as [|d s IH]; [done|].
  cbn [String.length lastByte]. replace (S (String.length s) - 1) with (String.length s) by lia.
  destruct s as [|e s]; [done|].
  cbn [String.length drop]. cbn [String.length] in IH.
  replace (S (String.length s) - 1) with (String.length s) in IH by lia.
  rewrite IH. destruct (lastByte (String e s)) eqn:Hl; [done|].
  cbn in Hl. by destruct (lastByte s).
Qed.

Lemma HasSuffix_byte c s :
  HasSuffix s (String c "") =
  match lastByte s with Some d => (d =? c)%char | None => false end.
Proof.
  unfold HasSuffix. cbn [String.length]. rewrite drop_last.
  destruct s as [|e s]; [done|].
  replace (1 <=? String.length (String e s))%nat with true by (cbn; done).
  destruct (lastByte (String e s)) as [d|] eqn:Hl; [|by destruct (lastByte s)].
  cbn. by destruct (d =? c)%char.
Qed.

Lemma lastByte_inv s d : lastByte s = Some d → ∃ a, s = a +:+ String d "".
Proof.
  revert d. induction s as [|e s IH]; intros d; [done|]. cbn.
  destruct (lastByte s) as [f|] eqn:Hl.
  - intros [= ->]. destruct (IH d eq_refl) as [a ->]. by exists (String e a).
  - intros [= ->]. destruct s; [by exists "" | cbn in Hl; by destruct (lastByte s)].
Qed.

Lemma CountByte_app a b c : CountByte (a +:+ b) c = CountByte a c + CountByte b c.
Proof.
  induction a as [|d a IH]; [done|]. rewrite str_app_cons. cbn. rewrite IH. lia.
Qed.

Lemma CountByte_0 s c : CountByte s c = 0 → indexByte c s = None.
Proof.
  induction s as [|d s IH]; [done|]. cbn. destruct (d =? c)%char; [done|].
  intros H. by rewrite IH.
Qed.

Lemma indexByte_snoc a c : indexByte c a = None → indexByte c (a +:+ String c "") = Some (String.length a).
Proof.
  intros Ha. rewrite indexByte_app, Ha. cbn. rewrite Ascii.eqb_refl. cbn.
  f_equal. lia.
Qed.

End ByteFacts.

(** ** The unwanted suffix and the steps of parse *)

Section SuffixFacts.

Import GoStrings NetURL.

Implicit Types (a b s r p : string) (c d : ascii) (i n : nat).

Local Abbreviation σ := MainGo.unwantedSuffix.

Lemma suffix_lastByte a : lastByte (a +:+ σ) = Some ";"%char.
Proof. by rewrite lastByte_app. Qed.

Lemma suffix_not_HasSuffix a c : (";" =? c)%char = false → HasSuffix (a +:+ σ) (String c "") = false.
Proof. intros Hc. by rewrite HasSuffix_byte, suffix_lastByte. Qed.

Lemma stringContainsCTLByte_app a b :
  stringContainsCTLByte (a +:+ b) = stringContainsCTLByte a || stringContainsCTLByte b.
Proof.
  induction a as [|c a IH]; [done|]. rewrite str_app_cons. cbn [stringContainsCTLByte].
  by rewrite IH, orb_assoc.
Qed.

Lemma schemeEnd_suffix a : ∀ i, schemeEnd i (a +:+ σ) = schemeEnd i a.
Proof.
  induction a as [|c a IH]; intros i; [reflexivity|].
  rewrite str_app_cons. cbn [schemeEnd]. by rewrite !IH.
Qed.

Lemma schemeEnd_bound s : ∀ k i, schemeEnd k s = Ok (Some i) → k ≤ i < k + String.length s.
Proof.
  induction s as [|c s IH]; intros k i; cbn [schemeEnd String.length]; [done|].
  destruct (isLetter c).
  { intros H%IH. lia. }
  destruct (isDigit c || oneOf c "+-.").
  { destruct (k =? 0)%nat; [done|]. intros H%IH. lia. }
  destruct (c =? ":")%char; [|done].
  destruct (k =? 0)%nat; [done|]. intros [= <-]. lia.
Qed.

Lemma getScheme_suffix a :
  getScheme (a +:+ σ) =
  match getScheme a with
  | Ok (scheme, rest) => Ok (scheme, rest +:+ σ)
  | Err e => Err e
  end.
Proof.
  unfold getScheme. rewrite schemeEnd_suffix.
  destruct (schemeEnd 0 a) as [[i|]|e] eqn:He; cbn [rbind]; [|done..].
  apply schemeEnd_bound in He.
  rewrite str_take_app_le, str_drop_app_le by lia. done.
Qed.

Lemma splitQuery_no_query r :
  indexByte "?" r = None → splitQuery r = (r, "", false).
Proof.
  intros Hq. unfold splitQuery, Cut. rewrite Index_byte, Hq, HasSuffix_byte.
  destruct (lastByte r) as [d|] eqn:Hl; [|done].
  destruct (Ascii.eqb_spec d "?") as [->|_]; [|done].
  apply lastByte_inv in Hl as [a ->].
  rewrite indexByte_app in Hq. destruct (indexByte "?" a); done.
Qed.

Lemma splitQuery_suffix_no_query r :
  indexByte "?" r = None → splitQuery (r +:+ σ) = (r +:+ σ, "", false).
Proof.
  intros Hq. apply splitQuery_no_query. by rewrite indexByte_app_none.
Qed.

Lemma splitQuery_query r j :
  indexByte "?" r = Some j → ∃ q f, splitQuery r = (take j r, q, f).
Proof.
  intros Hq. unfold splitQuery, Cut. rewrite Index_byte, Hq, HasSuffix_byte.
  destruct (lastByte r) as [d|] eqn:Hl; [|by eauto].
  destruct (Ascii.eqb_spec d "?") as [->|_]; [|by eauto].
  destruct (CountByte r "?" =? 1)%nat eqn:Hc; [|by eauto]. cbn [andb].
  apply lastByte_inv in Hl as [a ->]. apply Nat.eqb_eq in Hc.
  rewrite CountByte_app in Hc. cbn in Hc.
  assert (Ha : indexByte "?" a = None) by (apply CountByte_0; lia).
  rewrite indexByte_snoc in Hq by done. injection Hq as <-.
  rewrite str_app_length. cbn [String.length].
  replace (String.length a + 1 - 1) with (String.length a) by lia. by eauto.
Qed.

Lemma splitQuery_suffix_query r j :
  indexByte "?" r = Some j → ∃ q, splitQuery (r +:+ σ) = (take j r, q, false).
Proof.
  intros Hq. unfold splitQuery, Cut.
  rewrite suffix_not_HasSuffix by done. cbn [andb].
  rewrite Index_byte, indexByte_app, Hq.
  rewrite str_take_app_le by (apply indexByte_lt in Hq; lia). by eauto.
Qed.

(** *** Escapes *)

Lemma escape_ind (P : string → Prop) :
  P "" →
  (∀ c s, (c =? "%")%char = false → P s → P (String c s)) →
  (∀ h1 h2 s, P s → P (String "%" (String h1 (String h2 s)))) →
  P "%" →
  (∀ h1, P (String "%" (String h1 ""))) →
  ∀ s, P s.
Proof.
  intros Hnil Hplain Hesc H1 H2. fix IH 1. intros [|c s]; [exact Hnil|].
  destruct (c =? "%")%char eqn:Hc.
  - apply Ascii.eqb_eq in Hc as ->.
    destruct s as [|h1 [|h2 s]]; [exact H1 | apply H2 | apply Hesc, IH].
  - apply Hplain; [exact Hc | apply IH].
Qed.

Lemma unescapeScan_suffix mode a : ∀ n hasPlus,
  isOk (unescapeScan (a +:+ σ) mode n hasPlus) = true →
  isOk (unescapeScan a mode n hasPlus) = true.
Proof.
  induction a as [|c a Hc IH|h1 h2 a IH| |h1] using escape_ind; intros n hasPlus.
  - done.
  - rewrite str_app_cons. cbn [unescapeScan]. rewrite Hc.
    destruct (c =? "+")%char; [apply IH|].
    destruct (_ && _); [done | apply IH].
  - rewrite !str_app_cons. cbn [unescapeScan]. rewrite Ascii.eqb_refl.
    cbn [take]. repeat (destruct (_ || _) || destruct (_ && _)); try done; apply IH.
  - vm_compute. done.
  - rewrite !str_app_cons, str_app_nil_l. unfold MainGo.unwantedSuffix.
    cbn. by rewrite orb_true_r.
Qed.

Lemma unescapeBuild_suffix mode a : ∀ n hasPlus,
  isOk (unescapeScan (a +:+ σ) mode n hasPlus) = true →
  unescapeBuild (a +:+ σ) mode = unescapeBuild a mode +:+ σ.
Proof.
  induction a as [|c a Hc IH|h1 h2 a IH| |h1] using escape_ind; intros n hasPlus.
  - intros _. by destruct mode.
  - rewrite str_app_cons. cbn [unescapeScan unescapeBuild]. rewrite Hc.
    destruct (c =? "+")%char; [intros H%IH; by rewrite H|].
    destruct (_ && _); [done | intros H%IH; by rewrite H].
  - rewrite !str_app_cons. cbn [unescapeScan unescapeBuild]. rewrite Ascii.eqb_refl.
    cbn [take].
    repeat (destruct (_ || _) || destruct (_ && _)); try done; intros H%IH; by rewrite H.
  - vm_compute. done.
  - rewrite !str_app_cons, str_app_nil_l. unfold MainGo.unwantedSuffix.
    cbn. by rewrite orb_true_r.
Qed.

Lemma unescape_suffix mode a :
  isOk (unescape (a +:+ σ) mode) = true → isOk (unescape a mode) = true.
Proof.
  unfold unescape. intros H.
  assert (H' : isOk (unescapeScan (a +:+ σ) mode 0 false) = true).
  { destruct (unescapeScan (a +:+ σ) mode 0 false); done. }
  apply unescapeScan_suffix in H'.
  destruct (unescapeScan a mode 0 false) as [[n hp]|]; [|done]. cbn.
  by destruct (_ && _).
Qed.

Lemma unescape_suffix_result mode a r :
  unescape (a +:+ σ) mode = Ok r → ∃ r', r = r' +:+ σ.
Proof.
  unfold unescape. destruct (unescapeScan (a +:+ σ) mode 0 false) as [[n hp]|] eqn:Hs; [|done].
  cbn. destruct (_ && _); intros [= <-]; [by eauto|].
  exists (unescapeBuild a mode). apply (unescapeBuild_suffix mode a 0 false). by rewrite Hs.
Qed.

Lemma setPath_suffix u0 a u :
  setPath u0 (a +:+ σ) = Ok u → ∃ u', setPath u0 a = Ok u' ∧ Host u' = Host u.
Proof.
  unfold setPath. intros H.
  assert (Hok : isOk (unescape a encodePath) = true).
  { apply unescape_suffix. destruct (unescape (a +:+ σ) encodePath); done. }
  destruct (unescape (a +:+ σ) encodePath) as [path|]; [|done].
  destruct (unescape a encodePath) as [path'|]; [|done].
  cbn in *. injection H as <-. by eauto.
Qed.

Lemma setPath_Host u0 p u : setPath u0 p = Ok u → Host u = Host u0 ∧ Scheme u = Scheme u0.
Proof.
  unfold setPath. destruct (unescape p encodePath); [|done]. cbn. by intros [= <-].
Qed.

Lemma setFragment_Host u0 f u : setFragment u0 f = Ok u → Host u = Host u0 ∧ Scheme u = Scheme u0.
Proof.
  unfold setFragment. destruct (unescape f encodeFragment); [|done]. cbn. by intros [= <-].
Qed.

Lemma setFragment_suffix u0 a u :
  setFragment u0 (a +:+ σ) = Ok u → ∃ u', setFragment u0 a = Ok u'.
Proof.
  unfold setFragment. intros H.
  assert (Hok : isOk (unescape a encodeFragment) = true).
  { apply unescape_suffix. destruct (unescape (a +:+ σ) encodeFragment); done. }
  destruct (unescape a encodeFragment) as [frag|]; [|done]. cbn. by eauto.
Qed.

End SuffixFacts.

(** ** The host of a stripped URL *)

Section StrippedHost.

Import GoStrings NetURL.

Implicit Types (a b s r p : string) (c d : ascii) (i n : nat).

Local Abbreviation σ := MainGo.unwantedSuffix.

Lemma HasPrefix_nil s : HasPrefix s "" = true.
Proof. apply prefix_nil. Qed.

Lemma HasPrefix_cons d s c pre :
  HasPrefix (String d s) (String c pre) = (d =? c)%char && HasPrefix s pre.
Proof.
  unfold HasPrefix. cbn. destruct (ascii_dec c d) as [->|Hne].
  - by rewrite Ascii.eqb_refl.
  - destruct (Ascii.eqb_spec d c); [congruence | done].
Qed.

Lemma HasPrefix_length s : ∀ pre, HasPrefix s pre = true → (String.length pre ≤ String.length s)%nat.
Proof.
  induction s as [|d s IH]; intros [|c pre]; cbn [String.length]; try done; try lia.
  rewrite HasPrefix_cons. intros [_ H%IH]%andb_true_iff. lia.
Qed.

Lemma HasPrefix_suffix_step pre :
  (∀ r, HasPrefix (r +:+ σ) pre = HasPrefix r pre) →
  ∀ r, HasPrefix (r +:+ σ) (String "/" pre) = HasPrefix r (String "/" pre).
Proof.
  intros IH [|c r]; [done|]. by rewrite str_app_cons, !HasPrefix_cons, IH.
Qed.

Lemma HasPrefix_suffix_1 r : HasPrefix (r +:+ σ) "/" = HasPrefix r "/".
Proof. revert r. apply HasPrefix_suffix_step. intros r. by rewrite !HasPrefix_nil. Qed.

Lemma HasPrefix_suffix_2 r : HasPrefix (r +:+ σ) "//" = HasPrefix r "//".
Proof. revert r. apply HasPrefix_suffix_step. apply HasPrefix_suffix_1. Qed.

Lemma HasPrefix_suffix_3 r : HasPrefix (r +:+ σ) "///" = HasPrefix r "///".
Proof. revert r. apply HasPrefix_suffix_step. apply HasPrefix_suffix_2. Qed.

Lemma hasAuthority_suffix scheme r via :
  hasAuthority scheme (r +:+ σ) via = hasAuthority scheme r via.
Proof. unfold hasAuthority. by rewrite HasPrefix_suffix_2, HasPrefix_suffix_3. Qed.

Lemma hasAuthority_prefix scheme r via :
  hasAuthority scheme r via = true → HasPrefix r "//" = true ∧ HasPrefix r "/" = true.
Proof.
  unfold hasAuthority. intros [_ H]%andb_true_iff. split; [done|].
  destruct r as [|c r]; [done|]. rewrite HasPrefix_cons in H.
  apply andb_true_iff in H as [H _]. by rewrite HasPrefix_cons, H, HasPrefix_nil.
Qed.

Lemma allDigits_suffix a : allDigits (a +:+ σ) = false.
Proof.
  induction a as [|c a IH]; [done|]. rewrite str_app_cons. cbn. rewrite IH.
  by destruct (_ || _).
Qed.

Lemma validOptionalPort_suffix a : validOptionalPort (a +:+ σ) = false.
Proof.
  destruct a as [|c a]; [done|]. rewrite str_app_cons. cbn.
  rewrite allDigits_suffix. by destruct (negb _).
Qed.

Lemma parseHost_suffix h host :
  parseHost (h +:+ σ) = Ok host → ∃ host', host = host' +:+ σ.
Proof.
  unfold parseHost. rewrite !LastIndex_byte. rewrite !lastIndexByte_app_none by done.
  destruct (HasPrefix (h +:+ σ) "[").
  - destruct (lastIndexByte "]" h) as [i|] eqn:Hi; [|done].
    apply lastIndexByte_lt in Hi.
    rewrite str_drop_app_le by lia. by rewrite validOptionalPort_suffix.
  - destruct (lastIndexByte ":" h) as [i|] eqn:Hi.
    + apply lastIndexByte_lt in Hi.
      rewrite str_drop_app_le by lia. by rewrite validOptionalPort_suffix.
    + apply unescape_suffix_result.
Qed.

Lemma parseAuthority_suffix a user host :
  parseAuthority (a +:+ σ) = Ok (user, host) → ∃ host', host = host' +:+ σ.
Proof.
  unfold parseAuthority. rewrite LastIndex_byte, lastIndexByte_app_none by done.
  destruct (lastIndexByte "@" a) as [i|] eqn:Hi.
  - apply lastIndexByte_lt in Hi. rewrite str_drop_app_le by lia.
    destruct (parseHost (drop (i + 1) a +:+ σ)) as [host0|] eqn:Hh; [|done].
    apply parseHost_suffix in Hh as [host' ->]. cbn [rbind].
    destruct (negb _); [done|]. destruct (negb _).
    + destruct (unescape _ _); [|done]. cbn. intros [= _ <-]. by eauto.
    + destruct (Cut _ _) as [[username password] found].
      destruct (unescape username _); [|done]. cbn.
      destruct (unescape password _); [|done]. cbn. intros [= _ <-]. by eauto.
  - destruct (parseHost (a +:+ σ)) as [host0|] eqn:Hh; [|done].
    apply parseHost_suffix in Hh as [host' ->]. cbn. intros [= _ <-]. by eauto.
Qed.

Lemma Hostname_suffix_host u host' : Host u = host' +:+ σ → Hostname u = host' +:+ σ.
Proof.
  intros Hh. unfold Hostname, splitHostPort. rewrite Hh.
  rewrite LastIndex_byte, lastIndexByte_app_none by done.
  destruct (lastIndexByte ":" host') as [colon|] eqn:Hc.
  - apply lastIndexByte_lt in Hc. rewrite str_drop_app_le by lia.
    rewrite validOptionalPort_suffix.
    by rewrite suffix_not_HasSuffix, andb_false_r.
  - by rewrite suffix_not_HasSuffix, andb_false_r.
Qed.

Lemma suffix_not_allowed a : a +:+ σ ∉ validDomains.
Proof.
  unfold validDomains. rewrite !elem_of_cons, elem_of_nil.
  intros [H|[H|[H|[H|[]]]]]; apply (f_equal lastByte) in H;
    rewrite suffix_lastByte in H; discriminate H.
Qed.

Lemma allowed_Host_nonempty u : Hostname u ∈ validDomains → Host u ≠ "".
Proof.
  intros Hin Hh. unfold Hostname in Hin. rewrite Hh in Hin. cbn in Hin.
  unfold validDomains in Hin. rewrite !elem_of_cons, elem_of_nil in Hin.
  by destruct Hin as [H|[H|[H|[H|[]]]]].
Qed.

Lemma setPath_any u0 u0' p u :
  setPath u0 p = Ok u → ∃ u', setPath u0' p = Ok u' ∧ Host u' = Host u0'.
Proof.
  unfold setPath. destruct (unescape p encodePath); [|done]. cbn. by eauto.
Qed.

(** [parse] finds a host only through the authority. *)
Lemma parseTail_host_inv scheme rest q f via u :
  parseTail scheme rest q f via = Ok u → Host u ≠ "" →
  hasAuthority scheme rest via = true
  ∧ ∃ user host,
      parseAuthority (fst (splitAuthority (drop 2 rest))) = Ok (user, host)
      ∧ setPath (mkURL scheme "" user host "" "" false f q "" "")
                (snd (splitAuthority (drop 2 rest))) = Ok u.
Proof.
  intros H Hhost.
  assert (Hwa : parseWithAuthority scheme rest q f via = Ok u).
  { unfold parseTail in H. destruct (negb (HasPrefix rest "/")); [|done].
    destruct (negb (String.eqb scheme "")); [by injection H as <-|].
    destruct via; [done|]. destruct (Cut rest "/") as [[segment ?] ?].
    by destruct (Contains segment ":"). }
  clear H. unfold parseWithAuthority, parseAuthorityStep in Hwa.
  destruct (hasAuthority scheme rest via).
  - split; [done|]. destruct (splitAuthority (drop 2 rest)) as [authority rest1]. cbn.
    destruct (parseAuthority authority) as [[user host]|]; [|done]. by eauto.
  - destruct (_ && _); cbn in Hwa; apply setPath_Host in Hwa as [Hh _]; by rewrite Hh in Hhost.
Qed.

Lemma parseTail_host_intro scheme rest q f via :
  hasAuthority scheme rest via = true →
  parseTail scheme rest q f via =
  (let? (user, host) := parseAuthority (fst (splitAuthority (drop 2 rest))) in
   setPath (mkURL scheme "" user host "" "" false f q "" "")
           (snd (splitAuthority (drop 2 rest))))%result.
Proof.
  intros Ha. unfold parseTail, parseWithAuthority, parseAuthorityStep. rewrite Ha.
  apply hasAuthority_prefix in Ha as [_ ->]. cbn [negb].
  destruct (splitAuthority (drop 2 rest)) as [authority rest1]. cbn.
  by destruct (parseAuthority authority) as [[user host]|].
Qed.

Lemma parseTail_query_irrelevant scheme rest q f q' f' via u :
  parseTail scheme rest q f via = Ok u → Host u ≠ "" →
  ∃ u', parseTail scheme rest q' f' via = Ok u' ∧ Host u' = Host u.
Proof.
  intros H Hhost. apply parseTail_host_inv in H as (Ha & user & host & Hp & Hs); [|done].
  rewrite (parseTail_host_intro _ _ _ _ _ Ha), Hp. cbn.
  pose proof (setPath_Host _ _ _ Hs) as [Hh _].
  apply (setPath_any _ (mkURL scheme "" user host "" "" false f' q' "" "")) in Hs
    as (u' & Hs' & Hh').
  exists u'. split; [done|]. by rewrite Hh', Hh.
Qed.

Lemma splitAuthority_suffix a :
  splitAuthority (a +:+ σ) =
  match indexByte "/" a with
  | Some i => (take i a, drop i a +:+ σ)
  | None => (a +:+ σ, "")
  end.
Proof.
  unfold splitAuthority. rewrite Index_byte, indexByte_app_none by done.
  destruct (indexByte "/" a) as [i|] eqn:Hi; [|done].
  apply indexByte_lt in Hi. by rewrite str_take_app_le, str_drop_app_le by lia.
Qed.

Lemma splitAuthority_byte a :
  splitAuthority a =
  match indexByte "/" a with
  | Some i => (take i a, drop i a)
  | None => (a, "")
  end.
Proof. unfold splitAuthority. by rewrite Index_byte. Qed.

Lemma parseTail_suffix scheme r q f q' f' u :
  parseTail scheme (r +:+ σ) q f false = Ok u → Hostname u ∈ validDomains →
  ∃ u', parseTail scheme r q' f' false = Ok u' ∧ Host u' = Host u.
Proof.
  intros H Hallowed. pose proof (allowed_Host_nonempty _ Hallowed) as Hhost.
  apply parseTail_host_inv in H as (Ha & user & host & Hp & Hs); [|done].
  rewrite hasAuthority_suffix in Ha.
  rewrite (parseTail_host_intro _ _ _ _ _ Ha).
  pose proof (hasAuthority_prefix _ _ _ Ha) as [Hpre%HasPrefix_length _].
  cbn [String.length] in Hpre.
  rewrite str_drop_app_le, splitAuthority_suffix in Hp, Hs by done.
  rewrite splitAuthority_byte.
  pose proof (setPath_Host _ _ _ Hs) as [Hh _]. cbn in Hh.
  destruct (indexByte "/" (drop 2 r)) as [i|]; cbn [fst snd] in *.
  - rewrite Hp. cbn.
    destruct (setPath_suffix _ _ _ Hs) as (u1 & Hs1 & _).
    apply (setPath_any _ (mkURL scheme "" user host "" "" false f' q' "" "")) in Hs1
      as (u' & Hs' & Hh').
    exists u'. split; [done|]. by rewrite Hh', Hh.
  - apply parseAuthority_suffix in Hp as [host' ->].
    rewrite (Hostname_suffix_host u host' Hh) in Hallowed.
    by apply suffix_not_allowed in Hallowed.
Qed.

Lemma parse_suffix p u :
  parse (p +:+ σ) false = Ok u → Hostname u ∈ validDomains →
  ∃ u', parse p false = Ok u' ∧ Host u' = Host u.
Proof.
  intros H Hallowed. pose proof (allowed_Host_nonempty _ Hallowed) as Hhost.
  destruct (String.eqb p "*") eqn:Hstar.
  { apply String.eqb_eq in Hstar as ->. vm_compute in H. injection H as <-. done. }
  rewrite parse_unfold in H |- *. rewrite Hstar.
  rewrite stringContainsCTLByte_app in H.
  destruct (stringContainsCTLByte p); [done|]. cbn [orb] in H.
  destruct (stringContainsCTLByte σ); [done|].
  rewrite andb_false_r in H |- *.
  destruct (String.eqb (p +:+ σ) "*"); [by injection H as <-|].
  rewrite getScheme_suffix in H.
  destruct (getScheme p) as [[scheme0 rest0]|]; [|done]. cbn [rbind] in H |- *.
  destruct (indexByte "?" rest0) as [j|] eqn:Hq.
  - destruct (splitQuery_suffix_query _ _ Hq) as [q Hsq].
    destruct (splitQuery_query _ _ Hq) as (q' & f' & Hsq').
    rewrite Hsq in H. rewrite Hsq'.
    by apply (parseTail_query_irrelevant _ _ q false).
  - rewrite (splitQuery_suffix_no_query _ Hq) in H. rewrite (splitQuery_no_query _ Hq).
    by apply (parseTail_suffix _ _ "" false).
Qed.

Lemma suffix_not_empty a : String.eqb (a +:+ σ) "" = false.
Proof. by destruct a. Qed.

(** The heart of domain-filter soundness for the suffix-stripping variant:
    when a URL that ends with the unwanted suffix has an allowed host
    name, the suffix lies beyond the authority, and the stripped URL
    parses with the same host. *)
Lemma Parse_suffix p u :
  Parse (p +:+ σ) = Ok u → Hostname u ∈ validDomains →
  ∃ u', Parse p = Ok u' ∧ Hostname u' = Hostname u.
Proof.
  intros H Hallowed.
  enough (∃ u', Parse p = Ok u' ∧ Host u' = Host u) as (u' & Hp & Hh).
  { exists u'. split; [done|]. unfold Hostname. by rewrite Hh. }
  unfold Parse, Cut in H |- *. rewrite Index_byte in H |- *.
  rewrite indexByte_app in H.
  destruct (indexByte "#" p) as [i|] eqn:Hi.
  - apply indexByte_lt in Hi. cbn [String.length] in H |- *.
    rewrite str_take_app_le, str_drop_app_le in H by lia.
    destruct (parse (take i p) false) as [url|]; [|done].
    rewrite suffix_not_empty in H.
    destruct (setFragment url (drop (i + 1) p +:+ σ)) as [url1|] eqn:Hf; [|done].
    injection H as <-. pose proof (setFragment_Host _ _ _ Hf) as [Hh _].
    destruct (String.eqb (drop (i + 1) p) ""); [by eauto|].
    apply setFragment_suffix in Hf as [u' Hf']. rewrite Hf'.
    exists u'. split; [done|]. apply setFragment_Host in Hf' as [-> _]. done.
  - cbn in H. destruct (parse (p +:+ σ) false) as [url|] eqn:Hp; [|done].
    injection H as <-. apply parse_suffix in Hp as (u' & -> & Hh); [|done].
    cbn. by eauto.
Qed.

End StrippedHost.

(** ** The domain filter *)

Section DomainFilter.

Import GoStrings NetURL.

Implicit Types (a b s p : string) (urls acc out : list string) (w : World).

Local Abbreviation σ := MainGo.unwantedSuffix.

Lemma MainGo_cleanURL : MainGo.cleanURL = cleanURLWith stripSuffix.
Proof. reflexivity. Qed.

Lemma Part000_cleanURL : Part000.cleanURL = cleanURLWith id.
Proof. reflexivity. Qed.

Lemma domainLoop_elem h ds : ∀ isValid : bool,
  domainLoop h ds isValid = true ↔ h ∈ ds ∨ isValid = true.
Proof.
  induction ds as [|d ds IH]; intros isValid; cbn.
  - rewrite elem_of_nil. tauto.
  - rewrite elem_of_cons. destruct (String.eqb_spec h d) as [->|Hne].
    + tauto.
    + rewrite IH. tauto.
Qed.

Lemma domainLoop_allowed h : domainLoop h validDomains false = true ↔ h ∈ validDomains.
Proof. rewrite domainLoop_elem. split; [by intros [?|?] | by left]. Qed.

Lemma cleanURLWith_step strip s acc w :
  cleanURLWith strip s acc w =
  if isUrlValid s then
    match Parse s with
    | Err err => (Exit 1, setLog w (os_log w ++ [errorText err +:+ newline]))
    | Ok u =>
        if domainLoop (Hostname u) validDomains false
        then (Return (acc ++ [strip s]), w)
        else (Return acc,
              setLog w (os_log w ++ ["Invalid domain skipped:  " +:+ Hostname u +:+ newline]))
    end
  else (Return acc, w).
Proof.
  unfold cleanURLWith. destruct (isUrlValid s); [|done].
  unfold bind, getHostNameFromURL. destruct (Parse s) as [u|err]; [|done].
  unfold ret. by destruct (domainLoop (Hostname u) validDomains false).
Qed.

Lemma cleanURLWith_loop strip urls : ∀ acc w out w',
  forRange urls (cleanURLWith strip) acc w = (Return out, w') →
  out = acc ++ omap (keepWith strip) urls.
Proof.
  induction urls as [|s urls IH]; intros acc w out w'; cbn [forRange omap list_omap].
  - intros [= <- <-]. by rewrite app_nil_r.
  - unfold bind at 1. rewrite cleanURLWith_step. unfold keepWith.
    destruct (isUrlValid s); [|by apply IH].
    destruct (Parse s) as [u|err]; [|done].
    destruct (domainLoop _ _ _); [|by apply IH].
    intros ->%IH. by rewrite <- app_assoc.
Qed.

Lemma cleanURLWith_returns strip urls : ∀ acc w,
  forallb survives urls = true →
  ∃ out w', forRange urls (cleanURLWith strip) acc w = (Return out, w').
Proof.
  induction urls as [|s urls IH]; intros acc w; cbn [forRange forallb].
  - by eexists _, _.
  - intros [Hs Hrest]%andb_true_iff. unfold bind at 1. rewrite cleanURLWith_step.
    unfold survives in Hs. destruct (isUrlValid s); [|by apply IH].
    destruct (Parse s) as [u|err]; [|done].
    destruct (domainLoop _ _ _); by apply IH.
Qed.

Lemma HasSuffix_split s t : HasSuffix s t = true → s = TrimSuffix s t +:+ t.
Proof.
  unfold TrimSuffix. intros H. rewrite H. unfold HasSuffix in H.
  apply andb_true_iff in H as [_ H%String.eqb_eq].
  set (n := String.length s - String.length t) in *.
  transitivity (take n s +:+ drop n s); [by rewrite str_take_drop | by rewrite H].
Qed.

Lemma TrimSuffix_app p t : TrimSuffix (p +:+ t) t = p.
Proof.
  unfold TrimSuffix, HasSuffix. rewrite str_app_length.
  replace (String.length p + String.length t - String.length t) with (String.length p) by lia.
  rewrite str_drop_app_le, str_drop_all, str_app_nil_l, String.eqb_refl by lia.
  replace (String.length t <=? String.length p + String.length t)%nat with true
    by (symmetry; apply Nat.leb_le; lia).
  cbn. by rewrite str_take_app_le, str_take_all by lia.
Qed.

Lemma TrimSuffix_cases s t : TrimSuffix s t = s ∨ s = TrimSuffix s t +:+ t.
Proof.
  destruct (HasSuffix s t) eqn:H.
  - right. by apply HasSuffix_split.
  - left. unfold TrimSuffix. by rewrite H.
Qed.

(** C1: every string cleanURLs returns parses as a URL whose host name is
    one of the four allowed names, compared as exact strings.  In
    src/main.go the returned string is the stripped one; its host is the
    host that was checked. *)
Theorem cleanURLs_allowed_hosts urls w out w' :
  MainGo.cleanURLs urls w = (Return out, w')
  ∨ Part000.cleanURLs urls w = (Return out, w') →
  ∀ s, s ∈ out → ∃ u, Parse s = Ok u ∧ Hostname u ∈ validDomains.
Proof.
  intros Hrun s Hs.
  assert (Hkept : ∃ x, (keepWith stripSuffix x = Some s ∨ keepWith id x = Some s)) .
  { destruct Hrun as [Hrun|Hrun];
      [unfold MainGo.cleanURLs in Hrun; rewrite MainGo_cleanURL in Hrun
      |unfold Part000.cleanURLs in Hrun; rewrite Part000_cleanURL in Hrun];
      apply cleanURLWith_loop in Hrun; subst out; cbn in Hs;
      apply list_elem_of_omap in Hs as (x & _ & Hx); eauto. }
  destruct Hkept as [x Hx].
  assert (Hcases : ∃ u, Parse x = Ok u ∧ Hostname u ∈ validDomains
                        ∧ (s = x ∨ s = TrimSuffix x σ)).
  { unfold keepWith in Hx. destruct (isUrlValid x); [|by destruct Hx].
    destruct (Parse x) as [u|]; [|by destruct Hx].
    destruct (domainLoop _ _ _) eqn:Hd; [|by destruct Hx].
    apply domainLoop_allowed in Hd. exists u. split; [done|]. split; [done|].
    destruct Hx as [[= <-]|[= <-]]; [by right | by left]. }
  destruct Hcases as (u & Hp & Hallowed & [->| ->]); [by eauto|].
  destruct (TrimSuffix_cases x σ) as [->|Hsplit]; [by eauto|].
  rewrite Hsplit in Hp. destruct (Parse_suffix _ _ Hp Hallowed) as (u' & Hp' & Hh).
  exists u'. split; [done|]. by rewrite Hh.
Qed.

Lemma cleanURLs_allowed_hosts_witness :
  ∃ u, Parse "https://documentcloud.org/y" = Ok u ∧ Hostname u ∈ validDomains.
Proof.
  apply (cleanURLs_allowed_hosts mixedURLs emptyWorld
           (match fst (MainGo.cleanURLs mixedURLs emptyWorld) with
            | Return l => l
            | Exit _ => []
            end)
           (snd (MainGo.cleanURLs mixedURLs emptyWorld))).
  - left. vm_compute. reflexivity.
  - vm_compute. apply list_elem_of_In. cbn. tauto.
Defined.

Lemma cleanURLs_drops_suffixed_host :
  fst (MainGo.cleanURLs [suffixedHostURL] emptyWorld) = Return []
  ∧ match Parse (TrimSuffix suffixedHostURL σ) with
    | Ok u => Hostname u = "documentcloud.org"
    | Err _ => False
    end.
Proof. split; vm_compute; reflexivity. Qed.

End DomainFilter.

(** ** The fatal branch of getHostNameFromURL *)

Section FatalBranch.

Import GoStrings NetURL.

Implicit Types (a b s p : string) (urls acc out : list string) (w : World).

Local Abbreviation σ := MainGo.unwantedSuffix.

Lemma parseTail_Scheme scheme rest q f via u :
  parseTail scheme rest q f via = Ok u → Scheme u = scheme.
Proof.
  assert (Hwa : parseWithAuthority scheme rest q f via = Ok u → Scheme u = scheme).
  { unfold parseWithAuthority.
    destruct (parseAuthorityStep scheme rest via) as [[[[user host] rest1] omit]|]; [|done].
    cbn. by intros [_ ->]%setPath_Host. }
  unfold parseTail. destruct (negb (HasPrefix rest "/")); [|done].
  destruct (negb (String.eqb scheme "")); [by intros [= <-]|].
  destruct via; [done|]. destruct (Cut rest "/") as [[segment ?] ?].
  by destruct (Contains segment ":").
Qed.

Lemma parseTail_absolute scheme rest q f :
  scheme ≠ "" → parseTail scheme rest q f true = parseTail scheme rest q f false.
Proof.
  intros Hs. unfold parseTail, parseWithAuthority, parseAuthorityStep, hasAuthority.
  destruct (String.eqb_spec scheme "") as [->|_]; done.
Qed.

(** A request URI with a scheme is parsed by [parse] in the same way
    whether or not it comes from a request. *)
Lemma parse_absolute s u :
  parse s true = Ok u → Scheme u ≠ "" → parse s false = Ok u.
Proof.
  rewrite !parse_unfold. destruct (stringContainsCTLByte s); [done|].
  destruct (String.eqb s ""); [done|]. cbn [andb].
  destruct (String.eqb s "*"); [by intros [= <-]|].
  destruct (getScheme s) as [[scheme0 rest0]|]; [|done]. cbn [rbind].
  destruct (splitQuery rest0) as [[rest q] f]. intros H Hs.
  rewrite <- parseTail_absolute; [done|].
  apply parseTail_Scheme in H. congruence.
Qed.

(** Without a fragment separator, [Parse] is [parse]. *)
Lemma Parse_no_fragment s :
  Contains s "#" = false →
  Parse s = match parse s false with
            | Ok url => Ok url
            | Err e => Err (mkError "parse" s e)
            end.
Proof.
  unfold Parse, Cut, Contains. destruct (Index s "#"); [done|]. intros _.
  by destruct (parse s false).
Qed.

(** C7 as stated fails: a string isUrlValid accepts makes url.Parse fail,
    getHostNameFromURL takes its fatal branch and cleanURLs ends the
    process.  The string survives extraction unchanged, so the pipeline
    hands it to cleanURLs. *)
Lemma isUrlValid_Parse_counterexample :
  ¬ (∀ s, isUrlValid s = true →
          isOk (Parse s) = true
          ∧ ∀ w, ∃ out w', MainGo.cleanURLs [s] w = (Return out, w')).
Proof.
  intros H. destruct (H fragmentURL) as [Hparse _]; [by vm_compute|].
  vm_compute in Hparse. discriminate Hparse.
Qed.

Lemma fragmentURL_reaches_cleanURLs :
  keptOf (Regexp.FindAllString re fragmentURL) = [fragmentURL]
  ∧ fst (MainGo.cleanURLs [fragmentURL] emptyWorld) = Exit 1
  ∧ fst (Part000.cleanURLs [fragmentURL] emptyWorld) = Exit 1.
Proof. repeat split; vm_compute; reflexivity. Qed.

(** A URL without a scheme: ParseRequestURI takes it as a path, url.Parse
    finds an authority with a malformed port. *)
Lemma schemeless_counterexample :
  isUrlValid "//a:b" = true ∧ isOk (Parse "//a:b") = false.
Proof. split; vm_compute; reflexivity. Qed.

End FatalBranch.

(** ** Ports *)

Section Ports.

Import GoStrings NetURL.

Implicit Types (a b s p d port : string) (urls acc out : list string) (w : World).

Local Abbreviation σ := MainGo.unwantedSuffix.

Lemma allDigits_no_colon port : allDigits port = true → lastIndexByte ":" port = None.
Proof.
  induction port as [|c port IH]; [done|]. cbn.
  destruct (_ || _) eqn:Hc; [done|]. intros H. rewrite IH by done.
  destruct (Ascii.eqb_spec c ":") as [->|_]; [|done]. by vm_compute in Hc.
Qed.

Lemma lastIndexByte_at c a b :
  lastIndexByte c b = None → lastIndexByte c (a +:+ String c b) = Some (String.length a).
Proof.
  intros Hb. induction a as [|e a IH].
  - rewrite str_app_nil_l. cbn. by rewrite Hb, Ascii.eqb_refl.
  - rewrite str_app_cons. cbn. by rewrite IH.
Qed.

(** [Hostname] removes an explicit port from an allowed name. *)
Lemma Hostname_port u d port :
  Host u = d +:+ ":" +:+ port → d ∈ validDomains → allDigits port = true →
  Hostname u = d.
Proof.
  intros Hh Hd Hport. unfold Hostname, splitHostPort. rewrite Hh.
  change (":" +:+ port) with (String ":" port).
  rewrite LastIndex_byte, lastIndexByte_at by (by apply allDigits_no_colon).
  replace (String.length d) with (String.length d + 0) at 1 by lia.
  rewrite str_drop_app_ge, str_drop_0. cbn [validOptionalPort]. cbn [Ascii.eqb negb].
  replace (":" =? ":")%char with true by done. cbn [negb]. rewrite Hport.
  rewrite str_take_app_le, str_take_all by lia.
  unfold validDomains in Hd. rewrite !elem_of_cons, elem_of_nil in Hd.
  by destruct Hd as [->|[->|[->|[->|[]]]]].
Qed.

(** C10: a string that both parsers accept and whose host is an allowed
    name followed by a port is kept by cleanURLs: the comparison uses the
    host name without the port, so the port does not cause the string to
    be dropped.  On the string alone both programs return it without
    logging; in a list it is in the result whenever the call returns.
    What src/main.go puts in the result is, as for every kept string, the
    string without the trailing suffix, which is the string itself when
    it does not end with the suffix. *)
Theorem cleanURLs_keeps_host_with_port s u d port urls w out w' :
  isUrlValid s = true → Parse s = Ok u →
  Host u = d +:+ ":" +:+ port → d ∈ validDomains → allDigits port = true →
  s ∈ urls →
  Hostname u = d
  ∧ (MainGo.cleanURLs urls w = (Return out, w') → TrimSuffix s σ ∈ out)
  ∧ (Part000.cleanURLs urls w = (Return out, w') → s ∈ out)
  ∧ (MainGo.cleanURLs [s] w = (Return [TrimSuffix s σ], w)
     ∧ Part000.cleanURLs [s] w = (Return [s], w))
  ∧ (HasSuffix s σ = false →
     MainGo.cleanURLs [s] w = (Return [s], w)
     ∧ (MainGo.cleanURLs urls w = (Return out, w') → s ∈ out)).
Proof.
  intros Hv Hp Hh Hd Hport Hs.
  pose proof (Hostname_port u d port Hh Hd Hport) as Hname.
  assert (Hkeep : ∀ strip, keepWith strip s = Some (strip s)).
  { intros strip. unfold keepWith. rewrite Hv, Hp, Hname.
    by rewrite (proj2 (domainLoop_allowed d) Hd). }
  assert (Hone : ∀ strip, forRange [s] (cleanURLWith strip) [] w = (Return [strip s], w)).
  { intros strip. cbn [forRange]. unfold bind. rewrite cleanURLWith_step, Hv, Hp, Hname.
    by rewrite (proj2 (domainLoop_allowed d) Hd). }
  assert (Hmain : MainGo.cleanURLs urls w = (Return out, w') → TrimSuffix s σ ∈ out).
  { unfold MainGo.cleanURLs. rewrite MainGo_cleanURL. intros ->%cleanURLWith_loop.
    cbn. apply list_elem_of_omap. exists s. split; [done | apply Hkeep]. }
  split; [done|]. split; [exact Hmain|]. split; [|split].
  - unfold Part000.cleanURLs. rewrite Part000_cleanURL. intros ->%cleanURLWith_loop.
    cbn. apply list_elem_of_omap. exists s. split; [done | apply Hkeep].
  - unfold MainGo.cleanURLs, Part000.cleanURLs. rewrite MainGo_cleanURL, Part000_cleanURL.
    split; [apply (Hone stripSuffix) | apply (Hone id)].
  - intros Hsuf.
    assert (Hid : TrimSuffix s σ = s) by (unfold TrimSuffix; by rewrite Hsuf).
    rewrite Hid in Hmain. split; [|exact Hmain].
    unfold MainGo.cleanURLs. rewrite MainGo_cleanURL, (Hone stripSuffix).
    unfold stripSuffix. by rewrite Hid.
Qed.

Lemma cleanURLs_keeps_host_with_port_witness :
  MainGo.cleanURLs [portURL] emptyWorld = (Return [portURL], emptyWorld).
Proof.
  refine (proj1 (proj2 (proj2 (proj2 (proj2 (cleanURLs_keeps_host_with_port portURL
            (match Parse portURL with Ok u => u | Err _ => zeroURL end)
            "documentcloud.org" "8443" [portURL] emptyWorld
            [portURL] emptyWorld _ _ _ _ _ _)))) _)).
  - vm_compute. reflexivity.
  - vm_compute. reflexivity.
  - vm_compute. reflexivity.
  - apply list_elem_of_In. cbn. tauto.
  - vm_compute. reflexivity.
  - apply list_elem_of_In. cbn. tauto.
  - vm_compute. reflexivity.
Defined.

End Ports.

(** ** The pipeline *)

Section Pipeline.

Import GoStrings NetURL.

Implicit Types (a b s p : string) (urls acc out : list string) (w : World).

Local Abbreviation σ := MainGo.unwantedSuffix.

Lemma stringContainsCTLByte_newline s :
  stringContainsCTLByte s = false → indexByte "010" s = None.
Proof.
  induction s as [|c s IH]; [done|]. cbn.
  destruct (Ascii.eqb_spec c "010") as [->|_]; [done|].
  intros [_ H]%orb_false_iff. by rewrite IH.
Qed.

Lemma isUrlValid_no_newline s : isUrlValid s = true → indexByte "010" s = None.
Proof.
  unfold isUrlValid, ParseRequestURI. rewrite parse_unfold. intros H.
  apply stringContainsCTLByte_newline. by destruct (stringContainsCTLByte s).
Qed.

Lemma indexByte_take c n : ∀ s, indexByte c s = None → indexByte c (take n s) = None.
Proof.
  induction n as [|n IH]; intros [|d s]; cbn; try done.
  destruct (d =? c)%char; [done|]. destruct (indexByte c s) eqn:Hs; [done|].
  intros _. by rewrite IH.
Qed.

Lemma TrimSuffix_no_newline s t :
  indexByte "010" s = None → indexByte "010" (TrimSuffix s t) = None.
Proof.
  intros H. unfold TrimSuffix. destruct (HasSuffix s t); [by apply indexByte_take | done].
Qed.

Lemma hasNewline_false s : indexByte "010" s = None → hasNewline s = false.
Proof. intros H. unfold hasNewline, Contains, newline. by rewrite Index_byte, H. Qed.

Lemma keepWith_no_newline strip x s :
  (∀ y, indexByte "010" y = None → indexByte "010" (strip y) = None) →
  keepWith strip x = Some s → hasNewline s = false.
Proof.
  intros Hstrip. unfold keepWith. destruct (isUrlValid x) eqn:Hv; [|done].
  destruct (Parse x); [|done]. destruct (domainLoop _ _ _); [|done].
  intros [= <-]. by apply hasNewline_false, Hstrip, isUrlValid_no_newline.
Qed.

Lemma appendQuotesToString_no_newline out :
  Forall (λ s, hasNewline s = false) out →
  Forall (λ s, hasNewline s = false) (Part000.appendQuotesToString out).
Proof.
  induction 1 as [|s out Hs _ IH]; cbn; constructor; [|done].
  apply hasNewline_indexByte in Hs. apply hasNewline_false.
  rewrite str_app_cons. cbn [indexByte].
  replace (quoteByte =? "010")%char with false by done.
  by rewrite indexByte_app, Hs.
Qed.

(** X1: no string cleanURLs returns holds a newline, so what main writes
    is read back line by line: in both programs the file written by
    saveURLsToFile splits into the strings that were saved. *)
Theorem pipeline_round_trip urls w out w1 w2 outputFile :
  (MainGo.cleanURLs urls w = (Return out, w1) →
   saveURLsToFile out outputFile w1 = (Return None, w2) →
   splitLines (fileContent w2 outputFile) = out)
  ∧ (Part000.cleanURLs urls w = (Return out, w1) →
     saveURLsToFile (Part000.appendQuotesToString out) outputFile w1 = (Return None, w2) →
     splitLines (fileContent w2 outputFile) = Part000.appendQuotesToString out).
Proof.
  assert (Hloop : ∀ strip,
            (∀ y, indexByte "010" y = None → indexByte "010" (strip y) = None) →
            forRange urls (cleanURLWith strip) [] w = (Return out, w1) →
            Forall (λ s, hasNewline s = false) out).
  { intros strip Hstrip ->%cleanURLWith_loop. cbn. apply Forall_forall.
    intros s (x & _ & Hx)%list_elem_of_omap. by apply (keepWith_no_newline strip x). }
  split.
  - unfold MainGo.cleanURLs. rewrite MainGo_cleanURL. intros Hrun Hsave.
    apply saveURLsToFile_content in Hsave. rewrite Hsave.
    apply splitLines_linesOf, (Hloop stripSuffix); [|done].
    intros y. apply TrimSuffix_no_newline.
  - unfold Part000.cleanURLs. rewrite Part000_cleanURL. intros Hrun Hsave.
    apply saveURLsToFile_content in Hsave. rewrite Hsave.
    apply splitLines_linesOf, appendQuotesToString_no_newline, (Hloop id); done.
Qed.

Lemma pipeline_round_trip_witness :
  splitLines (fileContent
                (snd (saveURLsToFile
                        ["https://www.documentcloud.org/docs/123.pdf";
                         "https://documentcloud.org/y"]
                        "extracted_urls.txt"
                        (snd (MainGo.cleanURLs mixedURLs emptyWorld))))
                "extracted_urls.txt")
  = ["https://www.documentcloud.org/docs/123.pdf"; "https://documentcloud.org/y"].
Proof.
  refine (proj1 (pipeline_round_trip mixedURLs emptyWorld _ _ _ "extracted_urls.txt") _ _).
  - vm_compute. reflexivity.
  - vm_compute. reflexivity.
Defined.

(** X2: a .tsv file that holds [fragmentURL] ends both programs with exit
    status 1 before anything is written: extraction keeps the URL as it
    is, and getHostNameFromURL takes its fatal branch. *)
Theorem main_exits_on_fragment :
  exitStatus MainGo.main fragmentWorld = 1
  ∧ exitStatus Part000.main fragmentWorld = 1
  ∧ os_disk (snd (MainGo.main fragmentWorld)) = ∅
  ∧ os_disk (snd (Part000.main fragmentWorld)) = ∅.
Proof. repeat split; vm_compute; reflexivity. Qed.

End Pipeline.

(** ** File discovery *)

Section Discovery.

Import GoStrings.

Implicit Types (a b s p e : string) (c d : ascii) (k n : nat).

Lemma reverse_app a b : reverse (a +:+ b) = reverse b +:+ reverse a.
Proof.
  induction a as [|c a IH]; [by rewrite str_app_nil_l, str_app_nil_r|].
  rewrite str_app_cons. cbn [reverse]. by rewrite IH, str_app_assoc.
Qed.

Lemma reverse_length s : String.length (reverse s) = String.length s.
Proof.
  induction s as [|c s IH]; [done|]. cbn [reverse String.length].
  rewrite str_app_length, IH. cbn. lia.
Qed.

Lemma indexByte_reverse c s : indexByte c s = None → indexByte c (reverse s) = None.
Proof.
  induction s as [|d s IH]; [done|]. cbn [indexByte reverse].
  destruct (d =? c)%char eqn:Hd; [done|]. destruct (indexByte c s); [done|].
  intros _. rewrite indexByte_app, IH by done. cbn. by rewrite Hd.
Qed.

(** The backward loop stops at the first dot it meets when no separator
    and no dot comes before it. *)
Lemma extLoop_dot a : ∀ r k,
  indexByte "." a = None → indexByte "/" a = None →
  extLoop (a +:+ String "." r) k = Some (k + String.length a).
Proof.
  induction a as [|c a IH]; intros r k Hdot Hsep.
  - rewrite str_app_nil_l. cbn. f_equal. lia.
  - rewrite str_app_cons. cbn in Hdot, Hsep |- *.
    destruct (c =? "/")%char; [done|]. destruct (c =? ".")%char; [done|].
    destruct (indexByte "." a); [done|]. destruct (indexByte "/" a); [done|].
    rewrite IH by done. f_equal. lia.
Qed.

(** [Ext] returns the last dot of the path and what follows it, when no
    separator follows that dot. *)
Lemma Ext_dot p e :
  indexByte "." e = None → indexByte "/" e = None →
  Ext (p +:+ String "." e) = String "." e.
Proof.
  intros Hdot Hsep. unfold Ext.
  replace (p +:+ String "." e) with ((p +:+ ".") +:+ e) by (by rewrite str_app_assoc).
  rewrite reverse_app, (reverse_app p "."). cbn [reverse]. rewrite str_app_nil_l.
  rewrite str_app_cons, str_app_nil_l.
  rewrite extLoop_dot by (by apply indexByte_reverse).
  rewrite reverse_length, !str_app_length. cbn [String.length].
  replace (String.length p + 1 + String.length e - 1 - (0 + String.length e))
    with (String.length p) by lia.
  by rewrite str_app_assoc, str_drop_app_le, str_drop_all by lia.
Qed.

Lemma Ext_suffix path : ∃ p, path = p +:+ Ext path.
Proof.
  unfold Ext. destruct (extLoop (reverse path) 0) as [k|].
  - eexists. symmetry. apply str_take_drop.
  - exists path. by rewrite str_app_nil_r.
Qed.

Lemma HasSuffix_app p t : HasSuffix (p +:+ t) t = true.
Proof.
  unfold HasSuffix. rewrite str_app_length.
  replace (String.length p + String.length t - String.length t) with (String.length p) by lia.
  rewrite str_drop_app_le, str_drop_all, str_app_nil_l, String.eqb_refl by lia.
  rewrite andb_true_r. apply Nat.leb_le. lia.
Qed.

(** The extension test of listTSVFiles is a suffix test. *)
Lemma Ext_tsv path : String.eqb (Ext path) ".tsv" = HasSuffix path ".tsv".
Proof.
  destruct (HasSuffix path ".tsv") eqn:Hs.
  - apply HasSuffix_split in Hs. rewrite Hs. apply String.eqb_eq.
    by apply (Ext_dot _ "tsv").
  - apply String.eqb_neq. intros He. destruct (Ext_suffix path) as [p Hp].
    rewrite He in Hp. rewrite Hp, HasSuffix_app in Hs. done.
Qed.

Lemma walkLoop_select visits : ∀ tsvFiles,
  walkLoop visits tsvFiles =
  (tsvFiles ++ map walk_path (List.filter isTSVFile (beforeError visits)),
   firstError visits).
Proof.
  induction visits as [|v visits IH]; intros tsvFiles; cbn.
  - by rewrite app_nil_r.
  - destruct (walk_err v); [by rewrite app_nil_r|]. cbn.
    unfold isTSVFile at 1. rewrite Ext_tsv, IH.
    destruct (negb (walk_isDir v) && HasSuffix (walk_path v) ".tsv"); [|done].
    cbn. by rewrite <- app_assoc.
Qed.

(** X4: listTSVFiles returns, in the order of the walk, the paths of the
    visits before the first error that are not directories and end with
    .tsv (compared bytewise, so a file named .tsv counts and .TSV does
    not), together with that first error; the world is left as it is. *)
Theorem listTSVFiles_selects (w : World) :
  listTSVFiles w =
  match os_getwd w with
  | Err err => (Return ([], Some ("could not get current working directory: " +:+ err)), w)
  | Ok currentDir =>
      (Return (map walk_path (List.filter isTSVFile (beforeError (os_walk w currentDir))),
               firstError (os_walk w currentDir)), w)
  end
  ∧ (∀ p, Ext (p +:+ ".tsv") = ".tsv")
  ∧ (∀ path, Ext path = ".tsv" → ∃ p, path = p +:+ ".tsv").
Proof.
  split; [|split].
  - unfold listTSVFiles. destruct (os_getwd w) as [currentDir|err]; [|done].
    by rewrite walkLoop_select.
  - intros p. by apply (Ext_dot p "tsv").
  - intros path He. destruct (Ext_suffix path) as [p Hp]. exists p. by rewrite <- He.
Qed.

(** X5: when the discovery fails (the working directory is unknown, or
    the walk meets an error), main logs the failure and ends the process
    with status 1, whatever .tsv files were found before the error; no
    file is read and none is written. *)
Theorem main_listing_error (w : World) files err :
  fst (listTSVFiles w) = Return (files, Some err) →
  (MainGo.main w = (Exit 1, setLog w (os_log w ++ ["Error listing TSV files: " +:+ err]))
   ∧ Part000.main w = (Exit 1, setLog w (os_log w ++ ["Error listing TSV files: " +:+ err])))
  ∧ (exitStatus MainGo.main w = 1 ∧ exitStatus Part000.main w = 1)
  ∧ (os_disk (snd (MainGo.main w)) = os_disk w
     ∧ os_disk (snd (Part000.main w)) = os_disk w).
Proof.
  intros Hlist.
  assert (Hrun : listTSVFiles w = (Return (files, Some err), w)).
  { pose proof (listTSVFiles_world w) as Hw.
    destruct (listTSVFiles w) as [o w1]. cbn in Hlist, Hw. by subst. }
  assert (Hm : MainGo.main w
               = (Exit 1, setLog w (os_log w ++ ["Error listing TSV files: " +:+ err]))).
  { unfold MainGo.main, bind. by rewrite Hrun. }
  assert (Hp : Part000.main w
               = (Exit 1, setLog w (os_log w ++ ["Error listing TSV files: " +:+ err]))).
  { unfold Part000.main, bind. by rewrite Hrun. }
  unfold exitStatus. rewrite Hm, Hp. done.
Qed.

Lemma main_listing_error_witness :
  exitStatus MainGo.main brokenWorld = 1 ∧ exitStatus Part000.main brokenWorld = 1.
Proof.
  refine (proj1 (proj2 (main_listing_error brokenWorld ["/data/a.tsv"]
                          "permission denied" _))).
  vm_compute. reflexivity.
Defined.

End Discovery.

(** ** Writing under a quota *)

Section Quota.

Import GoStrings.

Implicit Types (a s f name data : string) (b : Writer) (w : World) (urls : list string).

Lemma str_take_len n : ∀ s, (n ≤ String.length s)%nat → String.length (take n s) = n.
Proof.
  induction n as [|n IH]; intros [|c s] Hn; cbn in *; try done; try lia.
  rewrite IH; [done | lia].
Qed.

Lemma sameOracles_refl w : sameOracles w w.
Proof. by repeat split. Qed.

Lemma sameOracles_trans w1 w2 w3 : sameOracles w1 w2 → sameOracles w2 w3 → sameOracles w1 w3.
Proof.
  intros (?&?&?&?&?) (?&?&?&?&?). repeat split; congruence.
Qed.

Lemma writesOnly_refl f w : writesOnly f w w.
Proof. split; [apply sameOracles_refl|]. by repeat split. Qed.

Lemma writesOnly_trans f w1 w2 w3 :
  writesOnly f w1 w2 → writesOnly f w2 w3 → writesOnly f w1 w3.
Proof.
  intros (Ho1 & Hl1 & Hd1 & Hq1) (Ho2 & Hl2 & Hd2 & Hq2).
  split; [by eapply sameOracles_trans|]. split; [congruence|]. split.
  - intros g Hg. by rewrite Hd2, Hd1.
  - intros q Hq Hle. apply Hq2; [|by apply Hq1].
    destruct Ho1 as (_&_&_&_&Hquota). congruence.
Qed.

Lemma withinQuota_same w w' n : sameOracles w w' → withinQuota w n → withinQuota w' n.
Proof. intros (_&_&_&_&Hq). unfold withinQuota. by rewrite Hq. Qed.

Lemma withinQuota_le w n m : (m ≤ n)%nat → withinQuota w n → withinQuota w m.
Proof. unfold withinQuota. destruct (os_quota w); [lia | done]. Qed.

Lemma setDisk_writesOnly f w s :
  (∀ q, os_quota w = Some q →
        (String.length (fileContent w f) ≤ q)%nat → (String.length s ≤ q)%nat) →
  writesOnly f w (setDisk w (<[f := s]> (os_disk w))).
Proof.
  intros Hs. split; [by repeat split|]. split; [done|]. split.
  - intros g Hg. cbn. by rewrite lookup_insert_ne.
  - intros q Hq Hle. rewrite fileContent_setDisk_insert. by apply Hs.
Qed.

(** Every write appends a prefix of the data, the whole of it when no
    error is reported; it fails only when the data does not fit. *)
Lemma fileWrite_gen name data w n e w' :
  fileWrite name data w = (n, e, w') →
  fileContent w' name = fileContent w name +:+ take n data
  ∧ (e = None → n = String.length data)
  ∧ writesOnly name w w'
  ∧ (withinQuota w (String.length (fileContent w name) + String.length data) → e = None).
Proof.
  unfold fileWrite, withinQuota.
  destruct (os_quota w) as [q|] eqn:Hq.
  - destruct (_ <=? q)%nat eqn:Hfit.
    + apply Nat.leb_le in Hfit. intros [= <- <- <-].
      rewrite fileContent_setDisk_insert, str_take_all.
      split; [done|]. split; [done|]. split; [|done].
      apply setDisk_writesOnly. intros q' Hq' _.
      rewrite str_app_length. assert (q' = q) by congruence. lia.
    + apply Nat.leb_gt in Hfit. intros [= <- <- <-].
      rewrite fileContent_setDisk_insert.
      split; [done|]. split; [done|]. split; [|lia].
      apply setDisk_writesOnly. intros q' Hq' Hle.
      assert (q' = q) by congruence. subst q'.
      rewrite str_app_length, str_take_len by lia. lia.
  - intros [= <- <- <-].
    rewrite fileContent_setDisk_insert, str_take_all.
    split; [done|]. split; [done|]. split; [|done].
    apply setDisk_writesOnly. intros q' Hq'. congruence.
Qed.

Lemma str_take_le n : ∀ s, (String.length (take n s) ≤ String.length s)%nat.
Proof.
  induction n as [|n IH]; intros [|c s]; cbn; try lia. specialize (IH s). lia.
Qed.

Lemma Flush_gen b w e b' w' :
  Flush b w = (e, b', w') →
  wr_file b' = wr_file b
  ∧ accepted b' w' = accepted b w
  ∧ e = wr_err b'
  ∧ (e = None → wr_buf b' = "")
  ∧ writesOnly (wr_file b) w w'
  ∧ (wr_err b = None → withinQuota w (String.length (accepted b w)) → e = None).
Proof.
  unfold Flush. destruct (wr_err b) as [e0|] eqn:He.
  { intros [= <- <- <-]. rewrite He.
    repeat (split; [try done; try apply writesOnly_refl|]). done. }
  destruct (String.length (wr_buf b) =? 0)%nat eqn:Hn.
  { intros [= <- <- <-]. apply Nat.eqb_eq, str_length_0 in Hn.
    repeat (split; [try done; try apply writesOnly_refl|]). done. }
  destruct (fileWrite (wr_file b) (wr_buf b) w) as [[n e1] w1] eqn:Hw.
  apply fileWrite_gen in Hw as (Hc & Hall & Hwo & Hfit).
  assert (Hacc : ∀ e2, accepted (mkWriter (wr_file b) (drop n (wr_buf b)) e2) w1
                       = accepted b w).
  { intros e2. unfold accepted. cbn. by rewrite Hc, str_app_assoc, str_take_drop. }
  assert (Hfits : withinQuota w (String.length (accepted b w)) → e1 = None).
  { unfold accepted. rewrite str_app_length. exact Hfit. }
  destruct e1 as [e1|].
  - intros [= <- <- <-].
    repeat (split; [try done|]). intros _ H. by apply Hfits in H.
  - rewrite (Hall eq_refl), Nat.ltb_irrefl. intros [= <- <- <-].
    repeat (split; [try done|]); [|done].
    specialize (Hacc None). rewrite (Hall eq_refl), str_drop_all in Hacc. exact Hacc.
Qed.

Lemma writeRound_gen b s w s1 b1 w1 :
  wr_err b = None →
  writeRound b s w = (s1, b1, w1) →
  wr_file b1 = wr_file b
  ∧ accepted b1 w1 +:+ s1 = accepted b w +:+ s
  ∧ writesOnly (wr_file b) w w1
  ∧ (withinQuota w (String.length (accepted b w) + String.length s) → wr_err b1 = None).
Proof.
  intros He. unfold writeRound.
  destruct (String.length (wr_buf b) =? 0)%nat eqn:Hn.
  - apply Nat.eqb_eq, str_length_0 in Hn.
    destruct (fileWrite (wr_file b) s w) as [[n e] w'] eqn:Hw.
    apply fileWrite_gen in Hw as (Hc & Hall & Hwo & Hfit).
    intros [= <- <- <-]. cbn [wr_file wr_err]. unfold accepted. cbn [wr_file wr_buf].
    rewrite Hn, !str_app_nil_r, Hc, str_app_assoc, str_take_drop.
    by repeat (split; [try done|]).
  - set (b0 := mkWriter _ _ _).
    destruct (Flush b0 w) as [[e b2] w'] eqn:Hf.
    apply Flush_gen in Hf as (Hfile & Hacc & Herr & _ & Hwo & Hfit).
    intros [= <- <- <-]. cbn [wr_file] in *.
    split; [done|]. split; [|split; [done|]].
    + rewrite Hacc. unfold accepted, b0. cbn [wr_file wr_buf].
      by rewrite !str_app_assoc, str_take_drop.
    + intros Hq. rewrite <- Herr. apply Hfit; [done|].
      eapply withinQuota_le; [|exact Hq].
      unfold accepted, b0. cbn [wr_file wr_buf]. rewrite !str_app_length.
      pose proof (str_take_le (Available b) s). lia.
Qed.

Lemma needsRound_no_error b s : needsRound b s = true → wr_err b = None.
Proof.
  unfold needsRound. destruct (wr_err b); [|done]. cbn. by rewrite andb_false_r.
Qed.

Lemma WriteString_gen b s w e b' w' :
  wr_err b = None →
  WriteString b s w = (e, b', w') →
  wr_file b' = wr_file b
  ∧ (∃ rest, accepted b w +:+ s = accepted b' w' +:+ rest ∧ (e = None → rest = ""))
  ∧ e = wr_err b'
  ∧ writesOnly (wr_file b) w w'
  ∧ (withinQuota w (String.length (accepted b w) + String.length s) → e = None).
Proof.
  intros He. unfold WriteString.
  assert (Hfinish : ∀ s2 b2 w2,
            wr_file b2 = wr_file b →
            accepted b2 w2 +:+ s2 = accepted b w +:+ s →
            writesOnly (wr_file b) w w2 →
            (withinQuota w (String.length (accepted b w) + String.length s) →
             wr_err b2 = None) →
            match wr_err b2 with
            | Some e => (Some e, b2, w2)
            | None => (None, mkWriter (wr_file b2) (wr_buf b2 +:+ s2) None, w2)
            end = (e, b', w') →
            wr_file b' = wr_file b
            ∧ (∃ rest, accepted b w +:+ s = accepted b' w' +:+ rest ∧ (e = None → rest = ""))
            ∧ e = wr_err b'
            ∧ writesOnly (wr_file b) w w'
            ∧ (withinQuota w (String.length (accepted b w) + String.length s) → e = None)).
  { intros s2 b2 w2 Hf Ha Hwo Hfit. destruct (wr_err b2) as [e2|] eqn:He2.
    - intros [= <- <- <-]. split; [done|]. split; [by exists s2|].
      split; [done|]. split; [done|]. intros H. by apply Hfit in H.
    - intros [= <- <- <-]. cbn [wr_file wr_err]. split; [done|]. split.
      + exists "". split; [|done]. rewrite str_app_nil_r, <- Ha.
        unfold accepted. cbn [wr_file wr_buf]. by rewrite str_app_assoc.
      + by repeat (split; [try done|]). }
  destruct (needsRound b s) eqn:Hr1.
  - destruct (writeRound b s w) as [[s1 b1] w1] eqn:H1.
    apply writeRound_gen in H1 as (Hf1 & Ha1 & Hwo1 & Hfit1); [|done].
    destruct (needsRound b1 s1) eqn:Hr2.
    + pose proof (needsRound_no_error _ _ Hr2) as He1.
      destruct (writeRound b1 s1 w1) as [[s2 b2] w2] eqn:H2.
      apply writeRound_gen in H2 as (Hf2 & Ha2 & Hwo2 & Hfit2); [|done].
      apply Hfinish.
      * congruence.
      * by rewrite Ha2.
      * eapply writesOnly_trans; [exact Hwo1|]. by rewrite <- Hf1.
      * intros Hq. apply Hfit2. apply (withinQuota_same w); [apply Hwo1|].
        replace (String.length (accepted b1 w1) + String.length s1)
          with (String.length (accepted b w) + String.length s); [done|].
        by rewrite <- !str_app_length, Ha1.
    + by apply Hfinish.
  - apply Hfinish; first [done | apply writesOnly_refl].
Qed.

Lemma saveLoop_gen urls : ∀ b w e b' w',
  wr_err b = None →
  saveLoop urls b w = (e, b', w') →
  wr_file b' = wr_file b
  ∧ (∃ rest, accepted b w +:+ linesOf urls = accepted b' w' +:+ rest
             ∧ (e = None → rest = "" ∧ wr_err b' = None))
  ∧ writesOnly (wr_file b) w w'
  ∧ (withinQuota w (String.length (accepted b w) + String.length (linesOf urls)) →
     e = None).
Proof.
  induction urls as [|url urls IH]; intros b w e b' w' He; cbn [saveLoop linesOf].
  - intros [= <- <- <-]. split; [done|]. split; [by exists ""|].
    split; [apply writesOnly_refl | done].
  - destruct (WriteString b (url +:+ newline) w) as [[e1 b1] w1] eqn:Hws.
    apply WriteString_gen in Hws as (Hf1 & (rest1 & Ha1 & Hr1) & He1 & Hwo1 & Hfit1); [|done].
    destruct e1 as [e1|].
    + intros [= <- <- <-]. split; [done|]. split; [|split; [done|]].
      * exists (rest1 +:+ linesOf urls). split; [|done].
        by rewrite <- (str_app_assoc (accepted b w)), Ha1, str_app_assoc.
      * intros Hq. exfalso. enough (Some e1 = None) by done. apply Hfit1.
        eapply withinQuota_le; [|exact Hq]. rewrite !str_app_length. lia.
    + specialize (Hr1 eq_refl). subst rest1. rewrite str_app_nil_r in Ha1.
      intros Hl. apply IH in Hl as (Hf & (rest & Ha & Hr) & Hwo & Hfit); [|done].
      split; [congruence|]. split; [|split].
      * exists rest. split; [|done].
        by rewrite <- (str_app_assoc (accepted b w)), Ha1.
      * eapply writesOnly_trans; [exact Hwo1|]. by rewrite <- Hf1.
      * intros Hq. apply Hfit. apply (withinQuota_same w); [apply Hwo1|].
        eapply withinQuota_le; [|exact Hq]. rewrite <- Ha1, !str_app_length. lia.
Qed.

(** X6: when the output file can be created, saveURLsToFile returns a nil
    error exactly when all the lines fit the quota of the device; whatever
    it returns, the file holds a prefix of the lines, no longer than the
    quota, the whole of them on success; no other file, no log entry and
    no answer of the operating system is changed. *)
Theorem saveURLsToFile_quota urls outputFile w :
  os_createErr w outputFile = None →
  ∃ r w',
    saveURLsToFile urls outputFile w = (Return r, w')
    ∧ (∃ rest, linesOf urls = fileContent w' outputFile +:+ rest
               ∧ (r = None → rest = ""))
    ∧ (r = None ↔ withinQuota w (String.length (linesOf urls)))
    ∧ withinQuota w (String.length (fileContent w' outputFile))
    ∧ (∀ g, g ≠ outputFile → os_disk w' !! g = os_disk w !! g)
    ∧ os_log w' = os_log w.
Proof.
  intros Hc. unfold saveURLsToFile, osCreate. rewrite Hc.
  set (w0 := setDisk w (<[outputFile := ""]> (os_disk w))).
  assert (Hw0 : writesOnly outputFile w w0).
  { apply setDisk_writesOnly. intros q _ _. cbn. lia. }
  assert (Hfile0 : fileContent w0 outputFile = "").
  { apply fileContent_setDisk_insert. }
  assert (Hbound : ∀ w', writesOnly outputFile w0 w' →
            withinQuota w (String.length (fileContent w' outputFile))).
  { intros w' (_ & _ & _ & Hq). unfold withinQuota.
    destruct (os_quota w) as [q|] eqn:Hquota; [|done].
    apply Hq; [done|]. rewrite Hfile0. cbn. lia. }
  assert (Hframe : ∀ w', writesOnly outputFile w0 w' →
            (∀ g, g ≠ outputFile → os_disk w' !! g = os_disk w !! g)
            ∧ os_log w' = os_log w).
  { intros w' Hw'. destruct (writesOnly_trans _ _ _ _ Hw0 Hw') as (_ & Hl & Hd & _).
    done. }
  destruct (saveLoop urls (NewWriter outputFile) w0) as [[e b1] w1] eqn:Hl.
  apply saveLoop_gen in Hl as (Hf1 & (rest & Ha & Hr) & Hwo1 & Hfit1); [|done].
  cbn [wr_file NewWriter] in Hf1, Hwo1.
  unfold accepted in Ha, Hfit1. cbn [wr_file wr_buf NewWriter] in Ha, Hfit1.
  rewrite Hfile0, !str_app_nil_l in Ha. rewrite Hfile0 in Hfit1. cbn in Hfit1.
  rewrite Hf1 in Ha.
  destruct e as [e|].
  - exists (Some e), w1. split; [done|]. split.
    { exists (wr_buf b1 +:+ rest). split; [by rewrite <- str_app_assoc | done]. }
    split.
    { split; [done|]. intros Hq. apply Hfit1. rewrite str_app_nil_l. cbn.
      by apply (withinQuota_same w); [apply Hw0|]. }
    split; [by apply Hbound|]. by apply Hframe.
  - destruct (Hr eq_refl) as [-> He1]. rewrite str_app_nil_r in Ha.
    destruct (Flush b1 w1) as [[e2 b2] w2] eqn:Hfl.
    apply Flush_gen in Hfl as (Hf2 & Ha2 & He2 & Hbuf & Hwo2 & Hfit2).
    rewrite Hf1 in Hwo2.
    assert (Hwo : writesOnly outputFile w0 w2) by (by eapply writesOnly_trans).
    unfold accepted in Ha2. rewrite Hf2, Hf1, <- Ha in Ha2.
    exists e2, w2. split; [done|]. split.
    { exists (wr_buf b2). split; [done|]. intros H. by apply Hbuf. }
    split.
    { split.
      - intros ->. specialize (Hbuf eq_refl). rewrite Hbuf, str_app_nil_r in Ha2.
        rewrite <- Ha2. by apply Hbound.
      - intros Hq. apply Hfit2; [done|]. unfold accepted. rewrite Hf1, <- Ha.
        apply (withinQuota_same w); [|done].
        eapply sameOracles_trans; [apply Hw0 | apply Hwo1]. }
    split; [by apply Hbound|]. by apply Hframe.
Qed.

Lemma saveURLsToFile_quota_witness :
  ∃ r w', saveURLsToFile twoURLs "extracted_urls.txt" smallWorld = (Return r, w')
          ∧ (r = None ↔ withinQuota smallWorld (String.length (linesOf twoURLs))).
Proof.
  destruct (saveURLsToFile_quota twoURLs "extracted_urls.txt" smallWorld eq_refl)
    as (r & w' & Hrun & _ & Hiff & _).
  exists r, w'. split; [exact Hrun | exact Hiff].
Defined.

End Quota.

(** ** The domain filter as a selection *)

Section Selection.

Import GoStrings NetURL.

Implicit Types (s : string) (urls acc out kept : list string) (w : World).

Lemma keepWith_wanted strip s :
  keepWith strip s = if wanted s then Some (strip s) else None.
Proof.
  unfold keepWith, wanted. destruct (isUrlValid s); [|done].
  destruct (Parse s) as [u|]; [|done]. cbn [andb].
  by destruct (domainLoop (Hostname u) validDomains false).
Qed.

Lemma omap_keepWith strip urls :
  omap (keepWith strip) urls = map strip (List.filter wanted urls).
Proof.
  induction urls as [|s urls IH]; [done|]. cbn. rewrite keepWith_wanted.
  destruct (wanted s); cbn; by rewrite IH.
Qed.

Lemma filter_sublist (P : string → bool) urls : sublist (List.filter P urls) urls.
Proof.
  induction urls as [|s urls IH]; cbn; [constructor|].
  destruct (P s); [by apply sublist_skip | by apply sublist_cons].
Qed.

(** On strings that pass the test the loop only collects: nothing is
    logged and the world does not change. *)
Lemma cleanURLWith_wanted strip urls : ∀ acc w,
  forallb wanted urls = true →
  forRange urls (cleanURLWith strip) acc w = (Return (acc ++ map strip urls), w).
Proof.
  induction urls as [|s urls IH]; intros acc w; cbn [forRange forallb map].
  - intros _. by rewrite app_nil_r.
  - intros [Hs Hrest]%andb_true_iff. unfold bind at 1. rewrite cleanURLWith_step.
    unfold wanted in Hs. destruct (isUrlValid s); [|done].
    destruct (Parse s) as [u|]; [|done].
    destruct (domainLoop (Hostname u) validDomains false); [|done].
    rewrite IH by done. by rewrite <- app_assoc.
Qed.

Lemma forallb_filter (P : string → bool) urls : forallb P (List.filter P urls) = true.
Proof.
  induction urls as [|s urls IH]; [done|]. cbn. destruct (P s) eqn:Hs; [|done].
  cbn. by rewrite Hs.
Qed.

(** X7: cleanURLs of src/unnamed/part_000 is a selection: it returns, in
    their order, exactly the input strings that pass the test, so it adds
    nothing, keeps a list without repetition free of repetition, and
    applied to its own result returns it again without logging
    anything. *)
Theorem Part000_cleanURLs_selects urls w out w' :
  Part000.cleanURLs urls w = (Return out, w') →
  out = List.filter wanted urls
  ∧ sublist out urls
  ∧ (NoDup urls → NoDup out)
  ∧ Part000.cleanURLs out w' = (Return out, w').
Proof.
  unfold Part000.cleanURLs. rewrite Part000_cleanURL. intros ->%cleanURLWith_loop.
  cbn [app]. rewrite omap_keepWith, map_id.
  split; [done|]. split; [apply filter_sublist|]. split.
  - intros Hnd. eapply sublist_NoDup; [exact Hnd | apply filter_sublist].
  - rewrite cleanURLWith_wanted by apply forallb_filter. by rewrite map_id.
Qed.

Lemma Part000_cleanURLs_selects_witness :
  sublist ["https://www.documentcloud.org/docs/123.pdf";
           "https://documentcloud.org/ytarget=&quot;_blank&quot;"] mixedURLs.
Proof.
  refine (proj1 (proj2 (Part000_cleanURLs_selects mixedURLs emptyWorld _
            (snd (Part000.cleanURLs mixedURLs emptyWorld)) _))).
  vm_compute. reflexivity.
Defined.

(** X8: cleanURLs of src/main.go returns the selected strings with their
    suffix removed, so its result is never longer than its input; but two
    different inputs can give the same result, and since main removes
    duplicates before cleaning, the file it writes can hold the same line
    twice. *)
Theorem MainGo_cleanURLs_after_dedup :
  (∀ urls w out w',
     MainGo.cleanURLs urls w = (Return out, w') →
     out = map stripSuffix (List.filter wanted urls) ∧ (length out ≤ length urls)%nat)
  ∧ (NoDup twinURLs
     ∧ removeDuplicatesFromSlice twinURLs = twinURLs
     ∧ fst (MainGo.cleanURLs twinURLs emptyWorld)
       = Return ["https://documentcloud.org/y"; "https://documentcloud.org/y"]
     ∧ fst (MainGo.main twinWorld) = Return tt
     ∧ fileContent (snd (MainGo.main twinWorld)) "extracted_urls.txt"
       = linesOf ["https://documentcloud.org/y"; "https://documentcloud.org/y"]).
Proof.
  split.
  - intros urls w out w'. unfold MainGo.cleanURLs. rewrite MainGo_cleanURL.
    intros ->%cleanURLWith_loop. cbn [app]. rewrite omap_keepWith.
    split; [done|]. rewrite length_map. apply sublist_length, filter_sublist.
  - split; [|repeat split; vm_compute; reflexivity].
    unfold twinURLs. apply NoDup_cons. split; [|apply NoDup_singleton].
    intros H%list_elem_of_In. cbn in H. destruct H as [H|[]]. discriminate H.
Qed.

End Selection.

(** ** The matches of the pattern *)

Section Matches.

Import GoStrings Regexp.

Implicit Types (s m g t u body rest : string) (c : ascii) (i n k : nat) (ms : list string).

Lemma HasPrefix_split s : ∀ p, HasPrefix s p = true → s = p +:+ drop (String.length p) s.
Proof.
  induction s as [|d s IH]; intros [|c p]; try done.
  rewrite HasPrefix_cons. intros [Hc%Ascii.eqb_eq Hp%IH]%andb_true_iff. subst d.
  rewrite str_app_cons. cbn [String.length drop]. by rewrite <- Hp.
Qed.

Lemma HasPrefix_app p : ∀ t, HasPrefix (p +:+ t) p = true.
Proof.
  induction p as [|c p IH]; intros t; [apply HasPrefix_nil|].
  by rewrite str_app_cons, HasPrefix_cons, Ascii.eqb_refl, IH.
Qed.

Lemma str_drop_app p t : drop (String.length p) (p +:+ t) = t.
Proof. by rewrite str_drop_app_le, str_drop_all, str_app_nil_l. Qed.

Lemma span_app cls body : ∀ rest,
  allBytes cls body = true →
  match rest with "" => True | String c _ => cls c = false end →
  span cls (body +:+ rest) = String.length body.
Proof.
  induction body as [|c body IH]; intros rest Hall Hstop.
  - rewrite str_app_nil_l. destruct rest as [|c rest]; [done|]. cbn. by rewrite Hstop.
  - cbn in Hall. apply andb_true_iff in Hall as [Hc Hall].
    rewrite str_app_cons. cbn. by rewrite Hc, IH.
Qed.

Lemma span_split cls t :
  t = take (span cls t) t +:+ drop (span cls t) t
  ∧ allBytes cls (take (span cls t) t) = true
  ∧ match drop (span cls t) t with "" => True | String c _ => cls c = false end
  ∧ String.length (take (span cls t) t) = span cls t.
Proof.
  induction t as [|c t (IH1 & IH2 & IH3 & IH4)]; [done|].
  cbn [span]. destruct (cls c) eqn:Hc.
  - cbn [take drop allBytes String.length]. rewrite str_app_cons, Hc, IH2, IH4, <- IH1. done.
  - cbn. by rewrite Hc.
Qed.

(** The last item of the pattern takes the whole run. *)
Lemma matchHere_Plus cls t :
  matchHere [Plus cls] t = match span cls t with 0 => None | S k => Some (S k) end.
Proof.
  cbn [matchHere]. destruct (span cls t) as [|k]; [done|].
  cbn [longestFirst matchHere]. f_equal. lia.
Qed.

Lemma matchHere_tail u :
  matchHere [Lit "://"; Plus urlByte] u =
  if HasPrefix u "://"
  then match span urlByte (drop 3 u) with 0 => None | S k => Some (3 + S k) end
  else None.
Proof.
  change (matchHere [Lit "://"; Plus urlByte] u)
    with (if HasPrefix u "://"
          then option_map (Nat.add 3) (matchHere [Plus urlByte] (drop 3 u))
          else None).
  destruct (HasPrefix u "://"); [|done]. rewrite matchHere_Plus.
  by destruct (span urlByte (drop 3 u)).
Qed.

Lemma re_items :
  re = [Lit "http"; Opt (λ c, (c =? "s")%char); Lit "://"; Plus urlByte].
Proof. reflexivity. Qed.

Lemma matchHere_re s :
  matchHere re s =
  if HasPrefix s "http" then
    option_map (Nat.add 4)
      (let skip := matchHere [Lit "://"; Plus urlByte] (drop 4 s) in
       match drop 4 s with
       | String c s' =>
           if (c =? "s")%char then
             match matchHere [Lit "://"; Plus urlByte] s' with
             | Some m => Some (S m)
             | None => skip
             end
           else skip
       | "" => skip
       end)
  else None.
Proof. reflexivity. Qed.

Lemma isCandidate_length m : isCandidate m → (8 ≤ String.length m)%nat.
Proof.
  intros (body & Hm & Hne & _). destruct body as [|c body]; [done|].
  destruct Hm as [-> | ->]; rewrite str_app_length; cbn; lia.
Qed.

(** The engine finds what the pattern denotes: a match of the compiled
    pattern at the start of [s] is the longest candidate there. *)
Lemma matchHere_sound s n :
  matchHere re s = Some n → ∃ m, candidateAt s m ∧ String.length m = n.
Proof.
  rewrite matchHere_re. destruct (HasPrefix s "http") eqn:Hp; [|done].
  apply HasPrefix_split in Hp. cbn [String.length] in Hp.
  set (s1 := drop 4 s) in *. cbv zeta.
  assert (Htail : ∀ u k, matchHere [Lit "://"; Plus urlByte] u = Some k →
            ∃ body rest, u = "://" +:+ body +:+ rest ∧ body ≠ "" ∧ allBytes urlByte body = true
                         ∧ stopsAt rest ∧ k = 3 + String.length body).
  { intros u k. rewrite matchHere_tail. destruct (HasPrefix u "://") eqn:Hu; [|done].
    apply HasPrefix_split in Hu. cbn [String.length] in Hu.
    destruct (span_split urlByte (drop 3 u)) as (H1 & H2 & H3 & H4).
    destruct (span urlByte (drop 3 u)) as [|j] eqn:Hspan; [done|]. intros [= <-].
    exists (take (S j) (drop 3 u)), (drop (S j) (drop 3 u)).
    split; [by rewrite <- H1|]. split; [|by rewrite H4].
    intros Hnil. by rewrite Hnil in H4. }
  assert (Hskip : ∀ k, matchHere [Lit "://"; Plus urlByte] s1 = Some k →
            ∃ m, candidateAt s m ∧ String.length m = 4 + k).
  { intros k (body & rest & Hu & Hne & Hall & Hstop & ->)%Htail.
    exists ("http://" +:+ body). split.
    - split; [exists body; by auto|]. exists rest. split; [|done].
      rewrite Hp, Hu. by rewrite !str_app_assoc.
    - rewrite str_app_length. cbn. lia. }
  destruct s1 as [|c s2] eqn:Hs1.
  - destruct (matchHere _ "") as [k|] eqn:Hk; [|done]. intros [= <-]. by apply Hskip.
  - destruct (Ascii.eqb_spec c "s") as [->|Hc].
    + destruct (matchHere _ s2) as [k|] eqn:Hk.
      * intros [= <-]. apply Htail in Hk as (body & rest & Hu & Hne & Hall & Hstop & ->).
        exists ("https://" +:+ body). split.
        -- split; [exists body; by auto|]. exists rest. split; [|done].
           rewrite Hp, Hu. by rewrite !str_app_assoc.
        -- rewrite str_app_length. cbn. lia.
      * destruct (matchHere _ (String "s" s2)) as [k|] eqn:Hk'; [|done].
        intros [= <-]. by apply Hskip.
    + destruct (matchHere _ (String c s2)) as [k|] eqn:Hk; [|done].
      intros [= <-]. by apply Hskip.
Qed.

Lemma matchHere_complete s m : candidateAt s m → matchHere re s = Some (String.length m).
Proof.
  intros [(body & Hm & Hne & Hall) (rest & -> & Hstop)].
  assert (Htail : matchHere [Lit "://"; Plus urlByte] ("://" +:+ body +:+ rest)
                  = Some (3 + String.length body)).
  { rewrite matchHere_tail. rewrite HasPrefix_app.
    change 3 with (String.length "://") at 1. rewrite str_drop_app.
    rewrite span_app by done. by destruct body. }
  rewrite matchHere_re. cbv zeta. destruct Hm as [-> | ->].
  - change "http://" with ("http" +:+ "://"). rewrite !str_app_assoc, HasPrefix_app.
    pose proof (str_drop_app "http" ("://" +:+ body +:+ rest)) as Hd.
    cbn [String.length] in Hd. rewrite Hd, Htail, str_app_cons.
    cbn [Ascii.eqb Bool.eqb]. rewrite !str_app_length. by cbn.
  - change "https://" with ("http" +:+ "s" +:+ "://"). rewrite !str_app_assoc, HasPrefix_app.
    pose proof (str_drop_app "http" ("s" +:+ "://" +:+ body +:+ rest)) as Hd.
    cbn [String.length] in Hd. rewrite Hd, str_app_cons, str_app_nil_l.
    cbn [Ascii.eqb Bool.eqb]. rewrite Htail. rewrite !str_app_length. by cbn.
Qed.

Lemma leftmost_skip c s ms :
  (∀ m, ¬ candidateAt (String c s) m) → leftmost s ms → leftmost (String c s) ms.
Proof.
  intros Hno Hl. destruct Hl as [s Hnone | g m rest ms Hgap Hm Hrest].
  - apply leftmost_none. intros [|i] m; [apply Hno | apply Hnone].
  - rewrite <- str_app_cons. apply leftmost_match; [|done..].
    intros [|i] m' Hi; [rewrite str_app_cons; apply Hno|].
    rewrite str_app_cons. cbn [drop]. apply Hgap. cbn in Hi. lia.
Qed.

Lemma findAll_leftmost s : ∀ skip, leftmost (drop skip s) (findAll re skip s).
Proof.
  induction s as [|c s IH]; intros skip.
  - destruct skip; cbn; apply leftmost_none; intros i m [Hm (rest & Hs & _)];
      apply isCandidate_length in Hm; destruct i; cbn in Hs;
      apply (f_equal String.length) in Hs; rewrite str_app_length in Hs; cbn in Hs; lia.
  - destruct skip as [|skip]; [|apply IH]. cbn [drop findAll].
    destruct (matchHere re (String c s)) as [[|n]|] eqn:Hm.
    + apply matchHere_sound in Hm as (m & [Hc _] & Hlen).
      apply isCandidate_length in Hc. lia.
    + pose proof Hm as (m & Hc & Hlen)%matchHere_sound.
      pose proof Hc as [_ (rest & Hs & Hstop)].
      assert (Htake : take (S n) (String c s) = m).
      { by rewrite Hs, <- Hlen, str_take_app_le, str_take_all. }
      assert (Hdrop : drop n s = rest).
      { change (drop n s) with (drop (S n) (String c s)).
        by rewrite Hs, <- Hlen, str_drop_app. }
      rewrite Htake. specialize (IH n). rewrite Hdrop in IH.
      rewrite Hs. rewrite <- (str_app_nil_l (m +:+ rest)).
      apply leftmost_match; [|by rewrite <- Hs|done].
      cbn. intros; lia.
    + apply leftmost_skip; [|apply (IH 0)].
      intros m Hc%matchHere_complete. congruence.
Qed.

(** X9: the matches that FindAllString returns for the pattern of
    extractURLsFromFile are the candidates of the line read from left to
    right: each is http:// or https:// followed by a non-empty run of
    bytes that are neither white space nor a double quote, each run goes
    on until the end of the line or such a byte, matches do not overlap,
    and no candidate starts in the text between two matches. *)
Theorem FindAllString_leftmost line :
  leftmost line (FindAllString re line)
  ∧ Forall isCandidate (FindAllString re line)
  ∧ (∀ ms, leftmost line ms → ms = FindAllString re line).
Proof.
  pose proof (findAll_leftmost line 0) as H. rewrite str_drop_0 in H.
  change (findAll re 0 line) with (FindAllString re line) in H.
  split; [done|]. split.
  - induction H as [|g m rest ms _ [Hm _] _ IH]; by constructor.
  - generalize dependent (FindAllString re line). intros ms0 H0 ms Hms.
    revert ms0 H0. induction Hms as [s Hnone | g m rest ms Hgap Hm Hrest IH]; intros ms0 H0.
    + destruct H0 as [|g m rest ms0 _ Hm _]; [done|].
      destruct (Hnone (String.length g) m).
      by rewrite <- (Nat.add_0_r (String.length g)), str_drop_app_ge.
    + remember (g +:+ m +:+ rest) as s eqn:Hs.
      destruct H0 as [s Hnone | g0 m0 rest0 ms0 Hgap0 Hm0 Hrest0].
      * destruct (Hnone (String.length g) m). subst s.
        by rewrite <- (Nat.add_0_r (String.length g)), str_drop_app_ge.
      * assert (Hg : String.length g = String.length g0).
        { destruct (lt_eq_lt_dec (String.length g) (String.length g0)) as [[Hlt|Heq]|Hlt];
            [|done|].
          - destruct (Hgap0 (String.length g) m Hlt). rewrite Hs.
            by rewrite <- (Nat.add_0_r (String.length g)), str_drop_app_ge.
          - destruct (Hgap (String.length g0) m0 Hlt).
            by rewrite <- (Nat.add_0_r (String.length g0)), str_drop_app_ge. }
        assert (Htail : m +:+ rest = m0 +:+ rest0).
        { apply (f_equal (drop (String.length g))) in Hs.
          rewrite str_drop_app in Hs. rewrite Hg, str_drop_app in Hs. done. }
        apply matchHere_complete in Hm, Hm0. rewrite Htail in Hm.
        assert (Hlen : String.length m = String.length m0) by congruence.
        assert (m = m0) as ->.
        { apply (f_equal (take (String.length m))) in Htail.
          rewrite str_take_app_le, str_take_all in Htail by done.
          rewrite Hlen, str_take_app_le, str_take_all in Htail; done. }
        assert (rest = rest0) as ->.
        { apply (f_equal (drop (String.length m0))) in Htail.
          by rewrite !str_drop_app in Htail. }
        f_equal. by apply IH.
Qed.

End Matches.

(** ** The run of main *)

Section Run.

Import GoStrings NetURL.

Implicit Types (s : string) (urls acc out files : list string) (w : World).

Lemma MainGo_main : MainGo.main = mainWith stripSuffix id.
Proof. reflexivity. Qed.

Lemma Part000_main : Part000.main = mainWith id Part000.appendQuotesToString.
Proof. reflexivity. Qed.

Lemma listTSVFiles_run w : ∃ files err, listTSVFiles w = (Return (files, err), w).
Proof.
  unfold listTSVFiles. destruct (os_getwd w) as [d|e]; [|by eexists _, _].
  destruct (walkLoop (os_walk w d) []) as [files err]. by eexists _, _.
Qed.

Lemma extractFile_step fileName acc w :
  ∃ l, MainGo.extractFile fileName acc w =
       (Return (acc ++ collectedFrom w [fileName]), setLog w (os_log w ++ l)).
Proof.
  unfold MainGo.extractFile, bind at 1. unfold logPrint at 1. unfold bind at 1.
  unfold extractURLsFromFile, collectedFrom. cbn [os_open setLog map concat].
  destruct (os_open w fileName) as [scanner|err].
  - unfold bind at 1. rewrite extractLine_loop. unfold ret at 1. cbn [os_log setLog app].
    destruct (scan_err scanner) as [e|]; unfold ret, bind, logPrint; cbn [os_log setLog];
      rewrite ?setLog_setLog, <- ?app_assoc, ?app_nil_r; by eexists.
  - unfold ret, bind, logPrint. cbn [os_log setLog].
    rewrite ?setLog_setLog, <- ?app_assoc, ?app_nil_r. by eexists.
Qed.

Lemma collectedFrom_cons w fileName files :
  collectedFrom w (fileName :: files) = collectedFrom w [fileName] ++ collectedFrom w files.
Proof. unfold collectedFrom. cbn [map concat]. by rewrite app_nil_r. Qed.

Lemma extractFile_loop files : ∀ acc w,
  ∃ l, forRange files MainGo.extractFile acc w =
       (Return (acc ++ collectedFrom w files), setLog w (os_log w ++ l)).
Proof.
  induction files as [|f files IH]; intros acc w.
  - exists []. cbn. by rewrite !app_nil_r, setLog_id.
  - cbn [forRange]. unfold bind at 1.
    destruct (extractFile_step f acc w) as (l1 & ->).
    destruct (IH (acc ++ collectedFrom w [f]) (setLog w (os_log w ++ l1))) as (l2 & ->).
    exists (l1 ++ l2). rewrite (collectedFrom_cons w f files). cbn [os_log setLog].
    change (collectedFrom (setLog w (os_log w ++ l1)) files) with (collectedFrom w files).
    by rewrite setLog_setLog, <- !app_assoc.
Qed.

(** The loop of cleanURLs: it ends the process at the first string that
    passes isUrlValid and that url.Parse rejects, and returns the selected
    strings otherwise; it only logs. *)
Lemma cleanURLWith_run strip urls : ∀ acc w,
  ∃ l, forRange urls (cleanURLWith strip) acc w =
       (if forallb survives urls
        then Return (acc ++ map strip (List.filter wanted urls))
        else Exit 1,
        setLog w (os_log w ++ l)).
Proof.
  induction urls as [|s urls IH]; intros acc w.
  - exists []. cbn. by rewrite !app_nil_r, setLog_id.
  - cbn [forRange forallb List.filter]. unfold bind at 1. rewrite cleanURLWith_step.
    unfold survives at 1, wanted at 1. destruct (isUrlValid s).
    + destruct (Parse s) as [u|err]; cbn [negb orb andb isOk].
      * destruct (domainLoop (Hostname u) validDomains false).
        -- destruct (IH (acc ++ [strip s]) w) as (l & ->). exists l.
           cbn [map]. by rewrite <- app_assoc.
        -- destruct (IH acc (setLog w (os_log w ++
                      ["Invalid domain skipped:  " +:+ Hostname u +:+ newline])))
             as (l & ->).
           eexists. cbn [os_log setLog]. by rewrite setLog_setLog, <- app_assoc.
      * by eexists.
    + cbn [negb orb andb]. apply IH.
Qed.

Lemma logsOnly_setLog w l : logsOnly w (setLog w (os_log w ++ l)).
Proof. split; [by repeat split|]. split; [done|]. by exists l. Qed.

(** saveURLsToFile always returns; it changes no file but the one it is
    given and logs nothing; it reports no error when the file can be
    created and the lines fit the device. *)
Lemma saveURLsToFile_run urls f w :
  ∃ r w', saveURLsToFile urls f w = (Return r, w')
          ∧ sameOracles w w'
          ∧ os_log w' = os_log w
          ∧ (∀ g, g ≠ f → os_disk w' !! g = os_disk w !! g)
          ∧ (os_createErr w f = None →
             withinQuota w (String.length (linesOf urls)) → r = None).
Proof.
  unfold saveURLsToFile, osCreate. destruct (os_createErr w f) as [e|] eqn:Hc.
  { eexists _, w. split; [done|]. split; [apply sameOracles_refl|]. by repeat split. }
  set (w0 := setDisk w (<[f := ""]> (os_disk w))).
  assert (Hw0 : writesOnly f w w0).
  { apply setDisk_writesOnly. intros q _ _. cbn. lia. }
  assert (Hfile0 : fileContent w0 f = "") by apply fileContent_setDisk_insert.
  assert (Hframe : ∀ w', writesOnly f w0 w' →
            sameOracles w w' ∧ os_log w' = os_log w
            ∧ (∀ g, g ≠ f → os_disk w' !! g = os_disk w !! g)).
  { intros w' Hw'. by destruct (writesOnly_trans _ _ _ _ Hw0 Hw') as (? & ? & ? & _). }
  destruct (saveLoop urls (NewWriter f) w0) as [[e b1] w1] eqn:Hl.
  apply saveLoop_gen in Hl as (Hf1 & (rest & Ha & Hr) & Hwo1 & Hfit1); [|done].
  cbn [wr_file NewWriter] in Hf1, Hwo1.
  unfold accepted in Ha, Hfit1. cbn [wr_file wr_buf NewWriter] in Ha, Hfit1.
  rewrite Hfile0, !str_app_nil_l in Ha. rewrite Hfile0 in Hfit1. cbn in Hfit1.
  rewrite Hf1 in Ha.
  assert (Hq0 : withinQuota w (String.length (linesOf urls)) →
                withinQuota w0 (String.length (linesOf urls))).
  { apply withinQuota_same, Hw0. }
  destruct e as [e|].
  - exists (Some e), w1. split; [done|].
    destruct (Hframe w1 Hwo1) as (? & ? & ?). repeat (split; [done|]).
    intros _ Hq. apply Hfit1. rewrite str_app_nil_l. cbn. by apply Hq0.
  - destruct (Hr eq_refl) as [-> He1]. rewrite str_app_nil_r in Ha.
    destruct (Flush b1 w1) as [[e2 b2] w2] eqn:Hfl.
    apply Flush_gen in Hfl as (Hf2 & Ha2 & He2 & Hbuf & Hwo2 & Hfit2).
    rewrite Hf1 in Hwo2.
    assert (Hwo : writesOnly f w0 w2) by (by eapply writesOnly_trans).
    exists e2, w2. split; [done|].
    destruct (Hframe w2 Hwo) as (? & ? & ?). repeat (split; [done|]).
    intros _ Hq. apply Hfit2; [done|]. unfold accepted. rewrite Hf1, <- Ha.
    apply (withinQuota_same w0); [apply Hwo1 | by apply Hq0].
Qed.

Lemma fatal_cases w files err :
  listTSVFiles w = (Return (files, err), w) →
  fatal w = match err with
            | None => negb (forallb survives (deduplicated w files))
            | Some _ => true
            end.
Proof. unfold fatal. by intros ->. Qed.

Lemma mainWith_run strip post w :
  ∃ o w', mainWith strip post w = (o, w')
          ∧ o = (if fatal w then Exit 1 else Return tt)
          ∧ (fatal w = true → os_disk w' = os_disk w)
          ∧ (∀ g, g ≠ outputFile → os_disk w' !! g = os_disk w !! g)
          ∧ os_log w `prefix_of` os_log w'
          ∧ sameOracles w w'.
Proof.
  destruct (listTSVFiles_run w) as (files & err & Hl).
  rewrite (fatal_cases _ _ _ Hl).
  assert (Hlog : ∀ (o : outcome unit) l, ∃ o' w', (o, setLog w (os_log w ++ l)) = (o', w')
            ∧ o' = o
            ∧ (true = true → os_disk w' = os_disk w)
            ∧ (∀ g, g ≠ outputFile → os_disk w' !! g = os_disk w !! g)
            ∧ os_log w `prefix_of` os_log w'
            ∧ sameOracles w w').
  { intros o l. eexists _, _. split; [done|]. split; [done|]. split; [done|].
    split; [done|]. split; [by exists l | by repeat split]. }
  unfold mainWith. unfold bind at 1. rewrite Hl.
  destruct err as [err|]; [apply (Hlog (Exit 1))|].
  destruct files as [|f files].
  { cbn [length Nat.eqb]. unfold logPrint.
    destruct (Hlog (Return tt) [noFilesMessage]) as (o & w' & Heq & -> & _ & Hrest).
    exists (Return tt), w'. split; [done|]. split; [done|]. split; [done|]. exact Hrest. }
  cbn [length Nat.eqb].
  destruct (extractFile_loop (f :: files) [] w) as (l1 & H1).
  unfold bind at 1. rewrite H1. cbn [app]. fold (deduplicated w (f :: files)).
  destruct (cleanURLWith_run strip (deduplicated w (f :: files)) []
              (setLog w (os_log w ++ l1))) as (l2 & H2).
  unfold bind at 1. rewrite H2. cbn [os_log setLog]. rewrite setLog_setLog, <- app_assoc.
  destruct (forallb survives (deduplicated w (f :: files))); [|apply (Hlog (Exit 1))].
  cbn [negb app].
  destruct (saveURLsToFile_run (post (map strip (List.filter wanted (deduplicated w (f :: files)))))
              outputFile (setLog w (os_log w ++ l1 ++ l2)))
    as (r & w3 & Hs & Ho & Hlg & Hd & _).
  unfold bind. rewrite Hs.
  assert (Hend : ∀ msg, ∃ o w', logPrint msg w3 = (o, w')
            ∧ o = Return tt
            ∧ (false = true → os_disk w' = os_disk w)
            ∧ (∀ g, g ≠ outputFile → os_disk w' !! g = os_disk w !! g)
            ∧ os_log w `prefix_of` os_log w'
            ∧ sameOracles w w').
  { intros msg. unfold logPrint. eexists _, _. split; [done|]. split; [done|].
    split; [done|]. split; [intros g Hg; exact (Hd g Hg)|]. split.
    - cbn [os_log setLog]. rewrite Hlg. cbn [os_log setLog].
      exists ((l1 ++ l2) ++ [msg]). by rewrite <- !app_assoc.
    - eapply sameOracles_trans; [|eapply sameOracles_trans; [apply Ho|]]; by repeat split. }
  destruct r as [e|]; apply Hend.
Qed.

Lemma mainWith_confined strip post w : confined (mainWith strip post) w.
Proof.
  destruct (mainWith_run strip post w) as (o & w' & Heq & -> & Hrest).
  unfold confined, exitStatus. rewrite Heq. cbn [fst snd].
  split; [by destruct (fatal w) | exact Hrest].
Qed.

Lemma mainWith_writes strip post w files :
  fst (listTSVFiles w) = Return (files, None) →
  files ≠ [] →
  forallb survives (deduplicated w files) = true →
  os_createErr w outputFile = None →
  withinQuota w (String.length
                   (linesOf (post (map strip (List.filter wanted (deduplicated w files)))))) →
  writes (mainWith strip post) w (post (map strip (List.filter wanted (deduplicated w files)))).
Proof.
  intros Hlist Hne Hsurv Hc Hq.
  destruct (listTSVFiles_run w) as (files' & err & Hl). rewrite Hl in Hlist.
  cbn in Hlist. injection Hlist as -> ->.
  unfold writes, mainWith. unfold bind at 1. rewrite Hl.
  destruct files as [|f files]; [done|]. cbn [length Nat.eqb].
  destruct (extractFile_loop (f :: files) [] w) as (l1 & H1).
  unfold bind at 1. rewrite H1. cbn [app]. fold (deduplicated w (f :: files)).
  destruct (cleanURLWith_run strip (deduplicated w (f :: files)) []
              (setLog w (os_log w ++ l1))) as (l2 & H2).
  unfold bind at 1. rewrite H2, Hsurv. cbn [app].
  destruct (saveURLsToFile_run (post (map strip (List.filter wanted (deduplicated w (f :: files)))))
              outputFile (setLog (setLog w (os_log w ++ l1))
                                 (os_log (setLog w (os_log w ++ l1)) ++ l2)))
    as (r & w3 & Hs & _ & _ & _ & Hok).
  rewrite (Hok Hc Hq) in Hs. unfold bind. rewrite Hs. unfold logPrint.
  eexists. split; [done|]. split.
  - apply saveURLsToFile_content in Hs. done.
  - cbn [os_log setLog]. apply last_snoc.
Qed.

(** X10: what decides the exit status of main, and what main can touch.
    In both programs the process ends with status 1 exactly when the
    listing fails or a deduplicated string passes isUrlValid and is
    rejected by url.Parse, and then no file has been changed; it returns
    (status 0) in every other case, also when saving fails.  No run
    changes a file other than extracted_urls.txt, and the log only
    grows. *)
Theorem main_confined (w : World) :
  confined MainGo.main w ∧ confined Part000.main w.
Proof.
  rewrite MainGo_main, Part000_main. split; apply mainWith_confined.
Qed.

(** X11: the file main leaves behind.  When the listing returns at least
    one file, every deduplicated string survives cleanURLs, the output
    file can be created and the lines fit the device, main returns having
    written, one per line, the selected strings of the deduplicated
    collection: stripped of the suffix in src/main.go, put in quotes with
    a comma in src/unnamed/part_000; its last log entry reports the
    success. *)
Theorem main_writes (w : World) files :
  fst (listTSVFiles w) = Return (files, None) →
  files ≠ [] →
  forallb survives (deduplicated w files) = true →
  os_createErr w outputFile = None →
  os_quota w = None →
  writes MainGo.main w (map stripSuffix (List.filter wanted (deduplicated w files)))
  ∧ writes Part000.main w
      (Part000.appendQuotesToString (List.filter wanted (deduplicated w files))).
Proof.
  intros Hlist Hne Hsurv Hc Hq. rewrite MainGo_main, Part000_main. split.
  - apply (mainWith_writes stripSuffix id); try done. unfold withinQuota. by rewrite Hq.
  - rewrite <- (map_id (List.filter wanted (deduplicated w files))) at 1.
    apply (mainWith_writes id Part000.appendQuotesToString); try done.
    unfold withinQuota. by rewrite Hq.
Qed.

Lemma main_writes_witness :
  writes MainGo.main twinWorld ["https://documentcloud.org/y"; "https://documentcloud.org/y"].
Proof.
  refine (proj1 (main_writes twinWorld ["/data/docs.tsv"] _ _ _ _ _)).
  - vm_compute. reflexivity.
  - discriminate.
  - vm_compute. reflexivity.
  - reflexivity.
  - reflexivity.
Defined.

End Run.

(** ** Deduplication and the later steps *)

Section DedupAlgebra.

Import GoStrings NetURL.

Implicit Types (s l : string) (xs ys seen content : list string) (w : World).

Lemma freshOf_filter (P : string → bool) xs : ∀ seen seen',
  (∀ y, P y = true → (y ∈ seen ↔ y ∈ seen')) →
  freshOf seen (List.filter P xs) = List.filter P (freshOf seen' xs).
Proof.
  induction xs as [|x xs IH]; intros seen seen' Hs; [done|].
  cbn [List.filter freshOf]. destruct (P x) eqn:Hx.
  - cbn [freshOf]. destruct (decide (x ∈ seen)) as [Hin|Hnin].
    + assert (x ∈ seen') by (by apply (Hs x Hx)).
      rewrite !bool_decide_eq_true_2 by done. by apply IH.
    + assert (x ∉ seen') by (by rewrite <- (Hs x Hx)).
      rewrite !bool_decide_eq_false_2 by done.
      cbn [List.filter]. rewrite Hx. f_equal. apply IH.
      intros y Hy. rewrite !elem_of_cons, (Hs y Hy). done.
  - case_bool_decide as Hin; [by apply IH|].
    cbn [List.filter]. rewrite Hx. apply IH.
    intros y Hy. rewrite elem_of_cons, (Hs y Hy).
    split; [by right | intros [->|?]; [congruence | done]].
Qed.

Lemma freshOf_ext ys : ∀ seen seen',
  (∀ y, y ∈ seen ↔ y ∈ seen') → freshOf seen ys = freshOf seen' ys.
Proof.
  induction ys as [|y ys IH]; intros seen seen' Hs; [done|]. cbn [freshOf].
  rewrite (bool_decide_ext _ _ (Hs y)). case_bool_decide; [by apply IH|].
  f_equal. apply IH. intros z. by rewrite !elem_of_cons, Hs.
Qed.

Lemma freshOf_app xs : ∀ ys seen,
  freshOf seen (xs ++ ys) = freshOf seen xs ++ freshOf (xs ++ seen) ys.
Proof.
  induction xs as [|x xs IH]; intros ys seen; [done|]. cbn [app freshOf].
  case_bool_decide as Hin.
  - rewrite IH. f_equal. apply freshOf_ext. intros z.
    rewrite elem_of_cons, !elem_of_app. split; [tauto|].
    intros [->|?]; tauto.
  - cbn [app]. f_equal. rewrite IH. f_equal. apply freshOf_ext. intros z.
    rewrite elem_of_cons, !elem_of_app, elem_of_cons. tauto.
Qed.

Lemma freshOf_drop ys : ∀ seen0 seen,
  freshOf (seen ++ seen0) ys =
  List.filter (λ y, bool_decide (y ∉ seen)) (freshOf seen0 ys).
Proof.
  induction ys as [|y ys IH]; intros seen0 seen; [done|]. cbn [freshOf].
  destruct (decide (y ∈ seen0)) as [H0|H0].
  - rewrite !bool_decide_eq_true_2 by (rewrite ?elem_of_app; auto). apply IH.
  - rewrite (bool_decide_eq_false_2 (y ∈ seen0)) by done. cbn [List.filter].
    destruct (decide (y ∈ seen)) as [H1|H1].
    + rewrite bool_decide_eq_true_2 by (rewrite elem_of_app; auto).
      rewrite (bool_decide_eq_false_2 (y ∉ seen)) by auto.
      rewrite <- IH. apply freshOf_ext. intros z.
      rewrite !elem_of_app, elem_of_cons. split; [tauto|].
      intros [?|[->|?]]; tauto.
    + rewrite bool_decide_eq_false_2 by (rewrite elem_of_app; tauto).
      rewrite (bool_decide_eq_true_2 (y ∉ seen)) by done.
      f_equal. rewrite <- IH. apply freshOf_ext. intros z.
      rewrite !elem_of_cons, !elem_of_app, elem_of_cons. tauto.
Qed.

(** X12: how deduplication composes with the steps around it.  Over the
    concatenation that main builds from the files, a string of a later
    file is kept only when no earlier file holds it; deduplication
    commutes with any selection; and it returns its argument exactly when
    the argument has no repetition. *)
Theorem removeDuplicatesFromSlice_composes xs ys (P : string → bool) :
  removeDuplicatesFromSlice (xs ++ ys) =
    removeDuplicatesFromSlice xs
    ++ List.filter (λ y, bool_decide (y ∉ xs)) (removeDuplicatesFromSlice ys)
  ∧ removeDuplicatesFromSlice (List.filter P xs) = List.filter P (removeDuplicatesFromSlice xs)
  ∧ (removeDuplicatesFromSlice xs = xs ↔ NoDup xs).
Proof.
  rewrite !removeDuplicatesFromSlice_freshOf. split; [|split].
  - rewrite freshOf_app. f_equal. apply freshOf_drop.
  - by apply freshOf_filter.
  - split.
    + intros <-. apply freshOf_NoDup.
    + intros Hnd. apply freshOf_id; [done|]. intros x _. by intros ?%elem_of_nil.
Qed.

Lemma appendQuotesToString_map content :
  Part000.appendQuotesToString content = map quoted content.
Proof. induction content as [|s content IH]; [done|]. cbn. by rewrite IH. Qed.

Lemma unquoted_quoted s : unquoted (quoted s) = s.
Proof.
  unfold unquoted, quoted. rewrite str_app_cons. cbn [drop String.length].
  rewrite str_app_length. cbn [String.length].
  replace (S (String.length s + 2) - 3) with (String.length s) by lia.
  by rewrite str_take_app_le, str_take_all.
Qed.

Lemma quoted_NoDup content : NoDup content → NoDup (map quoted content).
Proof.
  induction content as [|s content IH]; [done|]. cbn [map].
  rewrite !NoDup_cons. intros [Hs Hnd]. split; [|by apply IH].
  rewrite list_elem_of_In, in_map_iff. intros (y & Hy & Hin%list_elem_of_In).
  apply (f_equal unquoted) in Hy. rewrite !unquoted_quoted in Hy. congruence.
Qed.

(** X13: appendQuotesToString puts every string between a double quote
    and a double quote followed by a comma, the strings keep their number
    and order, and the string is read back from its line; so two lists
    with the same lines are equal and a list without repetition gives
    lines without repetition. *)
Theorem appendQuotesToString_quoted content :
  Part000.appendQuotesToString content = map quoted content
  ∧ map unquoted (Part000.appendQuotesToString content) = content
  ∧ (∀ content', Part000.appendQuotesToString content
                 = Part000.appendQuotesToString content' → content = content')
  ∧ (NoDup content → NoDup (Part000.appendQuotesToString content)).
Proof.
  assert (Hback : ∀ c, map unquoted (Part000.appendQuotesToString c) = c).
  { intros c. rewrite appendQuotesToString_map, map_map.
    rewrite <- (map_id c) at 2. apply map_ext, unquoted_quoted. }
  split; [apply appendQuotesToString_map|]. split; [apply Hback|]. split.
  - intros content' Heq. rewrite <- (Hback content), Heq. apply Hback.
  - rewrite appendQuotesToString_map. apply quoted_NoDup.
Qed.

Lemma wanted_no_newline s : wanted s = true → hasNewline s = false.
Proof.
  unfold wanted. destruct (isUrlValid s) eqn:Hv; [|done]. intros _.
  by apply hasNewline_false, isUrlValid_no_newline.
Qed.

(** X14: the lines of the file src/unnamed/part_000 writes are pairwise
    distinct, and each is the quoted form of a string whose host is an
    allowed one: removing duplicates before the selection is as good as
    removing them after it, since nothing alters the selected strings. *)
Theorem Part000_main_distinct_lines (w : World) files :
  fst (listTSVFiles w) = Return (files, None) →
  files ≠ [] →
  forallb survives (deduplicated w files) = true →
  os_createErr w outputFile = None →
  os_quota w = None →
  ∃ w', Part000.main w = (Return tt, w')
        ∧ NoDup (splitLines (fileContent w' outputFile))
        ∧ ∀ l, l ∈ splitLines (fileContent w' outputFile) →
               ∃ s, l = quoted s ∧ wanted s = true.
Proof.
  intros Hlist Hne Hsurv Hc Hq.
  destruct (mainWith_writes id Part000.appendQuotesToString w files Hlist Hne Hsurv Hc)
    as (w' & Hrun & Hfile & _).
  { unfold withinQuota. by rewrite Hq. }
  rewrite map_id in Hfile.
  exists w'. split; [by rewrite Part000_main|]. rewrite Hfile.
  set (sel := List.filter wanted (deduplicated w files)).
  assert (Hsel : ∀ s, s ∈ sel → wanted s = true).
  { intros s Hs%list_elem_of_In. by apply filter_In in Hs as [_ Hs]. }
  rewrite splitLines_linesOf.
  - split.
    + rewrite appendQuotesToString_map. apply quoted_NoDup.
      eapply sublist_NoDup; [|apply filter_sublist].
      unfold deduplicated. rewrite removeDuplicatesFromSlice_freshOf. apply freshOf_NoDup.
    + intros l. rewrite appendQuotesToString_map, list_elem_of_In, in_map_iff.
      intros (s & <- & Hs%list_elem_of_In). exists s. split; [done | by apply Hsel].
  - apply appendQuotesToString_no_newline, Forall_forall.
    intros s Hs. by apply wanted_no_newline, Hsel.
Qed.

Lemma Part000_main_distinct_lines_witness :
  ∃ w', Part000.main twinWorld = (Return tt, w')
        ∧ NoDup (splitLines (fileContent w' outputFile)).
Proof.
  destruct (Part000_main_distinct_lines twinWorld ["/data/docs.tsv"])
    as (w' & Hrun & Hnd & _).
  - vm_compute. reflexivity.
  - discriminate.
  - vm_compute. reflexivity.
  - reflexivity.
  - reflexivity.
  - exists w'. split; [exact Hrun | exact Hnd].
Defined.

End DedupAlgebra.

(** ** The scheme of what is collected *)

Section Schemes.

Import GoStrings NetURL Regexp.

Implicit Types (s m p t body : string) (u : URL) (w : World).

Lemma extends_refl p : extends p p.
Proof. exists "". by rewrite str_app_nil_r. Qed.

Lemma extends_app p s t : extends p s → extends p (s +:+ t).
Proof. intros [r ->]. exists (r +:+ t). by rewrite str_app_assoc. Qed.

Ltac extends_step :=
  lazymatch goal with
  | |- extends ?p ("" +:+ ?p) => rewrite str_app_nil_l; apply extends_refl
  | |- extends _ (if ?b then _ else _) => destruct b; cbv beta iota
  | |- extends _ (match ?x with Some _ => _ | None => _ end) => destruct x; cbv beta iota
  | |- extends _ (match ?x with (_, _) => _ end) => destruct x; cbv beta iota
  | |- extends _ (_ +:+ _) => apply extends_app
  end.

(** A URL with a scheme is written with its scheme and a colon first. *)
Lemma String_scheme u : Scheme u ≠ "" → extends (Scheme u +:+ ":") (String_ u).
Proof.
  intros Hs. unfold String_.
  destruct (String.eqb_spec (Scheme u) "") as [|_]; [done|]. cbv beta iota delta [negb].
  repeat extends_step.
Qed.

Lemma FindAllString_isCandidate line : Forall isCandidate (FindAllString re line).
Proof.
  pose proof (findAll_leftmost line 0) as H.
  change (findAll re 0 line) with (FindAllString re line) in H.
  induction H as [|g m rest ms _ [Hm _] _ IH]; by constructor.
Qed.

Lemma getScheme_http body : getScheme ("http://" +:+ body) = Ok ("http", "//" +:+ body).
Proof. reflexivity. Qed.

Lemma getScheme_https body : getScheme ("https://" +:+ body) = Ok ("https", "//" +:+ body).
Proof. reflexivity. Qed.

(** ParseRequestURI reads a candidate as an absolute URL: the scheme of
    the result is the one the pattern matched. *)
Lemma candidate_Scheme m u :
  isCandidate m → ParseRequestURI m = Ok u → Scheme u = "http" ∨ Scheme u = "https".
Proof.
  intros (body & Hm & _ & _). unfold ParseRequestURI.
  destruct (parse m true) as [u'|] eqn:Hp; [|done]. intros [= ->].
  rewrite parse_unfold in Hp. destruct (stringContainsCTLByte m); [done|].
  destruct (String.eqb m "" && true); [done|].
  destruct (String.eqb_spec m "*") as [Hstar|_].
  { destruct Hm as [-> | ->]; discriminate Hstar. }
  destruct Hm as [-> | ->]; [rewrite getScheme_http in Hp | rewrite getScheme_https in Hp];
    cbn [rbind] in Hp;
    destruct (splitQuery _) as [[rest q] f];
    apply parseTail_Scheme in Hp; rewrite Hp; [by left | by right].
Qed.

Lemma keptOf_hasWebScheme lines s : s ∈ keptOf (candidatesOf lines) → hasWebScheme s.
Proof.
  unfold keptOf. intros (m & Hm & Hs)%list_elem_of_omap.
  assert (Hc : isCandidate m).
  { unfold candidatesOf in Hm. apply list_elem_of_In, in_concat in Hm as (ms & Hms & Hin).
    apply in_map_iff in Hms as (line & <- & _).
    by apply (proj1 (Forall_forall _ _) (FindAllString_isCandidate line)), list_elem_of_In. }
  destruct (ParseRequestURI m) as [u|] eqn:Hp; [|done]. injection Hs as <-.
  pose proof (String_scheme u) as H.
  destruct (candidate_Scheme m u Hc Hp) as [Hu|Hu]; rewrite Hu in H;
    [left | right]; by apply H.
Qed.

Lemma collectedFrom_hasWebScheme w files s : s ∈ collectedFrom w files → hasWebScheme s.
Proof.
  unfold collectedFrom. intros (l & Hl & Hs)%list_elem_of_In%in_concat.
  apply in_map_iff in Hl as (f & <- & _).
  destruct (os_open w f) as [sc|]; [|done]. destruct (scan_err sc); [done|].
  by apply (keptOf_hasWebScheme (scan_lines sc)), list_elem_of_In.
Qed.

(** X15: everything the extraction hands on carries its scheme.  A
    candidate starts with http:// or https://, so ParseRequestURI reads it
    as an absolute URL, and the re-serialization starts with that scheme
    and a colon: each string extractURLsFromFile returns, and each string
    main passes to cleanURLs, starts with http: or https:. *)
Theorem extracted_web_scheme (w : World) :
  (∀ line m u, m ∈ FindAllString re line → ParseRequestURI m = Ok u →
               (Scheme u = "http" ∨ Scheme u = "https")
               ∧ extends (Scheme u +:+ ":") (String_ u))
  ∧ (∀ fileName urls,
       fst (extractURLsFromFile fileName w) = Return (Ok urls) → Forall hasWebScheme urls)
  ∧ (∀ files, Forall hasWebScheme (deduplicated w files)).
Proof.
  split; [|split].
  - intros line m u Hm Hp.
    assert (Hc : isCandidate m).
    { by apply (proj1 (Forall_forall _ _) (FindAllString_isCandidate line)). }
    pose proof (candidate_Scheme m u Hc Hp) as Hs. split; [done|].
    apply String_scheme. by destruct Hs as [-> | ->].
  - intros fileName urls. unfold extractURLsFromFile.
    destruct (os_open w fileName) as [sc|err]; [|done].
    unfold bind. rewrite extractLine_loop. cbn [app].
    destruct (scan_err sc); [done|]. intros [= <-].
    apply Forall_forall. intros s. apply keptOf_hasWebScheme.
  - intros files. apply Forall_forall. intros s Hs.
    apply (collectedFrom_hasWebScheme w files). unfold deduplicated in Hs.
    rewrite removeDuplicatesFromSlice_freshOf in Hs. by apply freshOf_NoDup in Hs as [Hs _].
Qed.

End Schemes.

(** ** The lines of the output file *)

Section Lines.

Import GoStrings NetURL.

Implicit Types (s l : string) (w : World).

Lemma wanted_stripSuffix s :
  wanted s = true → ∃ u, Parse (stripSuffix s) = Ok u ∧ Hostname u ∈ validDomains.
Proof.
  unfold wanted. destruct (isUrlValid s); [|done].
  destruct (Parse s) as [u|] eqn:Hp; [|done]. cbn [andb].
  intros Hd%domainLoop_allowed. unfold stripSuffix.
  destruct (TrimSuffix_cases s MainGo.unwantedSuffix) as [->|Hsplit]; [by eauto|].
  rewrite Hsplit in Hp. destruct (Parse_suffix _ _ Hp Hd) as (u' & Hp' & Hh).
  exists u'. split; [done|]. by rewrite Hh.
Qed.

(** X16: every line of the file src/main.go writes is a URL of an
    allowed host.  When main returns after a successful save, each line of
    extracted_urls.txt is a selected string without the unwanted suffix;
    url.Parse accepts it and its host name is one of the four allowed
    names. *)
Theorem MainGo_main_allowed_lines (w : World) files :
  fst (listTSVFiles w) = Return (files, None) →
  files ≠ [] →
  forallb survives (deduplicated w files) = true →
  os_createErr w outputFile = None →
  os_quota w = None →
  ∃ w', MainGo.main w = (Return tt, w')
        ∧ splitLines (fileContent w' outputFile)
          = map stripSuffix (List.filter wanted (deduplicated w files))
        ∧ ∀ l, l ∈ splitLines (fileContent w' outputFile) →
               ∃ u, Parse l = Ok u ∧ Hostname u ∈ validDomains.
Proof.
  intros Hlist Hne Hsurv Hc Hq.
  destruct (mainWith_writes stripSuffix id w files Hlist Hne Hsurv Hc)
    as (w' & Hrun & Hfile & _).
  { unfold withinQuota. by rewrite Hq. }
  exists w'. split; [by rewrite MainGo_main|]. rewrite Hfile. unfold id.
  assert (Hsel : ∀ s, s ∈ List.filter wanted (deduplicated w files) → wanted s = true).
  { intros s Hs%list_elem_of_In. by apply filter_In in Hs as [_ Hs]. }
  rewrite splitLines_linesOf.
  - split; [done|]. intros l. rewrite list_elem_of_In, in_map_iff.
    intros (s & <- & Hs%list_elem_of_In). by apply wanted_stripSuffix, Hsel.
  - apply Forall_forall. intros l. rewrite list_elem_of_In, in_map_iff.
    intros (s & <- & Hs%list_elem_of_In). apply hasNewline_false, TrimSuffix_no_newline.
    apply hasNewline_indexByte, wanted_no_newline. by apply Hsel.
Qed.

Lemma MainGo_main_allowed_lines_witness :
  ∃ w', MainGo.main twinWorld = (Return tt, w')
        ∧ ∀ l, l ∈ splitLines (fileContent w' outputFile) →
               ∃ u, Parse l = Ok u ∧ Hostname u ∈ validDomains.
Proof.
  destruct (MainGo_main_allowed_lines twinWorld ["/data/docs.tsv"])
    as (w' & Hrun & _ & Hlines).
  - vm_compute. reflexivity.
  - discriminate.
  - vm_compute. reflexivity.
  - reflexivity.
  - reflexivity.
  - exists w'. split; [exact Hrun | exact Hlines].
Defined.

End Lines.

(** ** The two programs side by side *)

Section SideBySide.

Import GoStrings NetURL.

Implicit Types (s : string) (urls acc out : list string) (w : World).

Lemma cleanURLWith_strip strip urls : ∀ acc w,
  forRange urls (cleanURLWith strip) (map strip acc) w =
  match forRange urls (cleanURLWith id) acc w with
  | (Return out, w') => (Return (map strip out), w')
  | (Exit code, w') => (Exit code, w')
  end.
Proof.
  induction urls as [|s urls IH]; intros acc w; [done|].
  cbn [forRange]. unfold bind. rewrite !cleanURLWith_step.
  destruct (isUrlValid s); [|apply IH].
  destruct (Parse s) as [u|err]; [|done].
  destruct (domainLoop (Hostname u) validDomains false); [|apply IH].
  rewrite <- IH. by rewrite map_app.
Qed.

(** X17: the two versions of cleanURLs make the same decisions.  On the
    same input and in the same world, src/main.go returns exactly when
    src/unnamed/part_000 returns, with the same log, and its result is the
    result of part_000 with the unwanted suffix removed from each string;
    when one ends the process, so does the other, with the same status. *)
Theorem cleanURLs_same_selection urls w :
  MainGo.cleanURLs urls w =
  match Part000.cleanURLs urls w with
  | (Return out, w') => (Return (map stripSuffix out), w')
  | (Exit code, w') => (Exit code, w')
  end.
Proof.
  unfold MainGo.cleanURLs, Part000.cleanURLs. rewrite MainGo_cleanURL, Part000_cleanURL.
  apply (cleanURLWith_strip stripSuffix urls []).
Qed.

End SideBySide.

(** ** Plain URLs of the allowed hosts *)

Section PlainURLs.

Import GoStrings NetURL Regexp.

Implicit Types (s p d scheme : string) (c : ascii) (w : World).

Lemma plainByte_facts c :
  plainByte c = true →
  ((c <? " ") || (c =? "127"))%char = false
  ∧ (c =? "?")%char = false
  ∧ (c =? "#")%char = false
  ∧ (c =? "%")%char = false
  ∧ (c =? "+")%char = false
  ∧ (c =? ";")%char = false
  ∧ shouldEscape c encodePath = false
  ∧ urlByte c = true.
Proof.
  destruct c as [[] [] [] [] [] [] [] []]; intros H;
    first [discriminate H | by vm_compute].
Qed.

Lemma plain_strings p :
  allBytes plainByte p = true →
  stringContainsCTLByte p = false
  ∧ CountByte p "?" = 0
  ∧ indexByte "#" p = None
  ∧ unescapeScan p encodePath 0 false = Ok (0, false)
  ∧ escapeCount p encodePath = 0
  ∧ allBytes urlByte p = true.
Proof.
  induction p as [|c p IH]; [done|]. cbn [allBytes].
  intros [Hc Hp]%andb_true_iff. destruct (IH Hp) as (I1 & I2 & I3 & I4 & I5 & I6).
  destruct (plainByte_facts c Hc) as (F1 & F2 & F3 & F4 & F5 & _ & F7 & F8).
  cbn [stringContainsCTLByte CountByte indexByte unescapeScan escapeCount allBytes].
  rewrite F1, F2, F3, F4, F5, F7, F8, I1, I2, I3, I4, I5, I6. done.
Qed.

Lemma plain_lastByte p c :
  allBytes plainByte p = true → plainByte c = true →
  ∃ e, lastByte (String c p) = Some e ∧ plainByte e = true.
Proof.
  revert c. induction p as [|b p IH]; intros c Hp Hc; [by exists c|].
  cbn [allBytes] in Hp. apply andb_true_iff in Hp as [Hb Hp].
  destruct (IH b Hp Hb) as (e & He & Hpe). exists e. cbn [lastByte] in He |- *.
  by rewrite He.
Qed.

Lemma validDomains_hostFacts d : d ∈ validDomains → hostFacts d.
Proof.
  unfold validDomains. rewrite !elem_of_cons, elem_of_nil.
  intros [->|[->|[->|[->|[]]]]]; repeat split; vm_compute; reflexivity.
Qed.

Lemma scheme_facts scheme x :
  scheme = "http" ∨ scheme = "https" →
  getScheme (scheme +:+ "://" +:+ x) = Ok (scheme, "//" +:+ x)
  ∧ String.eqb (scheme +:+ "://" +:+ x) "" = false
  ∧ String.eqb (scheme +:+ "://" +:+ x) "*" = false
  ∧ ToLower scheme = scheme
  ∧ String.eqb scheme "" = false
  ∧ stringContainsCTLByte (scheme +:+ "://") = false
  ∧ indexByte "#" (scheme +:+ "://") = None
  ∧ allBytes urlByte scheme = true.
Proof. intros [-> | ->]; repeat split; reflexivity. Qed.

Lemma splitQuery_none rest0 : CountByte rest0 "?" = 0 → splitQuery rest0 = (rest0, "", false).
Proof.
  intros H. unfold splitQuery, Cut. rewrite H. cbn [Nat.eqb]. rewrite andb_false_r.
  by rewrite Index_byte, (CountByte_0 _ _ H).
Qed.

Lemma splitAuthority_slash d x :
  indexByte "/" d = None → splitAuthority (d +:+ "/" +:+ x) = (d, "/" +:+ x).
Proof.
  intros H. unfold splitAuthority. rewrite Index_byte, indexByte_app, H.
  rewrite str_app_cons. cbn [indexByte Ascii.eqb Bool.eqb option_map].
  rewrite str_drop_app_ge, str_drop_0, Nat.add_0_r.
  by rewrite str_take_app_le, str_take_all by lia.
Qed.

Lemma setPath_plain u p :
  allBytes plainByte p = true →
  setPath u ("/" +:+ p) =
  Ok (mkURL (Scheme u) (Opaque u) (User u) (Host u) ("/" +:+ p) ""
            (OmitHost u) (ForceQuery u) (RawQuery u) (Fragment u) (RawFragment u)).
Proof.
  intros Hp. assert (Hq : allBytes plainByte ("/" +:+ p) = true).
  { rewrite str_app_cons, str_app_nil_l. cbn [allBytes]. by rewrite Hp. }
  destruct (plain_strings _ Hq) as (_ & _ & _ & Hscan & Hesc & _).
  unfold setPath, unescape. rewrite Hscan. cbn [rbind Nat.eqb negb andb].
  unfold escape. rewrite Hesc. cbn [Nat.eqb]. by rewrite String.eqb_refl.
Qed.

(** Both parsers read a plain URL in the same way. *)
Lemma parse_plain scheme d p via :
  scheme = "http" ∨ scheme = "https" → hostFacts d → allBytes plainByte p = true →
  parse (webURL scheme d p) via = Ok (webRecord scheme d p).
Proof.
  intros Hs (D1 & D2 & D3 & _ & D5 & _) Hp. unfold webURL.
  destruct (scheme_facts scheme (d +:+ "/" +:+ p) Hs) as (S1 & S2 & S3 & S4 & S5 & S6 & _).
  assert (Hq : allBytes plainByte ("/" +:+ p) = true).
  { rewrite str_app_cons, str_app_nil_l. cbn [allBytes]. by rewrite Hp. }
  destruct (plain_strings _ Hq) as (P1 & P2 & _).
  rewrite parse_unfold, S2, S3, S1. cbn [andb rbind].
  replace (stringContainsCTLByte (scheme +:+ "://" +:+ d +:+ "/" +:+ p)) with false.
  2:{ rewrite <- (str_app_assoc scheme), stringContainsCTLByte_app, S6.
      by rewrite stringContainsCTLByte_app, D1, P1. }
  rewrite splitQuery_none.
  2:{ by rewrite (CountByte_app "//"), (CountByte_app d), D2, P2. }
  rewrite S4. unfold parseTail, parseWithAuthority, parseAuthorityStep, hasAuthority.
  rewrite S5. rewrite (HasPrefix_app "//").
  change ("//" +:+ d +:+ "/" +:+ p) with ("/" +:+ "/" +:+ d +:+ "/" +:+ p) at 1.
  rewrite (HasPrefix_app "/").
  cbn [negb orb andb].
  replace (drop 2 ("//" +:+ d +:+ "/" +:+ p)) with (d +:+ "/" +:+ p) by reflexivity.
  rewrite splitAuthority_slash by done. rewrite D5. cbn [rbind].
  by rewrite setPath_plain.
Qed.

Lemma plain_no_fragment scheme d p :
  scheme = "http" ∨ scheme = "https" → hostFacts d → allBytes plainByte p = true →
  Contains (webURL scheme d p) "#" = false.
Proof.
  intros Hs (_ & _ & _ & D4 & _) Hp. unfold webURL, Contains.
  destruct (scheme_facts scheme "" Hs) as (_ & _ & _ & _ & _ & _ & S7 & _).
  assert (Hq : allBytes plainByte ("/" +:+ p) = true).
  { rewrite str_app_cons, str_app_nil_l. cbn [allBytes]. by rewrite Hp. }
  destruct (plain_strings _ Hq) as (_ & _ & P3 & _).
  rewrite Index_byte, <- (str_app_assoc scheme).
  rewrite indexByte_app_none, S7; [done|]. by rewrite indexByte_app_none, D4.
Qed.

Lemma Parse_plain scheme d p :
  scheme = "http" ∨ scheme = "https" → hostFacts d → allBytes plainByte p = true →
  Parse (webURL scheme d p) = Ok (webRecord scheme d p).
Proof.
  intros Hs Hd Hp. rewrite Parse_no_fragment by (by apply plain_no_fragment).
  by rewrite parse_plain.
Qed.

Lemma ParseRequestURI_plain scheme d p :
  scheme = "http" ∨ scheme = "https" → hostFacts d → allBytes plainByte p = true →
  ParseRequestURI (webURL scheme d p) = Ok (webRecord scheme d p).
Proof. intros Hs Hd Hp. unfold ParseRequestURI. by rewrite parse_plain. Qed.

(** Writing the record gives the string back. *)
Lemma String_plain scheme d p :
  scheme = "http" ∨ scheme = "https" → hostFacts d → allBytes plainByte p = true →
  String_ (webRecord scheme d p) = webURL scheme d p.
Proof.
  intros Hs (_ & _ & _ & _ & _ & D6 & D7 & _) Hp.
  assert (Hq : allBytes plainByte ("/" +:+ p) = true).
  { rewrite str_app_cons, str_app_nil_l. cbn [allBytes]. by rewrite Hp. }
  destruct (plain_strings _ Hq) as (_ & _ & _ & _ & Hesc & _).
  assert (Hpath : EscapedPath (webRecord scheme d p) = "/" +:+ p).
  { unfold EscapedPath, webRecord. cbn [Path RawPath String.eqb negb andb].
    unfold escape. rewrite Hesc. cbn [Nat.eqb].
    rewrite str_app_cons. by cbn [String.eqb Ascii.eqb Bool.eqb]. }
  unfold String_. rewrite Hpath. unfold webRecord, webURL.
  cbn [Scheme Opaque User Host Path OmitHost ForceQuery RawQuery Fragment isSome].
  rewrite D6, D7, (HasPrefix_app "/"). cbn [String.eqb negb andb orb].
  destruct Hs as [-> | ->]; reflexivity.
Qed.

Lemma allBytes_app (P : ascii → bool) a b :
  allBytes P (a +:+ b) = allBytes P a && allBytes P b.
Proof.
  induction a as [|c a IH]; [done|]. rewrite str_app_cons. cbn [allBytes].
  by rewrite IH, andb_assoc.
Qed.

Lemma findAll_skip_all s : findAll re (String.length s) s = [].
Proof. induction s as [|c s IH]; [done|]. exact IH. Qed.

(** The pattern matches a plain URL as a whole. *)
Lemma FindAllString_plain scheme d p :
  scheme = "http" ∨ scheme = "https" → hostFacts d → allBytes plainByte p = true →
  FindAllString re (webURL scheme d p) = [webURL scheme d p].
Proof.
  intros Hs (_ & _ & _ & _ & _ & _ & _ & _ & D9) Hp.
  assert (Hq : allBytes plainByte ("/" +:+ p) = true).
  { rewrite str_app_cons, str_app_nil_l. cbn [allBytes]. by rewrite Hp. }
  destruct (plain_strings _ Hq) as (_ & _ & _ & _ & _ & P6).
  assert (Hc : candidateAt (webURL scheme d p) (webURL scheme d p)).
  { split.
    - exists (d +:+ "/" +:+ p). split; [destruct Hs as [-> | ->]; by auto|]. split.
      + intros H%(f_equal String.length). rewrite !str_app_length in H. cbn in H. lia.
      + by rewrite allBytes_app, D9, P6.
    - exists "". by rewrite str_app_nil_r. }
  apply matchHere_complete in Hc. unfold FindAllString.
  assert (Hne : ∃ c s', webURL scheme d p = String c s').
  { destruct Hs as [-> | ->]; by eexists _, _. }
  destruct Hne as (c & s' & Heq). rewrite Heq in Hc |- *. cbn [findAll]. rewrite Hc.
  cbn [String.length take]. by rewrite str_take_all, findAll_skip_all.
Qed.

Lemma plain_no_suffix scheme d p :
  allBytes plainByte p = true → stripSuffix (webURL scheme d p) = webURL scheme d p.
Proof.
  intros Hp. unfold stripSuffix.
  destruct (TrimSuffix_cases (webURL scheme d p) MainGo.unwantedSuffix) as [|Hsplit]; [done|].
  apply (f_equal lastByte) in Hsplit. rewrite lastByte_app in Hsplit by done.
  unfold webURL in Hsplit.
  rewrite 3!lastByte_app in Hsplit
    by (intros H%(f_equal String.length); rewrite !str_app_length in H; cbn in H; lia).
  rewrite str_app_cons, str_app_nil_l in Hsplit.
  destruct (plain_lastByte p "/" Hp eq_refl) as (e & He & Hpe).
  rewrite He in Hsplit. injection Hsplit as ->.
  by destruct (plainByte_facts _ Hpe) as (_ & _ & _ & _ & _ & ? & _).
Qed.

Lemma cleanURLWith_plain strip scheme d p acc w :
  scheme = "http" ∨ scheme = "https" → d ∈ validDomains → allBytes plainByte p = true →
  cleanURLWith strip (webURL scheme d p) acc w = (Return (acc ++ [strip (webURL scheme d p)]), w).
Proof.
  intros Hs Hd Hp. pose proof (validDomains_hostFacts d Hd) as Hf.
  rewrite cleanURLWith_step. unfold isUrlValid.
  rewrite ParseRequestURI_plain, Parse_plain by done. cbn [isOk].
  replace (Hostname (webRecord scheme d p)) with d.
  2:{ unfold Hostname, webRecord. cbn [Host]. by destruct Hf as (_&_&_&_&_&_&_&->&_). }
  by rewrite (proj2 (domainLoop_allowed d) Hd).
Qed.

(** X18: a plain URL of an allowed host goes through every step
    unchanged.  For a scheme http or https, an allowed host and a path of
    letters, digits and the bytes - _ . ~ /, the pattern matches the
    whole string, ParseRequestURI and url.Parse return the same record,
    writing the record gives the string back, the host name is the allowed
    host, and cleanURLs of both programs keeps the string as it is. *)
Theorem plain_url_unchanged scheme d p :
  scheme = "http" ∨ scheme = "https" → d ∈ validDomains → allBytes plainByte p = true →
  FindAllString re (webURL scheme d p) = [webURL scheme d p]
  ∧ ParseRequestURI (webURL scheme d p) = Ok (webRecord scheme d p)
  ∧ Parse (webURL scheme d p) = Ok (webRecord scheme d p)
  ∧ String_ (webRecord scheme d p) = webURL scheme d p
  ∧ Hostname (webRecord scheme d p) = d
  ∧ (∀ acc w,
       MainGo.cleanURL (webURL scheme d p) acc w = (Return (acc ++ [webURL scheme d p]), w)
       ∧ Part000.cleanURL (webURL scheme d p) acc w
         = (Return (acc ++ [webURL scheme d p]), w)).
Proof.
  intros Hs Hd Hp. pose proof (validDomains_hostFacts d Hd) as Hf.
  split; [by apply FindAllString_plain|]. split; [by apply ParseRequestURI_plain|].
  split; [by apply Parse_plain|]. split; [by apply String_plain|]. split.
  - unfold Hostname, webRecord. cbn [Host]. by destruct Hf as (_&_&_&_&_&_&_&->&_).
  - intros acc w. rewrite MainGo_cleanURL, Part000_cleanURL.
    rewrite !cleanURLWith_plain by done. by rewrite plain_no_suffix.
Qed.

Lemma plain_url_unchanged_witness :
  FindAllString re (webURL "https" "documentcloud.org" "docs/123.pdf")
  = [webURL "https" "documentcloud.org" "docs/123.pdf"].
Proof.
  refine (proj1 (plain_url_unchanged "https" "documentcloud.org" "docs/123.pdf" _ _ _)).
  - right. reflexivity.
  - apply list_elem_of_In. cbn. tauto.
  - reflexivity.
Defined.

Lemma plainWebURL_inv s :
  plainWebURL s = true →
  ∃ scheme d p, (scheme = "http" ∨ scheme = "https") ∧ d ∈ validDomains
                ∧ allBytes plainByte p = true ∧ s = webURL scheme d p.
Proof.
  unfold plainWebURL. intros (scheme & Hs & (d & Hd & H)%existsb_exists)%existsb_exists.
  apply andb_true_iff in H as [Hpre Hp]. apply HasPrefix_split in Hpre.
  exists scheme, d, (drop (String.length (webURL scheme d "")) s).
  split; [destruct Hs as [<-|[<-|[]]]; by auto|]. split; [by apply list_elem_of_In|].
  split; [done|].
  rewrite Hpre at 1. unfold webURL. by rewrite !str_app_assoc, str_app_nil_l.
Qed.

Lemma keptOf_plain lines :
  forallb plainWebURL lines = true → keptOf (candidatesOf lines) = lines.
Proof.
  induction lines as [|l lines IH]; [done|]. cbn [forallb].
  intros [(scheme & d & p & Hs & Hd & Hp & ->)%plainWebURL_inv Hrest]%andb_true_iff.
  pose proof (validDomains_hostFacts d Hd) as Hf.
  unfold candidatesOf. cbn [map concat]. rewrite FindAllString_plain by done.
  cbn [app]. unfold keptOf. cbn [omap list_omap].
  rewrite ParseRequestURI_plain, String_plain by done. f_equal. by apply IH.
Qed.

Lemma collectedFrom_plain w files :
  forallb (plainFile w) files = true → collectedFrom w files = allLines w files.
Proof.
  induction files as [|f files IH]; [done|]. cbn [forallb].
  intros [Hf Hrest]%andb_true_iff. unfold collectedFrom, allLines. cbn [map concat].
  fold (collectedFrom w files). fold (allLines w files). rewrite IH by done. f_equal.
  unfold plainFile in Hf. destruct (os_open w f) as [sc|]; [|done].
  apply andb_true_iff in Hf as [He Hl]. destruct (scan_err sc); [done|].
  by apply keptOf_plain.
Qed.

Lemma allLines_plain w files s :
  forallb (plainFile w) files = true → s ∈ allLines w files → plainWebURL s = true.
Proof.
  intros Hall (l & Hl & Hs)%list_elem_of_In%in_concat.
  apply in_map_iff in Hl as (f & <- & Hf).
  apply (proj1 (forallb_forall _ _) Hall) in Hf. unfold plainFile in Hf.
  destruct (os_open w f) as [sc|]; [|done]. apply andb_true_iff in Hf as [_ Hf].
  by apply (proj1 (forallb_forall _ _) Hf).
Qed.

Lemma filter_all (P : string → bool) (l : list string) :
  forallb P l = true → List.filter P l = l.
Proof.
  induction l as [|x l IH]; [done|]. cbn. intros [-> Hl]%andb_true_iff. by rewrite IH.
Qed.

Lemma plainWebURL_wanted s :
  plainWebURL s = true → wanted s = true ∧ survives s = true ∧ stripSuffix s = s.
Proof.
  intros (scheme & d & p & Hs & Hd & Hp & ->)%plainWebURL_inv.
  pose proof (validDomains_hostFacts d Hd) as Hf.
  unfold wanted, survives, isUrlValid.
  rewrite ParseRequestURI_plain, Parse_plain by done. cbn [isOk negb orb andb].
  replace (Hostname (webRecord scheme d p)) with d.
  2:{ unfold Hostname, webRecord. cbn [Host]. by destruct Hf as (_&_&_&_&_&_&_&->&_). }
  rewrite (proj2 (domainLoop_allowed d) Hd). by rewrite plain_no_suffix.
Qed.

(** X19: a run on files of plain URLs.  When the listing returns at least
    one file, every listed file opens, is read to its end and holds on
    each line a plain URL of an allowed host, and the output can be
    written, main returns and extracted_urls.txt holds the distinct lines
    of the files in the order of their first occurrence: as they are in
    src/main.go, each in quotes and followed by a comma in
    src/unnamed/part_000. *)
Theorem main_plain_files (w : World) files :
  fst (listTSVFiles w) = Return (files, None) →
  files ≠ [] →
  forallb (plainFile w) files = true →
  os_createErr w outputFile = None →
  os_quota w = None →
  writes MainGo.main w (removeDuplicatesFromSlice (allLines w files))
  ∧ writes Part000.main w
      (Part000.appendQuotesToString (removeDuplicatesFromSlice (allLines w files))).
Proof.
  intros Hlist Hne Hplain Hc Hq.
  assert (Hded : deduplicated w files = removeDuplicatesFromSlice (allLines w files)).
  { unfold deduplicated. by rewrite collectedFrom_plain. }
  assert (Hall : ∀ s, s ∈ deduplicated w files → plainWebURL s = true).
  { intros s. rewrite Hded, removeDuplicatesFromSlice_freshOf.
    intros [Hs _]%freshOf_NoDup. by apply (allLines_plain w files). }
  assert (Hsurv : forallb survives (deduplicated w files) = true).
  { apply forallb_forall. intros s Hs%list_elem_of_In. by apply plainWebURL_wanted, Hall. }
  assert (Hsel : List.filter wanted (deduplicated w files) = deduplicated w files).
  { apply filter_all, forallb_forall. intros s Hs%list_elem_of_In.
    by apply plainWebURL_wanted, Hall. }
  assert (Hstrip : map stripSuffix (deduplicated w files) = deduplicated w files).
  { rewrite <- (map_id (deduplicated w files)) at 2. apply map_ext_in.
    intros s Hs%list_elem_of_In. by apply plainWebURL_wanted, Hall. }
  assert (Hquota : ∀ n, withinQuota w n) by (intros n; unfold withinQuota; by rewrite Hq).
  rewrite MainGo_main, Part000_main. split.
  - pose proof (mainWith_writes stripSuffix id w files Hlist Hne Hsurv Hc (Hquota _)) as H.
    unfold id in H. by rewrite Hsel, Hstrip, Hded in H.
  - pose proof (mainWith_writes id Part000.appendQuotesToString w files Hlist Hne Hsurv Hc
                  (Hquota _)) as H.
    by rewrite Hsel, map_id, Hded in H.
Qed.

Lemma main_plain_files_witness :
  writes MainGo.main plainWorld
    [ "https://www.documentcloud.org/docs/123.pdf"; "http://s3.documentcloud.org/y" ].
Proof.
  refine (proj1 (main_plain_files plainWorld ["/data/docs.tsv"] _ _ _ _ _)).
  - vm_compute. reflexivity.
  - discriminate.
  - vm_compute. reflexivity.
  - reflexivity.
  - reflexivity.
Defined.

End PlainURLs.

(** ** What url.Parse checks and ParseRequestURI does not *)

Section ParseAgain.

Import GoStrings NetURL.

Implicit Types (a b g s r p u : string) (c d : ascii) (i n : nat) (mode : encoding).

Lemma rbind_isOk {E A B} (r : result E A) (k : A → result E B) :
  isOk (rbind r k) = true → ∃ x, r = Ok x ∧ isOk (k x) = true.
Proof. destruct r as [x|e]; [by exists x | done]. Qed.

Lemma unescape_isOk s mode : isOk (unescape s mode) = isOk (unescapeScan s mode 0 false).
Proof.
  unfold unescape. destruct (unescapeScan s mode 0 false) as [[n hp]|]; [|done].
  cbn. by destruct (_ && _).
Qed.

Lemma setPath_isOk (u0 : URL) p : isOk (setPath u0 p) = isOk (unescape p encodePath).
Proof. unfold setPath. by destruct (unescape p encodePath). Qed.

Lemma setFragment_isOk (u0 : URL) (f : string) : isOk (setFragment u0 f) = isOk (unescape f encodeFragment).
Proof. unfold setFragment. by destruct (unescape f encodeFragment). Qed.

(** The counters of the first loop of unescape do not decide whether it
    succeeds. *)
Lemma unescapeScan_counters mode s : ∀ n hp n' hp',
  isOk (unescapeScan s mode n hp) = isOk (unescapeScan s mode n' hp').
Proof.
  induction s as [|c s Hc IH|h1 h2 s IH| |h1] using escape_ind; intros n hp n' hp'.
  - done.
  - cbn [unescapeScan]. rewrite Hc.
    destruct (c =? "+")%char; [apply IH|].
    destruct (_ && _); [done | apply IH].
  - cbn [unescapeScan]. rewrite Ascii.eqb_refl.
    repeat (destruct (_ || _) || destruct (_ && _)); try done; apply IH.
  - done.
  - done.
Qed.

(** A well-formed string stays well formed when it is cut at a '#'. *)
Lemma unescapeScan_before_hash mode g a : ∀ n hp,
  isOk (unescapeScan (a +:+ String "#" g) mode n hp) = true →
  isOk (unescapeScan a mode n hp) = true.
Proof.
  induction a as [|c a Hc IH|h1 h2 a IH| |h1] using escape_ind; intros n hp.
  - done.
  - rewrite str_app_cons. cbn [unescapeScan]. rewrite Hc.
    destruct (c =? "+")%char; [apply IH|].
    destruct (_ && _); [done | apply IH].
  - rewrite !str_app_cons. cbn [unescapeScan]. rewrite Ascii.eqb_refl.
    cbn [take]. repeat (destruct (_ || _) || destruct (_ && _)); try done; apply IH.
  - rewrite str_app_cons, str_app_nil_l. cbn [unescapeScan Ascii.eqb Bool.eqb].
    destruct g as [|h2 g]; [done|]. by cbn.
  - rewrite !str_app_cons, str_app_nil_l. cbn [unescapeScan Ascii.eqb Bool.eqb].
    replace (ishex "#") with false by done. by rewrite orb_true_r.
Qed.

Lemma unescape_before_hash mode a g :
  isOk (unescape (a +:+ String "#" g) mode) = true → isOk (unescape a mode) = true.
Proof. rewrite !unescape_isOk. apply unescapeScan_before_hash. Qed.

(** ... and when its part before a '/' is dropped. *)
Lemma unescapeScan_from_slash mode b a : ∀ n hp,
  isOk (unescapeScan (a +:+ String "/" b) mode n hp) = true →
  isOk (unescapeScan (String "/" b) mode 0 false) = true.
Proof.
  set (tail := isOk (unescapeScan (String "/" b) mode 0 false)).
  induction a as [|c a Hc IH|h1 h2 a IH| |h1] using escape_ind; intros n hp.
  - rewrite str_app_nil_l. unfold tail.
    by rewrite (unescapeScan_counters mode _ n hp 0 false).
  - rewrite str_app_cons. cbn [unescapeScan]. rewrite Hc.
    destruct (c =? "+")%char; [apply IH|].
    destruct (_ && _); [done | apply IH].
  - rewrite !str_app_cons. cbn [unescapeScan]. rewrite Ascii.eqb_refl.
    cbn [take]. repeat (destruct (_ || _) || destruct (_ && _)); try done; apply IH.
  - rewrite str_app_cons, str_app_nil_l. cbn [unescapeScan Ascii.eqb Bool.eqb].
    destruct b as [|h2 b]; [done|]. by cbn.
  - rewrite !str_app_cons, str_app_nil_l. cbn [unescapeScan Ascii.eqb Bool.eqb].
    replace (ishex "/") with false by done. by rewrite orb_true_r.
Qed.

(** *** Splitting at a byte *)

Lemma indexByte_split c s i :
  indexByte c s = Some i →
  s = take i s +:+ String c (drop (i + 1) s)
  ∧ indexByte c (take i s) = None
  ∧ drop i s = String c (drop (i + 1) s).
Proof.
  revert i. induction s as [|d s IH]; intros i; [done|]. cbn [indexByte].
  destruct (Ascii.eqb_spec d c) as [->|Hne].
  - intros [= <-]. cbn. by rewrite str_app_nil_l, ?Ascii.eqb_refl.
  - destruct (indexByte c s) as [j|]; [|done]. intros [= <-].
    destruct (IH j eq_refl) as (H1 & H2 & H3). cbn [take drop Nat.add indexByte].
    rewrite str_app_cons, <- H1, H2, H3.
    destruct (Ascii.eqb_spec d c); done.
Qed.

Lemma indexByte_hash_app a g : indexByte "#" (a +:+ String "#" g) ≠ None.
Proof.
  rewrite indexByte_app. destruct (indexByte "#" a); [done|]. by cbn.
Qed.

Lemma noHash_parts n s :
  indexByte "#" (take n s) = None → indexByte "#" (drop n s) = None →
  indexByte "#" s = None.
Proof.
  intros H1 H2. rewrite <- (str_take_drop n s). by rewrite indexByte_app, H1, H2.
Qed.

Lemma take_take n : ∀ m s, take n (take m s) = take m (take n s).
Proof.
  induction n as [|n IH]; intros [|m] [|c s]; cbn; try done. by rewrite IH.
Qed.

(** *** No '#' in an authority *)

Lemma unescapeScan_host_no_hash mode s : ∀ n hp,
  mode = encodeHost ∨ mode = encodeZone →
  isOk (unescapeScan s mode n hp) = true → indexByte "#" s = None.
Proof.
  induction s as [|c s Hc IH|h1 h2 s IH| |h1] using escape_ind; intros n hp Hm.
  - done.
  - cbn [unescapeScan indexByte]. rewrite Hc.
    destruct (Ascii.eqb_spec c "#") as [->|_].
    + by destruct Hm as [-> | ->].
    + destruct (c =? "+")%char; [intros H%IH; [by rewrite H | done]|].
      destruct (_ && _); [done | intros H%IH; [by rewrite H | done]].
  - cbn [unescapeScan indexByte]. rewrite Ascii.eqb_refl. cbn [Ascii.eqb Bool.eqb option_map].
    destruct (Ascii.eqb_spec h1 "#") as [->|_]; [done|].
    destruct (Ascii.eqb_spec h2 "#") as [->|_].
    { replace (ishex "#") with false by done. by rewrite orb_true_r. }
    repeat (destruct (_ || _) || destruct (_ && _)); try done;
      intros H%IH; try done; by rewrite H.
  - done.
  - done.
Qed.

Lemma unescape_host_no_hash mode s :
  mode = encodeHost ∨ mode = encodeZone →
  isOk (unescape s mode) = true → indexByte "#" s = None.
Proof. rewrite unescape_isOk. intros Hm. by apply unescapeScan_host_no_hash. Qed.

Lemma validUserinfo_no_hash s : validUserinfo s = true → indexByte "#" s = None.
Proof.
  induction s as [|c s IH]; [done|]. cbn [validUserinfo indexByte].
  destruct (Ascii.eqb_spec c "#") as [->|_]; [done|].
  destruct (_ || _); [|done]. intros H%IH. by rewrite H.
Qed.

Lemma parseHost_no_hash host : isOk (parseHost host) = true → indexByte "#" host = None.
Proof.
  unfold parseHost. cbv zeta.
  assert (Htail : isOk (unescape host encodeHost) = true → indexByte "#" host = None).
  { apply unescape_host_no_hash. by left. }
  destruct (HasPrefix host "[").
  - destruct (LastIndex host "]") as [i|]; [|done].
    destruct (negb (validOptionalPort (drop (i + 1) host))); [done|].
    destruct (Index (take i host) "%25") as [zone|]; [|done].
    intros (h1 & H1 & (h2 & H2 & (h3 & H3 & _)%rbind_isOk)%rbind_isOk)%rbind_isOk.
    apply (noHash_parts i).
    + apply (noHash_parts zone).
      * rewrite take_take. apply indexByte_take, (unescape_host_no_hash encodeHost);
          [by left | by rewrite H1].
      * apply (unescape_host_no_hash encodeZone); [by right | by rewrite H2].
    + apply (unescape_host_no_hash encodeHost); [by left | by rewrite H3].
  - destruct (LastIndex host ":") as [i|]; [|done].
    by destruct (negb (validOptionalPort (drop i host))).
Qed.

Lemma lastIndexByte_split c s i :
  lastIndexByte c s = Some i → s = take i s +:+ String c (drop (i + 1) s).
Proof.
  revert i. induction s as [|d s IH]; intros i; [done|]. cbn [lastIndexByte].
  destruct (lastIndexByte c s) as [j|].
  - intros [= <-]. cbn [take drop Nat.add]. by rewrite str_app_cons, <- (IH j eq_refl).
  - destruct (Ascii.eqb_spec d c) as [->|_]; [|done]. intros [= <-].
    cbn. by rewrite str_app_nil_l.
Qed.

Lemma parseAuthority_no_hash a : isOk (parseAuthority a) = true → indexByte "#" a = None.
Proof.
  unfold parseAuthority. rewrite LastIndex_byte.
  destruct (lastIndexByte "@" a) as [i|] eqn:Hi.
  - intros (host & Hh & Hrest)%rbind_isOk.
    destruct (validUserinfo (take i a)) eqn:Hu; [|done].
    rewrite (lastIndexByte_split _ _ _ Hi), indexByte_app.
    rewrite (validUserinfo_no_hash _ Hu). cbn [indexByte Ascii.eqb Bool.eqb].
    rewrite parseHost_no_hash; [done|]. by rewrite Hh.
  - intros (host & Hh & _)%rbind_isOk. apply parseHost_no_hash. by rewrite Hh.
Qed.

(** *** The scheme and the query of a string cut at a '#' *)

Lemma schemeEnd_hash g a : ∀ i, schemeEnd i (a +:+ String "#" g) = schemeEnd i a.
Proof.
  induction a as [|c a IH]; intros i; [by rewrite str_app_nil_l|].
  rewrite str_app_cons. cbn [schemeEnd]. by rewrite !IH.
Qed.

Lemma getScheme_hash a g :
  getScheme (a +:+ String "#" g) =
  match getScheme a with
  | Ok (scheme, rest) => Ok (scheme, rest +:+ String "#" g)
  | Err e => Err e
  end.
Proof.
  unfold getScheme. rewrite schemeEnd_hash.
  destruct (schemeEnd 0 a) as [[i|]|e] eqn:He; cbn [rbind]; [|done..].
  apply schemeEnd_bound in He.
  rewrite str_take_app_le, str_drop_app_le by lia. done.
Qed.

Lemma splitQuery_rest r :
  fst (fst (splitQuery r)) =
  match indexByte "?" r with Some j => take j r | None => r end.
Proof.
  destruct (indexByte "?" r) as [j|] eqn:Hq.
  - by destruct (splitQuery_query r j Hq) as (q & f & ->).
  - by rewrite splitQuery_no_query.
Qed.

Lemma str_take_app_ge a : ∀ b k, take (String.length a + k) (a +:+ b) = a +:+ take k b.
Proof.
  induction a as [|c a IH]; intros b k; [by rewrite !str_app_nil_l|].
  rewrite !str_app_cons. cbn [String.length Nat.add take]. by rewrite IH.
Qed.

(** The part before the query of a string cut at a '#': the same, or
    the part before the query of the string with a '#' and more. *)
Lemma splitQuery_rest_hash r g :
  fst (fst (splitQuery (r +:+ String "#" g))) = fst (fst (splitQuery r))
  ∨ (indexByte "?" r = None
     ∧ ∃ g', fst (fst (splitQuery (r +:+ String "#" g))) = r +:+ String "#" g').
Proof.
  rewrite !splitQuery_rest, indexByte_app.
  destruct (indexByte "?" r) as [j|] eqn:Hq.
  - left. apply indexByte_lt in Hq. by rewrite str_take_app_le by lia.
  - right. split; [done|]. cbn [indexByte Ascii.eqb Bool.eqb option_map].
    destruct (indexByte "?" g) as [k|]; cbn [option_map]; [|by eauto].
    exists (take k g). by rewrite str_take_app_ge.
Qed.

(** *** Success of the steps of parse *)

Lemma parseWithAuthority_isOk scheme rest q f via :
  isOk (parseWithAuthority scheme rest q f via) = withAuthorityOK scheme rest via.
Proof.
  unfold parseWithAuthority, parseAuthorityStep, withAuthorityOK.
  destruct (hasAuthority scheme rest via).
  - destruct (splitAuthority (drop 2 rest)) as [authority rest1]. cbn [fst snd].
    destruct (parseAuthority authority) as [[user host]|]; [|done].
    cbn [rbind isOk andb]. apply setPath_isOk.
  - destruct (_ && _); cbn [rbind]; apply setPath_isOk.
Qed.

Lemma parseTail_isOk scheme rest q f via :
  isOk (parseTail scheme rest q f via) = tailOK scheme rest via.
Proof.
  unfold parseTail, tailOK. destruct (negb (HasPrefix rest "/")).
  - destruct (negb (String.eqb scheme "")); [done|]. destruct via; [done|].
    destruct (Cut rest "/") as [[segment ?] ?].
    destruct (Contains segment ":"); [done | apply parseWithAuthority_isOk].
  - apply parseWithAuthority_isOk.
Qed.

Lemma parse_isOk a via :
  isOk (parse a via) =
  negb (stringContainsCTLByte a) && negb (String.eqb a "" && via)
  && (String.eqb a "*"
      || match getScheme a with
         | Ok (scheme0, rest0) => tailOK (ToLower scheme0) (fst (fst (splitQuery rest0))) via
         | Err _ => false
         end).
Proof.
  rewrite parse_unfold. destruct (stringContainsCTLByte a); [done|].
  destruct (String.eqb a "" && via); [done|]. destruct (String.eqb a "*"); [done|].
  cbn [negb andb orb]. destruct (getScheme a) as [[scheme0 rest0]|]; [|done].
  cbn [rbind]. destruct (splitQuery rest0) as [[rest q] f]. apply parseTail_isOk.
Qed.

(** *** Cutting at the '#' *)

Lemma HasPrefix_slash_hash r g : HasPrefix (r +:+ String "#" g) "/" = HasPrefix r "/".
Proof.
  destruct r as [|c r]; [by rewrite str_app_nil_l|].
  by rewrite str_app_cons, !HasPrefix_cons, !HasPrefix_nil.
Qed.

Lemma HasPrefix_slashes_hash r g : HasPrefix (r +:+ String "#" g) "//" = HasPrefix r "//".
Proof.
  destruct r as [|c [|d r]]; [by rewrite str_app_nil_l| |].
  - rewrite str_app_cons, str_app_nil_l, !HasPrefix_cons. cbn. by rewrite andb_false_r.
  - by rewrite !str_app_cons, !HasPrefix_cons, !HasPrefix_nil.
Qed.

Lemma withAuthorityOK_before_hash scheme r g :
  withAuthorityOK scheme (r +:+ String "#" g) true = true →
  withAuthorityOK scheme r true = true.
Proof.
  unfold withAuthorityOK, hasAuthority. rewrite HasPrefix_slashes_hash.
  cbn [negb andb orb]. rewrite !orb_false_r.
  destruct (negb (String.eqb scheme "") && HasPrefix r "//") eqn:Ha.
  - apply andb_true_iff in Ha as [_ Hp%HasPrefix_split]. cbn [String.length] in Hp.
    set (A := drop 2 r) in *.
    assert (Hd : drop 2 (r +:+ String "#" g) = A +:+ String "#" g).
    { rewrite Hp at 1. rewrite str_app_assoc.
      by rewrite (str_drop_app_ge "//" _ 0), str_drop_0. }
    rewrite Hd, !splitAuthority_byte, indexByte_app.
    destruct (indexByte "/" A) as [i|] eqn:Hi.
    + apply indexByte_lt in Hi. cbn [fst snd].
      rewrite str_take_app_le, str_drop_app_le by lia.
      intros [-> H]%andb_true_iff. by rewrite (unescape_before_hash _ _ _ H).
    + intros [H _]%andb_true_iff. apply parseAuthority_no_hash in H.
      cbn [indexByte Ascii.eqb Bool.eqb option_map] in H.
      destruct (indexByte "/" g) as [k|]; cbn [option_map fst] in H.
      * rewrite str_take_app_ge in H. by destruct (indexByte_hash_app A (take k g)).
      * by destruct (indexByte_hash_app A g).
  - apply unescape_before_hash.
Qed.

Lemma tailOK_before_hash scheme r g :
  tailOK scheme (r +:+ String "#" g) true = true → tailOK scheme r true = true.
Proof.
  unfold tailOK. rewrite HasPrefix_slash_hash.
  destruct (negb (HasPrefix r "/")); [done|]. apply withAuthorityOK_before_hash.
Qed.

Lemma eqb_hash_star a g : String.eqb (a +:+ String "#" g) "*" = false.
Proof.
  destruct a as [|c [|d a]]; [done| |].
  - rewrite str_app_cons, str_app_nil_l. cbn. by destruct (c =? "*")%char.
  - rewrite !str_app_cons. cbn. by destruct (c =? "*")%char.
Qed.

(** What ParseRequestURI accepts, it accepts cut at a '#'. *)
Lemma parse_before_hash a g :
  isOk (parse (a +:+ String "#" g) true) = true → isOk (parse a true) = true.
Proof.
  rewrite !parse_isOk, stringContainsCTLByte_app, eqb_hash_star, getScheme_hash.
  cbn [orb]. intros [[Hctl _]%andb_true_iff Hrest]%andb_true_iff.
  apply negb_true_iff, orb_false_iff in Hctl as [-> _]. cbn [negb andb].
  destruct (getScheme a) as [[scheme0 rest0]|] eqn:Hg; [|done].
  assert (T : tailOK (ToLower scheme0) (fst (fst (splitQuery rest0))) true = true).
  { destruct (splitQuery_rest_hash rest0 g) as [Heq|[Hq [g' Heq]]]; rewrite Heq in Hrest.
    - done.
    - apply tailOK_before_hash in Hrest. by rewrite splitQuery_rest, Hq. }
  rewrite T, orb_true_r, andb_true_r.
  destruct (String.eqb_spec a "") as [->|_]; [|done].
  injection Hg as <- <-. by vm_compute in T.
Qed.

(** *** From a request URI to a URL *)

Lemma tailOK_false scheme r :
  tailOK scheme r true = true → tailOK scheme r false = schemelessAuthorityOK scheme r.
Proof.
  unfold tailOK, schemelessAuthorityOK.
  destruct (HasPrefix r "/") eqn:Hp; cbn [negb].
  - unfold withAuthorityOK.
    destruct (String.eqb_spec scheme "") as [->|Hs].
    + replace (hasAuthority "" r true) with false by (unfold hasAuthority; by cbn).
      cbn [andb]. intros H.
      destruct (hasAuthority "" r false) eqn:Ha; [|done].
      apply hasAuthority_prefix in Ha as [Ha%HasPrefix_split _]. cbn [String.length] in Ha.
      set (A := drop 2 r) in *. rewrite splitAuthority_byte.
      destruct (indexByte "/" A) as [i|] eqn:Hi; cbn [fst snd].
      * destruct (indexByte_split _ _ _ Hi) as (HA & _ & Hd).
        rewrite Hd, !unescape_isOk.
        rewrite unescape_isOk, Ha, HA, <- str_app_assoc in H.
        by rewrite (unescapeScan_from_slash _ _ _ _ _ H), andb_true_r.
      * by rewrite andb_true_r.
    + intros H. cbn [andb].
      replace (hasAuthority scheme r false) with (hasAuthority scheme r true); [done|].
      unfold hasAuthority. destruct (String.eqb_spec scheme ""); done.
  - destruct (String.eqb_spec scheme "") as [->|Hs]; [done|]. cbn [negb andb]. done.
Qed.

Lemma parse_false a :
  isOk (parse a true) = true →
  isOk (parse a false) =
  match getScheme a with
  | Ok (scheme0, rest0) =>
      schemelessAuthorityOK (ToLower scheme0) (fst (fst (splitQuery rest0)))
  | Err _ => true
  end.
Proof.
  rewrite !parse_isOk. intros [[-> _]%andb_true_iff H]%andb_true_iff.
  rewrite andb_false_r. cbn [negb andb].
  destruct (String.eqb a "*") eqn:Hstar.
  { apply String.eqb_eq in Hstar. by rewrite Hstar. }
  cbn [orb] in *.
  destruct (getScheme a) as [[scheme0 rest0]|]; [|done]. by apply tailOK_false.
Qed.

Lemma Cut_hash s :
  (beforeFragment s = s ∧ fragmentOf s = "")
  ∨ s = beforeFragment s +:+ String "#" (fragmentOf s).
Proof.
  unfold beforeFragment, fragmentOf, Cut. rewrite Index_byte.
  destruct (indexByte "#" s) as [i|] eqn:Hi; cbn [fst snd]; [|by left].
  right. by destruct (indexByte_split _ _ _ Hi) as (H & _).
Qed.

(** On what isUrlValid accepts, url.Parse succeeds exactly when the
    fragment and the authority of a string without scheme are well
    formed. *)
Lemma Parse_isOk s :
  isUrlValid s = true → isOk (Parse s) = fragmentOK s && authorityOK s.
Proof.
  unfold isUrlValid, ParseRequestURI. intros Hv.
  assert (Hs : isOk (parse s true) = true) by (by destruct (parse s true)).
  assert (Hu : isOk (parse (beforeFragment s) true) = true).
  { destruct (Cut_hash s) as [[-> _]|Heq]; [done|]. rewrite Heq in Hs.
    by apply parse_before_hash in Hs. }
  apply parse_false in Hu. unfold fragmentOK, authorityOK, schemelessAuthorityOK in *.
  cbv zeta. rewrite <- Hu. unfold Parse, beforeFragment, fragmentOf.
  destruct (Cut s "#") as [[u frag] found]. cbn [fst snd].
  destruct (parse u false) as [url|]; [|by rewrite andb_false_r].
  rewrite andb_true_r. destruct (String.eqb_spec frag "") as [->|_]; [done|].
  rewrite <- (setFragment_isOk url). by destruct (setFragment url frag).
Qed.

Lemma survives_wellFormed s : survives s = wellFormed s.
Proof.
  unfold survives, wellFormed. destruct (isUrlValid s) eqn:Hv; [|done].
  cbn [negb orb]. by apply Parse_isOk.
Qed.

Lemma forallb_survives urls : forallb survives urls = forallb wellFormed urls.
Proof.
  induction urls as [|s urls IH]; [done|]. cbn. by rewrite IH, survives_wellFormed.
Qed.

(** C7, amended: for a string that isUrlValid accepts, url.Parse succeeds
    exactly when the part after the first '#' has well-formed escapes and,
    if the part before it has no scheme and starts with exactly two
    slashes, the authority after them is well formed.  On a list whose
    strings all meet this (or are rejected by isUrlValid)
    getHostNameFromURL never reaches its fatal branch and cleanURLs
    returns; on any other list cleanURLs ends the process with status
    1. *)
Theorem cleanURLs_returns_on_well_formed urls w :
  forallb wellFormed urls = true →
  (∀ s, s ∈ urls → isUrlValid s = true → isOk (Parse s) = true)
  ∧ (∃ out w', MainGo.cleanURLs urls w = (Return out, w'))
  ∧ (∃ out w', Part000.cleanURLs urls w = (Return out, w'))
  ∧ (∀ s, isUrlValid s = true → isOk (Parse s) = fragmentOK s && authorityOK s)
  ∧ (∀ urls' w0, forallb wellFormed urls' = false →
       fst (MainGo.cleanURLs urls' w0) = Exit 1
       ∧ fst (Part000.cleanURLs urls' w0) = Exit 1).
Proof.
  intros Hall. split; [|split; [|split; [|split]]].
  - intros s Hs%list_elem_of_In Hv.
    apply (proj1 (forallb_forall _ _) Hall) in Hs. unfold wellFormed in Hs.
    rewrite Hv in Hs. cbn [negb orb] in Hs. by rewrite Parse_isOk.
  - unfold MainGo.cleanURLs. rewrite MainGo_cleanURL.
    apply cleanURLWith_returns. by rewrite forallb_survives.
  - unfold Part000.cleanURLs. rewrite Part000_cleanURL.
    apply cleanURLWith_returns. by rewrite forallb_survives.
  - apply Parse_isOk.
  - intros urls' w0 Hbad. rewrite <- forallb_survives in Hbad.
    unfold MainGo.cleanURLs, Part000.cleanURLs. rewrite MainGo_cleanURL, Part000_cleanURL.
    destruct (cleanURLWith_run stripSuffix urls' [] w0) as (l1 & ->).
    destruct (cleanURLWith_run id urls' [] w0) as (l2 & ->).
    by rewrite Hbad.
Qed.

Lemma cleanURLs_returns_on_well_formed_witness :
  ∃ out w', MainGo.cleanURLs wellFormedURLs emptyWorld = (Return out, w').
Proof.
  refine (proj1 (proj2 (cleanURLs_returns_on_well_formed wellFormedURLs emptyWorld _))).
  vm_compute. reflexivity.
Defined.

End ParseAgain.

(** ** The check and the kept value in src/main.go *)

Section CheckBeforeStrip.

Import GoStrings NetURL.

Implicit Types (s : string) (urls out : list string) (w : World).

Local Abbreviation σ := MainGo.unwantedSuffix.

Lemma keepWith_decide strip s :
  keepWith strip s =
  if isUrlValid s then
    match Parse s with
    | Ok u => if bool_decide (Hostname u ∈ validDomains) then Some (strip s) else None
    | Err _ => None
    end
  else None.
Proof.
  unfold keepWith. destruct (isUrlValid s); [|done]. destruct (Parse s) as [u|]; [|done].
  destruct (domainLoop (Hostname u) validDomains false) eqn:Hd.
  - apply domainLoop_allowed in Hd. by rewrite bool_decide_eq_true_2.
  - rewrite bool_decide_eq_false_2; [done|]. intros H%domainLoop_allowed. congruence.
Qed.

(** C2: what cleanURLs of src/main.go returns.  The result holds, in
    input order, one string for every input s that isUrlValid and
    url.Parse accept and whose host name is allowed: the host name is that
    of the unstripped s, the string put in the result is s without its
    trailing suffix.  On a single string the call returns the stripped
    string when the host of the unstripped string is allowed, and nothing
    (with one log entry) otherwise.  The check and the kept value diverge:
    a string whose host is allowed only once the suffix is removed is
    dropped, and a kept string can differ from the string that was
    checked. *)
Theorem cleanURLs_checks_before_stripping urls w out w' :
  MainGo.cleanURLs urls w = (Return out, w') →
  out = omap (λ s, if isUrlValid s then
                     match Parse s with
                     | Ok u => if bool_decide (Hostname u ∈ validDomains)
                               then Some (TrimSuffix s σ) else None
                     | Err _ => None
                     end
                   else None) urls
  ∧ (∀ s u w0, isUrlValid s = true → Parse s = Ok u →
       MainGo.cleanURLs [s] w0 =
       if bool_decide (Hostname u ∈ validDomains)
       then (Return [TrimSuffix s σ], w0)
       else (Return [],
             setLog w0 (os_log w0 ++ ["Invalid domain skipped:  " +:+ Hostname u +:+ newline])))
  ∧ (fst (MainGo.cleanURLs [suffixedHostURL] w) = Return []
     ∧ ∃ u, Parse (TrimSuffix suffixedHostURL σ) = Ok u ∧ Hostname u ∈ validDomains)
  ∧ (fst (MainGo.cleanURLs [suffixedURL] w) = Return [TrimSuffix suffixedURL σ]
     ∧ TrimSuffix suffixedURL σ ≠ suffixedURL).
Proof.
  assert (Hone : ∀ s u w0, isUrlValid s = true → Parse s = Ok u →
            MainGo.cleanURLs [s] w0 =
            if bool_decide (Hostname u ∈ validDomains)
            then (Return [TrimSuffix s σ], w0)
            else (Return [],
                  setLog w0 (os_log w0 ++
                    ["Invalid domain skipped:  " +:+ Hostname u +:+ newline]))).
  { intros s u w0 Hv Hp. unfold MainGo.cleanURLs. cbn [forRange]. unfold bind.
    rewrite MainGo_cleanURL, cleanURLWith_step, Hv, Hp.
    destruct (domainLoop (Hostname u) validDomains false) eqn:Hd.
    - apply domainLoop_allowed in Hd. by rewrite bool_decide_eq_true_2.
    - rewrite bool_decide_eq_false_2; [done|]. intros H%domainLoop_allowed. congruence. }
  intros Hrun. split; [|split; [exact Hone|split]].
  - unfold MainGo.cleanURLs in Hrun. rewrite MainGo_cleanURL in Hrun.
    apply cleanURLWith_loop in Hrun as ->. cbn [app].
    apply list_eq. intros k. f_equal. clear.
    induction urls as [|s urls IH]; [done|]. cbn [omap list_omap].
    by rewrite IH, keepWith_decide.
  - split.
    + rewrite (Hone suffixedHostURL
                 (match Parse suffixedHostURL with Ok u => u | Err _ => zeroURL end) w);
        by vm_compute.
    + eexists. split; [by vm_compute|]. apply list_elem_of_In. vm_compute. tauto.
  - split.
    + rewrite (Hone suffixedURL
                 (match Parse suffixedURL with Ok u => u | Err _ => zeroURL end) w);
        by vm_compute.
    + by vm_compute.
Qed.

Lemma cleanURLs_checks_before_stripping_witness :
  ["https://www.documentcloud.org/docs/123.pdf"; "https://documentcloud.org/y"] =
  omap (λ s, if isUrlValid s then
               match Parse s with
               | Ok u => if bool_decide (Hostname u ∈ validDomains)
                         then Some (TrimSuffix s σ) else None
               | Err _ => None
               end
             else None) mixedURLs.
Proof.
  refine (proj1 (cleanURLs_checks_before_stripping mixedURLs emptyWorld _
                   (snd (MainGo.cleanURLs mixedURLs emptyWorld)) _)).
  vm_compute. reflexivity.
Defined.

End CheckBeforeStrip.
